(** * jax_intro: a verification model of the tutorial notebook

    The notebook [src/tutorials/jax_intro.ipynb] is a sequence of code cells
    that call into NumPy and JAX.  This development embeds the cells'
    code: the functions the cells define ([linear_model], [mse_loss],
    [two_layer_nn_model], [square], [init_network], [forward], [loss],
    [gradient_descent_step], [print_leaf_shapes]) are translated line by
    line, and the library entry points they call ([jnp.dot], [jnp.vdot],
    [jnp.mean], [jax.nn.relu], broadcasting arithmetic, [jax.grad],
    [jax.vmap], [jax.tree_map], array creation and item assignment) are
    given executable definitions that follow the library's documented
    behaviour on arrays of rank at most two.

    Conventions.
    - the functions are written once, over a class [Scalar] of array
      entries, and read at three kinds of entries: exact rationals
      ([Qc]), the forward-mode tracers of [jax.grad] over them, and
      IEEE 754 binary32 numbers ([f32]), the notebook's float32.
    - the cells and [jax.grad] are run over the exact rationals: rounding,
      overflow, infinities and NaN are not in that reading, and a
      statement about values made in it is a statement about exact
      arithmetic.  Statements about values of the float32 code are made
      over [f32].
    - a Python exception is an [Err] outcome of the [res] monad. *)

From stdpp Require Import gmap strings list.
From Stdlib Require Import QArith Qcanon Lia DecimalString Sorted SpecFloat.

Set Default Proof Using "Type".
Set Warnings "-register-all".
Local Open Scope string_scope.
Local Open Scope list_scope.

(** ** Outcomes of a Python computation *)

Inductive exn : Type :=
| TypeError (msg : string)
| ValueError (msg : string)
| ShapeError          (* the library's shape-mismatch branch *)
| KeyError (key : string)
| AttributeError (msg : string)
| Unsupported.        (* rank above two: outside the model *)

Inductive res (A : Type) : Type :=
| Ok (a : A)
| Err (e : exn).
Arguments Ok {A} a.
Arguments Err {A} e.

Definition bind {A B} (m : res A) (k : A → res B) : res B :=
  match m with
  | Ok a => k a
  | Err e => Err e
  end.

Notation "'let*' x ':=' m 'in' k" := (bind m (fun x => k))
  (at level 10, x pattern, m at level 100, k at level 200).

Definition is_ok {A} (m : res A) : bool :=
  match m with Ok _ => true | Err _ => false end.

Section ListMonad.
Context {A B C : Type}.

Section MapM.
Variable f : A → res B.

Fixpoint mapM_res (l : list A) : res (list B) :=
  match l with
  | [] => Ok []
  | x :: xs => let* y := f x in let* ys := mapM_res xs in Ok (y :: ys)
  end.
End MapM.

Section ZipM.
Variable f : A → B → res C.

(** Pairwise traversal of two lists of equal length. *)
Fixpoint zipM_res (u : list A) (v : list B) : res (list C) :=
  match u, v with
  | [], [] => Ok []
  | x :: xs, y :: ys =>
      let* z := f x y in let* zs := zipM_res xs ys in Ok (z :: zs)
  | _, _ => Err ShapeError
  end.
End ZipM.
End ListMonad.

(** ** Scalars: concrete numbers and JVP tracers

    Python code is duck typed: the same function body runs on concrete
    arrays and on the tracers that [jax.grad] feeds it.  The class
    [Scalar] is the interface both kinds of entries implement. *)

Class Scalar (A : Type) := {
  s_zero : A;
  s_add : A → A → A;
  s_sub : A → A → A;
  s_mul : A → A → A;
  s_div : A → A → A;
  s_pow : A → nat → A;
  s_relu : A → A;
  s_of_nat : nat → A;
}.

Definition Qc_of_nat (n : nat) : Qc := Q2Qc (inject_Z (Z.of_nat n)).

(** [jax.nn.relu x = jnp.maximum(x, 0)]. *)
Definition Qc_relu (q : Qc) : Qc :=
  match (0 ?= q)%Qc with
  | Lt => q
  | _ => 0%Qc
  end.

#[export] Instance Qc_scalar : Scalar Qc := {|
  s_zero := 0%Qc;
  s_add := Qcplus;
  s_sub := Qcminus;
  s_mul := Qcmult;
  s_div := Qcdiv;
  s_pow := Qcpower;
  s_relu := Qc_relu;
  s_of_nat := Qc_of_nat;
|}.

(** A forward-mode tracer: a value with the derivative that rides along. *)
Record dual : Type := Dual { primal : Qc; tangent : Qc }.

Definition d_const (q : Qc) : dual := Dual q 0%Qc.
Definition d_seed (q : Qc) : dual := Dual q 1%Qc.

Definition d_add (a b : dual) : dual :=
  Dual (primal a + primal b)%Qc (tangent a + tangent b)%Qc.
Definition d_sub (a b : dual) : dual :=
  Dual (primal a - primal b)%Qc (tangent a - tangent b)%Qc.
Definition d_mul (a b : dual) : dual :=
  Dual (primal a * primal b)%Qc
       (tangent a * primal b + primal a * tangent b)%Qc.
Definition d_div (a b : dual) : dual :=
  Dual (primal a / primal b)%Qc
       ((tangent a * primal b - primal a * tangent b) / (primal b * primal b))%Qc.
Definition d_pow (a : dual) (n : nat) : dual :=
  match n with
  | O => Dual 1%Qc 0%Qc
  | S k => Dual (primal a ^ n)%Qc (Qc_of_nat n * primal a ^ k * tangent a)%Qc
  end.
(** The derivative of relu is 1 where the input is positive and 0 elsewhere. *)
Definition d_relu (a : dual) : dual :=
  match (0 ?= primal a)%Qc with
  | Lt => a
  | _ => Dual 0%Qc 0%Qc
  end.

#[export] Instance dual_scalar : Scalar dual := {|
  s_zero := d_const 0%Qc;
  s_add := d_add;
  s_sub := d_sub;
  s_mul := d_mul;
  s_div := d_div;
  s_pow := d_pow;
  s_relu := d_relu;
  s_of_nat := fun n => d_const (Qc_of_nat n);
|}.

(** ** float32

    The entries of the notebook's floating-point arrays are IEEE 754
    binary32 numbers, JAX's default dtype.  [spec_float] is the standard
    library's specification of binary floating point, read here at
    precision 24 with exponent bound 128: a zero or an infinity with its
    sign, NaN, or a finite number [(-1)^s * m * 2^e]; the operations
    round to nearest, ties to even. *)

Abbreviation f32 := spec_float.

Definition f32_zero : f32 := S754_zero false.
Definition f32_add : f32 → f32 → f32 := SFadd 24 128.
Definition f32_sub : f32 → f32 → f32 := SFsub 24 128.
Definition f32_mul : f32 → f32 → f32 := SFmul 24 128.
Definition f32_div : f32 → f32 → f32 := SFdiv 24 128.

(** The float32 nearest to an integer. *)
Definition f32_of_Z (z : Z) : f32 := binary_normalize 24 128 z 0 false.

(** [x ** n] for a Python int [n]: repeated multiplication, [x * x] for
    the notebook's [** 2]. *)
Definition f32_pow (x : f32) (n : nat) : f32 :=
  match n with
  | O => f32_of_Z 1
  | S k => Nat.iter k (fun acc => f32_mul acc x) x
  end.

(** [jax.nn.relu x = jnp.maximum(x, 0)]: a NaN stays a NaN. *)
Definition f32_relu (x : f32) : f32 :=
  match x with
  | S754_nan => S754_nan
  | _ => if SFltb f32_zero x then x else f32_zero
  end.

#[export] Instance f32_scalar : Scalar f32 := {|
  s_zero := f32_zero;
  s_add := f32_add;
  s_sub := f32_sub;
  s_mul := f32_mul;
  s_div := f32_div;
  s_pow := f32_pow;
  s_relu := f32_relu;
  s_of_nat := fun n => f32_of_Z (Z.of_nat n);
|}.

(** Python's comparisons of floats: [x < 0], [0 <= x] and [x == y]; each
    is false as soon as one side is NaN. *)
Definition f32_negative (x : f32) : bool := SFltb x f32_zero.
Definition f32_nonnegative (x : f32) : bool := SFleb f32_zero x.
Definition f32_eq (x y : f32) : bool := SFeqb x y.

(** ** Arrays of rank at most two

    [T2 c rows] is a matrix with [length rows] rows and [c] columns; the
    column count is stored so that a matrix without rows keeps its shape. *)

Inductive tensor (A : Type) : Type :=
| T0 (a : A)
| T1 (v : list A)
| T2 (ncols : nat) (rows : list (list A)).
Arguments T0 {A} a.
Arguments T1 {A} v.
Arguments T2 {A} ncols rows.

Definition shape {A} (t : tensor A) : list nat :=
  match t with
  | T0 _ => []
  | T1 v => [length v]
  | T2 c rows => [length rows; c]
  end.

Definition wf_tensor {A} (t : tensor A) : bool :=
  match t with
  | T2 c rows => forallb (fun row => length row =? c)%nat rows
  | _ => true
  end.

Definition tmap {A B} (f : A → B) (t : tensor A) : tensor B :=
  match t with
  | T0 a => T0 (f a)
  | T1 v => T1 (map f v)
  | T2 c rows => T2 c (map (map f) rows)
  end.

(** [ravel]: the entries in row-major order. *)
Definition ravel {A} (t : tensor A) : list A :=
  match t with
  | T0 a => [a]
  | T1 v => v
  | T2 _ rows => concat rows
  end.

Section Broadcasting.
Context {A : Type}.

(** NumPy's rule for one axis: equal sizes, or one of them is 1. *)
Definition bc_dim (m n : nat) : res nat :=
  if (m =? n)%nat then Ok m
  else if (m =? 1)%nat then Ok n
  else if (n =? 1)%nat then Ok m
  else Err ShapeError.

Definition bc_zip {X Y Z} (g : X → Y → res Z) (u : list X) (v : list Y)
  : res (list Z) :=
  if (length u =? length v)%nat then zipM_res g u v
  else match u, v with
       | [x], _ => mapM_res (g x) v
       | _, [y] => mapM_res (fun x => g x y) u
       | _, _ => Err ShapeError
       end.

Definition binop2d (f : A → A → A) (c1 : nat) (r1 : list (list A))
    (c2 : nat) (r2 : list (list A)) : res (tensor A) :=
  let* c := bc_dim c1 c2 in
  let* rows := bc_zip (bc_zip (fun x y => Ok (f x y))) r1 r2 in
  Ok (T2 c rows).

(** An elementwise binary operation with broadcasting; a rank-1 operand
    meets a matrix as a single row. *)
Definition binop (f : A → A → A) (a b : tensor A) : res (tensor A) :=
  match a, b with
  | T0 x, _ => Ok (tmap (f x) b)
  | _, T0 y => Ok (tmap (fun x => f x y) a)
  | T1 u, T1 v => let* w := bc_zip (fun x y => Ok (f x y)) u v in Ok (T1 w)
  | T2 c rows, T1 v => binop2d f c rows (length v) [v]
  | T1 u, T2 c rows => binop2d f (length u) [u] c rows
  | T2 c1 r1, T2 c2 r2 => binop2d f c1 r1 c2 r2
  end.
End Broadcasting.

Section ArrayOps.
Context {A : Type} `{Scalar A}.

Definition tadd := binop s_add.
Definition tsub := binop s_sub.
Definition tmul := binop s_mul.

(** [t ** n] for a Python int [n]. *)
Definition tpow (t : tensor A) (n : nat) : tensor A := tmap (fun x => s_pow x n) t.

Definition relu (t : tensor A) : tensor A := tmap s_relu t.

Definition sum_list (l : list A) : A := fold_right s_add s_zero l.

(** [jnp.mean] over all entries: the sum divided by the entry count.  For
    an array without entries this is 0/0: NaN in float32.  (The exact
    rationals have no NaN; their division makes it 0.) *)
Definition mean (t : tensor A) : res (tensor A) :=
  let l := ravel t in
  Ok (T0 (s_div (sum_list l) (s_of_nat (length l)))).

Definition dot_list (u v : list A) : A :=
  sum_list (map (fun p => s_mul (fst p) (snd p)) (combine u v)).

Definition column (j : nat) (rows : list (list A)) : list A :=
  map (fun row => nth j row s_zero) rows.

(** [jnp.vdot]: both operands are flattened, then contracted. *)
Definition vdot (a b : tensor A) : res (tensor A) :=
  let u := ravel a in
  let v := ravel b in
  if (length u =? length v)%nat then Ok (T0 (dot_list u v)) else Err ShapeError.

(** [jnp.dot]: scalar times array, inner product, matrix-vector,
    vector-matrix and matrix-matrix product. *)
Definition dot (a b : tensor A) : res (tensor A) :=
  match a, b with
  | T0 _, _ | _, T0 _ => tmul a b
  | T1 u, T1 v =>
      if (length u =? length v)%nat then Ok (T0 (dot_list u v)) else Err ShapeError
  | T2 c rows, T1 v =>
      if (c =? length v)%nat then Ok (T1 (map (fun row => dot_list row v) rows))
      else Err ShapeError
  | T1 u, T2 c rows =>
      if (length u =? length rows)%nat
      then Ok (T1 (map (fun j => dot_list u (column j rows)) (seq 0 c)))
      else Err ShapeError
  | T2 c1 r1, T2 c2 r2 =>
      if (c1 =? length r2)%nat
      then Ok (T2 c2 (map (fun row =>
                 map (fun j => dot_list row (column j r2)) (seq 0 c2)) r1))
      else Err ShapeError
  end.

(** [jnp.transpose]: reverses the axes. *)
Definition transpose (t : tensor A) : tensor A :=
  match t with
  | T2 c rows => T2 (length rows) (map (fun j => column j rows) (seq 0 c))
  | _ => t
  end.

(** [x[:, None]]: a trailing axis of size 1. *)
Definition expand_last (t : tensor A) : res (tensor A) :=
  match t with
  | T0 a => Err (TypeError "too many indices for array")
  | T1 v => Ok (T2 1 (map (fun x => [x]) v))
  | T2 _ _ => Err Unsupported
  end.

Definition zeros (sh : list nat) : res (tensor A) :=
  match sh with
  | [] => Ok (T0 s_zero)
  | [n] => Ok (T1 (repeat s_zero n))
  | [r; c] => Ok (T2 c (repeat (repeat s_zero c) r))
  | _ => Err Unsupported
  end.
End ArrayOps.

(** ** Pytrees: nested containers with arrays at the leaves

    A dict is kept as the list of its items in insertion order.  The
    library flattens a dict in sorted key order and rebuilds it in that
    order, which [canon] reproduces. *)

Inductive pytree (L : Type) : Type :=
| Leaf (x : L)
| PTuple (items : list (pytree L))
| PDict (items : list (string * pytree L)).
Arguments Leaf {L} x.
Arguments PTuple {L} items.
Arguments PDict {L} items.

Section KeySort.
Context {V : Type}.

Definition key_leb (a b : string * V) : bool := String.leb (fst a) (fst b).

Fixpoint insert_item (x : string * V) (l : list (string * V)) : list (string * V) :=
  match l with
  | [] => [x]
  | y :: ys => if key_leb x y then x :: l else y :: insert_item x ys
  end.

Definition sort_items (l : list (string * V)) : list (string * V) :=
  fold_right insert_item [] l.

Fixpoint lookup_item (k : string) (l : list (string * V)) : option V :=
  match l with
  | [] => None
  | (k', v) :: rest => if String.eqb k k' then Some v else lookup_item k rest
  end.
End KeySort.

Section PytreeOps.
Context {L M : Type}.

(** A function applied at every leaf, for functions from leaves to
    leaves: the uses in this development map arrays to arrays, shapes or
    [tt].  (A function that returns a container is outside this
    definition.) *)
Fixpoint tree_map1 (f : L → M) (t : pytree L) : pytree M :=
  match t with
  | Leaf x => Leaf (f x)
  | PTuple items => PTuple (map (tree_map1 f) items)
  | PDict items => PDict (map (fun kv => (fst kv, tree_map1 f (snd kv))) items)
  end.

(** Dict items in sorted key order, at every level. *)
Fixpoint canon (t : pytree L) : pytree L :=
  match t with
  | Leaf x => Leaf x
  | PTuple items => PTuple (map canon items)
  | PDict items => PDict (sort_items (map (fun kv => (fst kv, canon (snd kv))) items))
  end.
End PytreeOps.

(** The container skeleton of a pytree, leaves erased: what the library
    calls the tree definition. *)
Definition treedef {L} (t : pytree L) : pytree unit :=
  canon (tree_map1 (fun _ => tt) t).

(** The shapes of the leaves, in the tree's skeleton. *)
Definition leaf_shapes {A} (t : pytree (tensor A)) : pytree (list nat) :=
  canon (tree_map1 shape t).

(** A Python value of the notebook: an array or a container of values. *)
Abbreviation pyval A := (pytree (tensor A)).

Definition as_array {A} (v : pyval A) : res (tensor A) :=
  match v with
  | Leaf t => Ok t
  | _ => Err (TypeError "unsupported operand type")
  end.

(** Iteration over a value, as in [m, b = params] or [for x in xs]. *)
Definition py_iter {A} (v : pyval A) : res (list (pyval A)) :=
  match v with
  | Leaf (T0 _) => Err (TypeError "iteration over a 0-d array")
  | Leaf (T1 l) => Ok (map (fun a => Leaf (T0 a)) l)
  | Leaf (T2 _ rows) => Ok (map (fun r => Leaf (T1 r)) rows)
  | PTuple items => Ok items
  | PDict _ => Err Unsupported
  end.

Definition unpack2 {A} (v : pyval A) : res (pyval A * pyval A) :=
  let* items := py_iter v in
  match items with
  | [a; b] => Ok (a, b)
  | _ => Err (ValueError "wrong number of values to unpack")
  end.

(** ** Cell 15: the linear model and its loss *)

Section LinearRegression.
Context {A : Type} `{Scalar A}.

(** [def linear_model(x, m, b): return m * x + b] *)
Definition linear_model (x m b : tensor A) : res (tensor A) :=
  let* mx := tmul m x in
  tadd mx b.

(** [def mse_loss(params, x, y)] *)
Definition mse_loss (params : pyval A) (x y : tensor A) : res (tensor A) :=
  let* mb := unpack2 params in
  let* m := as_array (fst mb) in
  let* b := as_array (snd mb) in
  let* y_pred := linear_model x m b in
  let* r := tsub y_pred y in
  mean (tpow r 2).
End LinearRegression.

(** ** [jax.grad]

    The gradient of a scalar-valued function at a pytree of arrays: for
    every entry of every leaf, the function is run on tracers whose
    tangent is 1 at that entry and 0 elsewhere, and the tangent of the
    result is the partial derivative.  The result has the argument's
    structure, dict keys in sorted order.  The entries are floating-point
    numbers, read as exact rationals; the library's check of the dtype
    (integer arrays are refused) has no counterpart here. *)

Section Partials.
Context {X Y R : Type}.
Variable lift : X → Y.
Variable part : X → (Y → res Qc) → res R.

Fixpoint partials_list (pre : list Y) (l : list X) (k : list Y → res Qc)
  : res (list R) :=
  match l with
  | [] => Ok []
  | x :: rest =>
      let* r := part x (fun y => k (pre ++ y :: map lift rest)) in
      let* rs := partials_list (pre ++ [lift x]) rest k in
      Ok (r :: rs)
  end.
End Partials.

Definition partial_scalar (q : Qc) (k : dual → res Qc) : res Qc := k (d_seed q).

Definition partials_tensor (t : tensor Qc) (k : tensor dual → res Qc)
  : res (tensor Qc) :=
  match t with
  | T0 q => let* d := partial_scalar q (fun y => k (T0 y)) in Ok (T0 d)
  | T1 v =>
      let* ds := partials_list d_const partial_scalar [] v (fun v' => k (T1 v')) in
      Ok (T1 ds)
  | T2 c rows =>
      let* ds := partials_list (map d_const)
                   (fun row k' => partials_list d_const partial_scalar [] row k')
                   [] rows (fun rows' => k (T2 c rows')) in
      Ok (T2 c ds)
  end.

Definition lift_tree (t : pyval Qc) : pyval dual := tree_map1 (tmap d_const) t.

Fixpoint partials_tree (t : pyval Qc) (k : pyval dual → res Qc) : res (pyval Qc) :=
  match t with
  | Leaf a => let* g := partials_tensor a (fun a' => k (Leaf a')) in Ok (Leaf g)
  | PTuple items =>
      let* gs := partials_list lift_tree partials_tree [] items
                   (fun items' => k (PTuple items')) in
      Ok (PTuple gs)
  | PDict items =>
      let* gs := partials_list
                   (fun kv => (fst kv, lift_tree (snd kv)))
                   (fun kv k' =>
                      let* g := partials_tree (snd kv) (fun y => k' (fst kv, y)) in
                      Ok (fst kv, g))
                   [] items (fun items' => k (PDict items')) in
      Ok (PDict gs)
  end.

(** The tangent of a scalar result; [jax.grad] rejects any other output. *)
Definition scalar_tangent (r : res (tensor dual)) : res Qc :=
  match r with
  | Ok (T0 d) => Ok (tangent d)
  | Ok _ => Err (TypeError "Gradient only defined for scalar-output functions")
  | Err e => Err e
  end.

Definition grad (f : pyval dual → res (tensor dual)) (params : pyval Qc)
  : res (pyval Qc) :=
  let* g := partials_tree params (fun p => scalar_tangent (f p)) in
  Ok (canon g).

(** Cell 16: [gradient = jax.grad(mse_loss, argnums=0)]; the data arrays
    are not differentiated and enter as constants. *)
Definition gradient (params : pyval Qc) (x y : tensor Qc) : res (pyval Qc) :=
  grad (fun p => mse_loss p (tmap d_const x) (tmap d_const y)) params.

(** The closed forms of the two partial derivatives of the loss. *)
Definition mean_Qc (l : list Qc) : Qc := (sum_list l / Qc_of_nat (length l))%Qc.

Definition residual (m b : Qc) (xi yi : Qc) : Qc := (m * xi + b - yi)%Qc.

Definition analytic_dm (m b : Qc) (x y : list Qc) : Qc :=
  mean_Qc (zip_with (fun xi yi => 2 * xi * residual m b xi yi)%Qc x y).

Definition analytic_db (m b : Qc) (x y : list Qc) : Qc :=
  mean_Qc (zip_with (fun xi yi => 2 * residual m b xi yi)%Qc x y).

(** The same closed forms written with the library's array operations,
    [mean(2*x*(m*x + b - y))] and [mean(2*(m*x + b - y))], for any kind of
    entries. *)
Definition closed_form_gradient {A} `{Scalar A} (m b : A) (x y : tensor A)
  : res (tensor A * tensor A) :=
  let* mx := tmul (T0 m) x in
  let* p := tadd mx (T0 b) in
  let* r := tsub p y in
  let* two_x := tmul (T0 (s_of_nat 2)) x in
  let* two_x_r := tmul two_x r in
  let* dm := mean two_x_r in
  let* two_r := tmul (T0 (s_of_nat 2)) r in
  let* db := mean two_r in
  Ok (dm, db).

(** ** [jax.vmap]

    [vmap f] slices the mapped arguments along their [in_axes], applies
    [f] to each group of slices and stacks the results along [out_axes].
    When the mapped axis has size 0 there is no slice to run [f] on; the
    library then still knows the shape of one result from tracing [f]
    abstractly, which the model reproduces by running [f] on zero-filled
    arguments of the slice shape. *)

Section Vmap.
Context {A : Type} `{Scalar A}.

Definition axis_size (axis : nat) (t : tensor A) : res nat :=
  match nth_error (shape t) axis with
  | Some n => Ok n
  | None => Err (ValueError "vmap: mapped axis out of range for the argument")
  end.

Definition unstack (axis : nat) (t : tensor A) : res (list (tensor A)) :=
  match t, axis with
  | T1 v, O => Ok (map T0 v)
  | T2 _ rows, O => Ok (map T1 rows)
  | T2 c rows, 1%nat => Ok (map (fun j => T1 (column j rows)) (seq 0 c))
  | _, _ => Err (ValueError "vmap: mapped axis out of range for the argument")
  end.

Definition drop_axis (axis : nat) (sh : list nat) : list nat :=
  take axis sh ++ drop (S axis) sh.

Definition as_scalar (t : tensor A) : res A :=
  match t with T0 a => Ok a | _ => Err ShapeError end.

Definition as_vector (m : nat) (t : tensor A) : res (list A) :=
  match t with
  | T1 v => if (length v =? m)%nat then Ok v else Err ShapeError
  | _ => Err ShapeError
  end.

(** Stack results of shape [proto] along a new axis. *)
Definition stack (axis : nat) (proto : list nat) (rs : list (tensor A))
  : res (tensor A) :=
  match proto, axis with
  | [], O => let* xs := mapM_res as_scalar rs in Ok (T1 xs)
  | [m], O => let* rows := mapM_res (as_vector m) rs in Ok (T2 m rows)
  | [m], 1%nat =>
      let* vs := mapM_res (as_vector m) rs in
      Ok (T2 (length vs) (map (fun i => column i vs) (seq 0 m)))
  | [], _ | [_], _ => Err (ValueError "vmap: out_axes out of range")
  | _, _ => Err Unsupported
  end.

(** One argument's slices: along [Some axis], or the argument itself
    for every index when its entry in [in_axes] is [None]. *)
Definition slices (n : nat) (ax : option nat) (t : tensor A)
  : res (list (tensor A)) :=
  match ax with
  | Some k => unstack k t
  | None => Ok (repeat t n)
  end.

Definition proto_slice (ax : option nat) (t : tensor A) : res (tensor A) :=
  match ax with
  | Some k => zeros (drop_axis k (shape t))
  | None => Ok t
  end.

Definition batch_size (ia ib : option nat) (a b : tensor A) : res nat :=
  match ia, ib with
  | Some k, None => axis_size k a
  | None, Some k => axis_size k b
  | Some ka, Some kb =>
      let* na := axis_size ka a in
      let* nb := axis_size kb b in
      if (na =? nb)%nat then Ok na
      else Err (ValueError "vmap got inconsistent sizes for array axes to be mapped")
  | None, None => Err (ValueError "vmap must have at least one non-None value in in_axes")
  end.

Definition result_proto (rs : list (tensor A)) (abstract : res (tensor A))
  : res (list nat) :=
  match rs with
  | r :: _ => Ok (shape r)
  | [] => let* r := abstract in Ok (shape r)
  end.

(** [jax.vmap(f, in_axes=(ia, ib), out_axes=oa)] for a binary [f]. *)
Definition vmap2 (f : tensor A → tensor A → res (tensor A))
    (ia ib : option nat) (oa : nat) (a b : tensor A) : res (tensor A) :=
  let* n := batch_size ia ib a b in
  let* sa := slices n ia a in
  let* sb := slices n ib b in
  let* rs := zipM_res f sa sb in
  let* proto := result_proto rs
                  (let* pa := proto_slice ia a in
                   let* pb := proto_slice ib b in
                   f pa pb) in
  stack oa proto rs.

(** [jax.vmap(f)] for a unary [f]: [in_axes=0], [out_axes=0]. *)
Definition vmap1 (f : tensor A → res (tensor A)) (a : tensor A) : res (tensor A) :=
  let* sa := unstack 0 a in
  let* rs := mapM_res f sa in
  let* proto := result_proto rs (let* pa := proto_slice (Some 0%nat) a in f pa) in
  stack 0 proto rs.

(** [jnp.array] of a Python list of arrays: a new leading axis. *)
Definition jnp_array_of (l : list (tensor A)) : res (tensor A) :=
  match l with
  | [] => Ok (T1 [])
  | r :: _ => stack 0 (shape r) l
  end.

(** Iterating over an array yields its slices along axis 0. *)
Definition iter_array (t : tensor A) : res (list (tensor A)) :=
  match t with
  | T0 _ => Err (TypeError "iteration over a 0-d array")
  | T1 v => Ok (map T0 v)
  | T2 _ rows => Ok (map T1 rows)
  end.
End Vmap.

(** ** Cells 18 to 21: [square] and the vmapped products *)

Section Vectorization.
Context {A : Type} `{Scalar A}.

(** [def square(x): return x * x] *)
Definition square (x : tensor A) : res (tensor A) := tmul x x.

(** [squared = jnp.array([square(x) for x in xs])] *)
Definition squared_loop (xs : tensor A) : res (tensor A) :=
  let* items := iter_array xs in
  let* sq := mapM_res square items in
  jnp_array_of sq.

(** [batched_square = jax.vmap(square)] *)
Definition batched_square : tensor A → res (tensor A) := vmap1 square.

(** [vector_vector = lambda x, y: jnp.vdot(x, y)] *)
Definition vector_vector (x y : tensor A) : res (tensor A) := vdot x y.

(** [matrix_vector = jax.vmap(vector_vector, in_axes=(0, None), out_axes=0)] *)
Definition matrix_vector : tensor A → tensor A → res (tensor A) :=
  vmap2 vector_vector (Some 0%nat) None 0.

(** [matrix_matrix = jax.vmap(matrix_vector, in_axes=(None, 1), out_axes=1)] *)
Definition matrix_matrix : tensor A → tensor A → res (tensor A) :=
  vmap2 matrix_vector None (Some 1%nat) 1.

(** [matrix_matrix_transpose = jax.vmap(matrix_vector, in_axes=(None, 1), out_axes=0)] *)
Definition matrix_matrix_transpose : tensor A → tensor A → res (tensor A) :=
  vmap2 matrix_vector None (Some 1%nat) 0.
End Vectorization.

(** ** Cell 17: the two-layer network on a tuple of parameters *)

Definition unpack6 {A} (v : pyval A)
  : res (tensor A * tensor A * tensor A * tensor A * tensor A * tensor A) :=
  let* items := py_iter v in
  match items with
  | [p1; p2; p3; p4; p5; p6] =>
      let* w1 := as_array p1 in
      let* b1 := as_array p2 in
      let* w2 := as_array p3 in
      let* b2 := as_array p4 in
      let* w_out := as_array p5 in
      let* b_out := as_array p6 in
      Ok (w1, b1, w2, b2, w_out, b_out)
  | _ => Err (ValueError "wrong number of values to unpack")
  end.

Section TwoLayerTuple.
Context {A : Type} `{Scalar A}.

(** [def two_layer_nn_model(x, w1, b1, w2, b2, w_out, b_out)] *)
Definition two_layer_nn_model (x w1 b1 w2 b2 w_out b_out : tensor A)
  : res (tensor A) :=
  let* xw1 := dot x w1 in
  let* z1 := tadd xw1 b1 in
  let hidden1 := relu z1 in
  let* hw2 := dot hidden1 w2 in
  let* z2 := tadd hw2 b2 in
  let hidden2 := relu z2 in
  let* out := dot hidden2 w_out in
  tadd out b_out.

(** [def two_layer_nn_mse_loss(params, x, y)] *)
Definition two_layer_nn_mse_loss (params : pyval A) (x y : tensor A)
  : res (tensor A) :=
  let* (w1, b1, w2, b2, w_out, b_out) := unpack6 params in
  let* y_pred := two_layer_nn_model x w1 b1 w2 b2 w_out b_out in
  let* r := tsub y_pred y in
  mean (tpow r 2).
End TwoLayerTuple.

(** [gradient_two_layer_nn = jax.grad(two_layer_nn_mse_loss, argnums=0)] *)
Definition gradient_two_layer_nn (params : pyval Qc) (x y : tensor Qc)
  : res (pyval Qc) :=
  grad (fun p => two_layer_nn_mse_loss p (tmap d_const x) (tmap d_const y)) params.

(** ** [jax.tree_map] *)

Section TreeMap2.
Context {L M : Type}.
Variable f : L → L → res M.

(** [jax.tree_map(f, t1, t2)]: the trees must have one structure; the
    result has it too, dict keys in sorted order. *)
Fixpoint tree_map2 (t1 t2 : pytree L) : res (pytree M) :=
  match t1, t2 with
  | Leaf a, Leaf b => let* c := f a b in Ok (Leaf c)
  | PTuple l1, PTuple l2 =>
      let* l := zipM_res tree_map2 l1 l2 in Ok (PTuple l)
  | PDict d1, PDict d2 =>
      if (length d1 =? length d2)%nat then
        let* l := mapM_res
                    (fun kv =>
                       match lookup_item (fst kv) d2 with
                       | Some t => let* r := tree_map2 (snd kv) t in Ok (fst kv, r)
                       | None => Err (ValueError "Dict key mismatch")
                       end) d1 in
        Ok (PDict (sort_items l))
      else Err (ValueError "Dict key mismatch")
  | _, _ => Err (ValueError "Custom node type mismatch")
  end.
End TreeMap2.

(** [jax.tree_map(f, t)] for a single tree. *)
Definition tree_map {L M} (f : L → M) (t : pytree L) : pytree M :=
  canon (tree_map1 f t).

(** ** Cells 25 to 28: the two-layer network on a dict of parameters *)

(** [d[key]] *)
Definition getitem {L} (v : pytree L) (key : string) : res (pytree L) :=
  match v with
  | PDict items =>
      match lookup_item key items with
      | Some t => Ok t
      | None => Err (KeyError key)
      end
  | _ => Err (TypeError "indices must be integers")
  end.

Section Network.
(** [jax.random.normal(jax.random.PRNGKey(seed), shape=...)]: the draw
    is the library's; the notebook only fixes the seed and the shape. *)
Variable normal : nat → list nat → tensor Qc.

(** [def init_network(input_dim, hidden_dim, output_dim)] *)
Definition init_network (input_dim hidden_dim output_dim : nat) : pyval Qc :=
  PDict
    [("layer1",
      PDict [("weights", Leaf (normal 123 [input_dim; hidden_dim]));
             ("biases", Leaf (T1 (repeat 0%Qc hidden_dim)))]);
     ("layer2",
      PDict [("weights", Leaf (normal 246 [hidden_dim; output_dim]));
             ("biases", Leaf (T1 (repeat 0%Qc output_dim)))])].
End Network.

Section NetworkOps.
Context {A : Type} `{Scalar A}.

Definition param (params : pyval A) (layer name : string) : res (tensor A) :=
  let* l := getitem params layer in
  let* p := getitem l name in
  as_array p.

(** [def forward(params, x)] *)
Definition forward (params : pyval A) (x : tensor A) : res (tensor A) :=
  (* First layer *)
  let* w1 := param params "layer1" "weights" in
  let* xw1 := dot x w1 in
  let* b1 := param params "layer1" "biases" in
  let* z1 := tadd xw1 b1 in
  let a1 := relu z1 in
  (* Second layer *)
  let* w2 := param params "layer2" "weights" in
  let* aw2 := dot a1 w2 in
  let* b2 := param params "layer2" "biases" in
  let* z2 := tadd aw2 b2 in
  let a2 := relu z2 in
  Ok a2.

(** [def loss(params, x, y_true)] *)
Definition loss (params : pyval A) (x y_true : tensor A) : res (tensor A) :=
  let* y_pred := forward params x in
  let* r := tsub y_pred y_true in
  mean (tpow r 2).
End NetworkOps.

(** [grad_fn = jax.grad(loss)] *)
Definition grad_fn (params : pyval Qc) (x y_true : tensor Qc) : res (pyval Qc) :=
  grad (fun p => loss p (tmap d_const x) (tmap d_const y_true)) params.

(** The default [learning_rate=0.01]. *)
Definition default_learning_rate : Qc := Q2Qc (1 # 100).

(** [def gradient_descent_step(params, x, y_true, learning_rate=0.01)] *)
Definition gradient_descent_step (params : pyval Qc) (x y_true : tensor Qc)
    (learning_rate : Qc) : res (pyval Qc) :=
  let* gradients := grad_fn params x y_true in
  tree_map2 (fun p g => let* lg := tmul (T0 learning_rate) g in tsub p lg)
    params gradients.

(** ** Cell 29: [print_leaf_shapes] *)

Definition nat_repr (n : nat) : string := NilZero.string_of_uint (Nat.to_uint n).

(** The [repr] of a shape tuple: [()], [(10,)], [(1, 10)]. *)
Definition shape_repr (sh : list nat) : string :=
  match sh with
  | [] => "()"
  | [n] => "(" ++ nat_repr n ++ ",)"
  | _ => "(" ++ String.concat ", " (map nat_repr sh) ++ ")"
  end.

Section PrintLeafShapes.
Context {A : Type}.

(** [def print_leaf_shapes(d, path=[])]; the result is the list of the
    printed lines. *)
Fixpoint print_leaf_shapes (d : pyval A) (path : list string) : res (list string) :=
  match d with
  | PDict items =>
      let* lines :=
        mapM_res
          (fun kv =>
             let new_path := path ++ [fst kv] in
             match snd kv with
             | PDict _ => print_leaf_shapes (snd kv) new_path
             | Leaf v =>
                 Ok [(String.concat " -> " new_path ++ ": "
                      ++ shape_repr (shape v))%string]
             | PTuple _ => Err (AttributeError "'tuple' object has no attribute 'shape'")
             end) items in
      Ok (concat lines)
  | _ => Err (AttributeError "object has no attribute 'items'")
  end.
End PrintLeafShapes.

(** ** Shapes as arrays without content

    Every array operation succeeds or fails, and shapes its result,
    according to the shapes of its operands alone.  [skeleton] erases the
    entries of an array; running the notebook's functions on skeletons is
    the shape-level reading of the code. *)

#[export] Instance unit_scalar : Scalar unit := {|
  s_zero := tt;
  s_add := fun _ _ => tt;
  s_sub := fun _ _ => tt;
  s_mul := fun _ _ => tt;
  s_div := fun _ _ => tt;
  s_pow := fun _ _ => tt;
  s_relu := fun _ => tt;
  s_of_nat := fun _ => tt;
|}.

Definition erase {A} (_ : A) : unit := tt.

Definition skeleton {A} (t : tensor A) : tensor unit := tmap erase t.

Definition tree_skeleton {A} (p : pyval A) : pyval unit := tree_map1 skeleton p.

Definition res_map {X Y} (h : X → Y) (m : res X) : res Y :=
  match m with
  | Ok a => Ok (h a)
  | Err e => Err e
  end.

(** The array of a given shape, entries erased. *)
Definition unit_tensor (sh : list nat) : tensor unit :=
  match sh with
  | [] => T0 tt
  | [n] => T1 (repeat tt n)
  | r :: c :: _ => T2 c (repeat (repeat tt c) r)
  end.

(** Dict keys are unique at every level, as in any Python dict. *)
Fixpoint keys_unique {L} (t : pytree L) : bool :=
  match t with
  | Leaf _ => true
  | PTuple items => forallb keys_unique items
  | PDict items =>
      bool_decide (NoDup (map fst items))
      && forallb (fun kv => keys_unique (snd kv)) items
  end.

(** ** Cell 8: the sample data *)

Definition Qz (z : Z) : Qc := Q2Qc (inject_Z z).

Definition true_m : Qc := Q2Qc (5 # 2).
Definition true_b : Qc := Qz (-1).

(** [jnp.linspace(start, stop, num)] for [num > 1]. *)
Definition linspace (start stop : Qc) (num : nat) : list Qc :=
  map (fun i => start + Qc_of_nat i * ((stop - start) / Qc_of_nat (num - 1)))%Qc
      (seq 0 num).

(** [x_data = jnp.linspace(-10, 10, 1000)] *)
Definition x_values : list Qc := linspace (Qz (-10)) (Qz 10) 1000.
Definition x_data : tensor Qc := T1 x_values.

(** [y_data = true_m * x_data + true_b
              + jax.random.normal(jax.random.PRNGKey(123), shape=x_data.shape) * 2.0] *)
Definition y_data (normal : nat → list nat → tensor Qc) : res (tensor Qc) :=
  let* mx := tmul (T0 true_m) x_data in
  let* lin := tadd mx (T0 true_b) in
  let* noise := tmul (normal 123%nat (shape x_data)) (T0 (Qz 2)) in
  tadd lin noise.

(** What the notebook relies on about [jax.random.normal]: the draw has
    the requested shape. *)
Definition normal_spec (normal : nat → list nat → tensor Qc) : Prop :=
  ∀ seed sh, (length sh ≤ 2)%nat →
             wf_tensor (normal seed sh) = true ∧ shape (normal seed sh) = sh.

(** A draw that is all zeros, for running the model. *)
Definition zero_normal (seed : nat) (sh : list nat) : tensor Qc :=
  match sh with
  | [] => T0 0%Qc
  | [n] => T1 (repeat 0%Qc n)
  | r :: c :: _ => T2 c (repeat (repeat 0%Qc c) r)
  end.

(** The lines cell 29 prints. *)
Definition cell29_output : list string :=
  ["layer1 -> biases: (10,)"; "layer1 -> weights: (1, 10)";
   "layer2 -> biases: (1,)"; "layer2 -> weights: (10, 1)"].

(** Cell 1: [jax_array = jnp.array([[1, 2], [3, 4]])] *)
Definition jax_array_value : tensor Qc := T2 2 [[Qz 1; Qz 2]; [Qz 3; Qz 4]].

(** ** The interpreter state: objects, names, output

    Arrays are objects in a store; a name is bound to a reference, or to
    a container of references.  A NumPy array can be updated in place; a
    JAX array has no operation that does so.  [trace] records, for every
    [for] loop, the index of each iteration that is entered. *)

Inductive kind : Type := NumpyArray | JaxArray.

Inductive device : Type := Host | Cuda0 | Cpu0.

Record object : Type := Object {
  obj_kind : kind;
  obj_device : device;
  obj_value : tensor Qc;
}.

Inductive ref : Type :=
| RArr (l : nat)       (* an array object in the store *)
| RFloat (q : Qc).     (* a Python float *)

(** One item of a printed line. *)
Inductive printed : Type :=
| PStr (s : string)
| PNat (n : nat)
| PNum (q : Qc)
| PArr (t : tensor Qc)
| PTree (t : pyval Qc)
| PDev (d : device).

Record state : Type := State {
  heap : gmap nat object;
  env : gmap string (pytree ref);
  out : list (list printed);
  trace : list nat;
}.

Definition initial_state : state := State ∅ ∅ [] [].

(** A computation: runs in a state, ends in a state, with a value or a
    raised exception. *)
Definition M (A : Type) : Type := state → res A * state.

Definition ret {A} (a : A) : M A := fun s => (Ok a, s).

Definition raise {A} (e : exn) : M A := fun s => (Err e, s).

Definition bindM {A B} (m : M A) (k : A → M B) : M B :=
  fun s =>
    match m s with
    | (Ok a, s') => k a s'
    | (Err e, s') => (Err e, s')
    end.

Notation "'do' x '<-' m ';' k" := (bindM m (fun x => k))
  (at level 10, x pattern, m at level 100, k at level 200).
Notation "m ';;' k" := (bindM m (fun _ => k))
  (at level 100, k at level 200, right associativity).

Definition lift_res {A} (r : res A) : M A := fun s => (r, s).

Section MapMState.
Context {A B : Type}.
Variable f : A → M B.

Fixpoint mapM_M (l : list A) : M (list B) :=
  match l with
  | [] => ret []
  | x :: xs => do y <- f x; do ys <- mapM_M xs; ret (y :: ys)
  end.
End MapMState.

Section TreeMapMState.
Context {A B : Type}.
Variable f : A → M B.

Fixpoint tree_mapM (t : pytree A) : M (pytree B) :=
  match t with
  | Leaf x => do y <- f x; ret (Leaf y)
  | PTuple items => do l <- mapM_M tree_mapM items; ret (PTuple l)
  | PDict items =>
      do l <- mapM_M (fun kv => do v <- tree_mapM (snd kv); ret (fst kv, v)) items;
      ret (PDict l)
  end.
End TreeMapMState.

(** *** Store primitives *)

Definition fresh_loc (h : gmap nat object) : nat := fresh (dom h).

(** A new array object; nothing else in the store changes. *)
Definition alloc (k : kind) (d : device) (v : tensor Qc) : M ref :=
  fun s =>
    let l := fresh_loc (heap s) in
    (Ok (RArr l),
     State (<[l := Object k d v]> (heap s)) (env s) (out s) (trace s)).

Definition new_numpy (v : tensor Qc) : M ref := alloc NumpyArray Host v.
Definition new_jax (v : tensor Qc) : M ref := alloc JaxArray Cuda0 v.

Definition get_object (l : nat) : M object :=
  fun s =>
    match heap s !! l with
    | Some o => (Ok o, s)
    | None => (Err (ValueError "dangling reference"), s)
    end.

Definition deref (r : ref) : M (tensor Qc) :=
  match r with
  | RArr l => do o <- get_object l; ret (obj_value o)
  | RFloat q => ret (T0 q)
  end.

Definition get_var (x : string) : M (pytree ref) :=
  fun s =>
    match env s !! x with
    | Some v => (Ok v, s)
    | None => (Err (KeyError x), s)
    end.

(** [x = v]: (re)binds the name; no object changes. *)
Definition set_var (x : string) (v : pytree ref) : M unit :=
  fun s => (Ok tt, State (heap s) (<[x := v]> (env s)) (out s) (trace s)).

Definition print (line : list printed) : M unit :=
  fun s => (Ok tt, State (heap s) (env s) (out s ++ [line]) (trace s)).

Definition log_iteration (i : nat) : M unit :=
  fun s => (Ok tt, State (heap s) (env s) (out s) (trace s ++ [i])).

(** The value a name denotes, references followed. *)
Definition load (x : string) : M (pyval Qc) :=
  do v <- get_var x; tree_mapM deref v.

Definition load_array (x : string) : M (tensor Qc) :=
  do v <- load x; lift_res (as_array v).

(** Results of a JAX computation become new JAX arrays. *)
Definition store_jax (v : pyval Qc) : M (pytree ref) := tree_mapM new_jax v.

(** [x = <JAX computation>] *)
Definition assign_jax (x : string) (v : res (pyval Qc)) : M unit :=
  do val <- lift_res v; do r <- store_jax val; set_var x r.

Definition assign_jax_array (x : string) (v : res (tensor Qc)) : M unit :=
  assign_jax x (let* t := v in Ok (Leaf t)).

(** *** Item assignment *)

Definition set_entry (i j : nat) (q : Qc) (t : tensor Qc) : res (tensor Qc) :=
  match t with
  | T2 c rows =>
      match rows !! i with
      | Some row =>
          if (j <? length row)%nat
          then Ok (T2 c (<[i := <[j := q]> row]> rows))
          else Err (ValueError "index out of bounds")
      | None => Err (ValueError "index out of bounds")
      end
  | _ => Err (ValueError "too many indices for array")
  end.

Definition jax_setitem_message : string :=
  "'<class 'jaxlib.xla_extension.ArrayImpl'>' object does not support item assignment. JAX arrays are immutable. Instead of ``x[idx] = y``, use ``x = x.at[idx].set(y)`` or another .at[] method: https://jax.readthedocs.io/en/latest/_autosummary/jax.numpy.ndarray.at.html".

(** [x[i, j] = q]: in place on a NumPy array, a [TypeError] on a JAX array. *)
Definition setitem (x : string) (i j : nat) (q : Qc) : M unit :=
  do v <- get_var x;
  match v with
  | Leaf (RArr l) =>
      do o <- get_object l;
      match obj_kind o with
      | NumpyArray =>
          do t <- lift_res (set_entry i j q (obj_value o));
          fun s => (Ok tt,
                    State (<[l := Object NumpyArray (obj_device o) t]> (heap s))
                          (env s) (out s) (trace s))
      | JaxArray => raise (TypeError jax_setitem_message)
      end
  | _ => raise (TypeError "object does not support item assignment")
  end.

(** [x -= delta].  A NumPy array is updated in place.  A JAX array has no
    in-place subtraction, so Python evaluates [x = x - delta]: a new
    array, and the name is rebound. *)
Definition isub (x : string) (delta : tensor Qc) : M unit :=
  do v <- get_var x;
  match v with
  | Leaf (RArr l) =>
      do o <- get_object l;
      do t <- lift_res (tsub (obj_value o) delta);
      match obj_kind o with
      | NumpyArray =>
          fun s => (Ok tt,
                    State (<[l := Object NumpyArray (obj_device o) t]> (heap s))
                          (env s) (out s) (trace s))
      | JaxArray => do r <- new_jax t; set_var x (Leaf r)
      end
  | _ => raise (TypeError "unsupported operand type(s) for -=")
  end.

(** [jax.device_put(x, device)]: a new array on the device. *)
Definition device_put (r : ref) (d : device) : M ref :=
  do t <- deref r; alloc JaxArray d t.

Definition device_of (r : ref) : M device :=
  match r with
  | RArr l => do o <- get_object l; ret (obj_device o)
  | RFloat _ => raise (AttributeError "'float' object has no attribute 'device_buffer'")
  end.

(** *** Control flow *)

(** [try: body / except TypeError as err: handler(err)] *)
Definition try_except_TypeError (body : M unit) (handler : string → M unit) : M unit :=
  fun s =>
    match body s with
    | (Err (TypeError msg), s') => handler msg s'
    | r => r
    end.

(** [for i in range(n): body(i)] *)
Fixpoint for_indices (body : nat → M unit) (indices : list nat) : M unit :=
  match indices with
  | [] => ret tt
  | i :: rest => log_iteration i ;; body i ;; for_indices body rest
  end.

Definition for_range (n : nat) (body : nat → M unit) : M unit :=
  for_indices body (seq 0 n).

Definition when (b : bool) (m : M unit) : M unit := if b then m else ret tt.

Definition run {A} (m : M A) (s : state) : res A * state := m s.

(** ** The code cells

    What the notebook takes from outside: the random draws, the entries
    of [jnp.sin] and [jnp.cos], and the optimizer of [jaxopt]. *)

Record externals : Type := Externals {
  (** [jax.random.normal(jax.random.PRNGKey(seed), shape)] *)
  ext_normal : nat → list nat → tensor Qc;
  (** the slices along axis 0 of a rank-3 draw of shape [n :: shape] *)
  ext_normal_slices : nat → nat → list nat → list (tensor Qc);
  (** [np.random.rand(r, c)] *)
  ext_rand : nat → nat → tensor Qc;
  ext_sin : Qc → Qc;
  ext_cos : Qc → Qc;
  (** [jaxopt.GradientDescent(fun=mse_loss, tol=10**-6).run(init_params, x, y)],
      first component *)
  ext_solver_run : pyval Qc → tensor Qc → tensor Qc → pyval Qc;
}.

(** [v[i]] on an array or a tuple. *)
Definition index {A} (v : pyval A) (i : nat) : res (pyval A) :=
  let* items := py_iter v in
  match items !! i with
  | Some x => Ok x
  | None => Err (ValueError "index out of bounds")
  end.

Definition the_ref (v : pytree ref) : M ref :=
  match v with
  | Leaf r => ret r
  | _ => raise (AttributeError "container has no array attributes")
  end.

(** A temporary: the array is created, its value used, no name bound. *)
Definition temp_jax (v : res (tensor Qc)) : M (tensor Qc) :=
  do t <- lift_res v; do _ <- new_jax t; ret t.

Definition temp_numpy (v : res (tensor Qc)) : M (tensor Qc) :=
  do t <- lift_res v; do _ <- new_numpy t; ret t.

Section Cells.
Variable ext : externals.

(** Cell 1 *)
Definition cell_1 : M unit :=
  (* numpy_array = np.array([[1, 2], [3, 4]]) *)
  do r <- new_numpy (T2 2 [[Qz 1; Qz 2]; [Qz 3; Qz 4]]);
  set_var "numpy_array" (Leaf r) ;;
  (* numpy_ones = np.ones(10) *)
  do r <- new_numpy (T1 (repeat 1%Qc 10));
  set_var "numpy_ones" (Leaf r) ;;
  (* jax_array = jnp.array([[1, 2], [3, 4]]) *)
  do r <- new_jax jax_array_value;
  set_var "jax_array" (Leaf r) ;;
  (* jax_ones = jax.numpy.ones(10) *)
  do r <- new_jax (T1 (repeat 1%Qc 10));
  set_var "jax_ones" (Leaf r).

(** Cell 2 *)
Definition cell_2 : M unit :=
  (* numpy_array[1, 1] = 0 *)
  setitem "numpy_array" 1 1 0%Qc ;;
  (* try: jax_array[1, 1] = 0
     except TypeError as err: print(f"Exeption raised: {err}") *)
  try_except_TypeError
    (setitem "jax_array" 1 1 0%Qc)
    (fun err => print [PStr "Exeption raised: "; PStr err]).

(** Cell 3 *)
Definition cell_3 : M unit :=
  (* print("Array device:", jax_array.device_buffer.device()) *)
  do v <- get_var "jax_array"; do r <- the_ref v; do d <- device_of r;
  print [PStr "Array device:"; PDev d] ;;
  (* print("List available devices", jax.devices()) *)
  print [PStr "List available devices"; PDev Cuda0] ;;
  (* jax_array = jax.device_put(jax_array, jax.devices("cpu")[0]) *)
  do r' <- device_put r Cpu0;
  set_var "jax_array" (Leaf r') ;;
  (* print("Array device:", jax_array.device_buffer.device()) *)
  do d' <- device_of r';
  print [PStr "Array device:"; PDev d'].

(** Cell 4; [%timeit] is read as one evaluation. *)
Definition cell_4 : M unit :=
  (* large_numpy_matrix = np.random.rand(5000, 5000) *)
  do r <- new_numpy (ext_rand ext 5000 5000);
  set_var "large_numpy_matrix" (Leaf r) ;;
  (* large_jax_matrix = jnp.array(large_numpy_matrix) *)
  do m <- load_array "large_numpy_matrix";
  assign_jax_array "large_jax_matrix" (Ok m) ;;
  (* %timeit np.dot(large_numpy_matrix, large_numpy_matrix) *)
  do m <- load_array "large_numpy_matrix";
  do _ <- temp_numpy (dot m m);
  (* %timeit jnp.dot(large_jax_matrix, large_jax_matrix).block_until_ready() *)
  do j <- load_array "large_jax_matrix";
  do _ <- temp_jax (dot j j);
  ret tt.

(** Cell 5: [def slow_function(x): return jnp.sin(x) * jnp.cos(x)] *)
Definition slow_function (x : tensor Qc) : res (tensor Qc) :=
  tmul (tmap (ext_sin ext) x) (tmap (ext_cos ext) x).

Definition cell_5 : M unit :=
  (* result = compiled_function(jnp.array([1.0, 2.0, 3.0])) *)
  do x <- temp_jax (Ok (T1 [Qz 1; Qz 2; Qz 3]));
  assign_jax_array "result" (slow_function x) ;;
  (* print(result) *)
  do r <- load "result";
  print [PTree r] ;;
  (* print(f"JIT compiled with decorators: {decorated_function}") *)
  print [PStr "JIT compiled with decorators: "; PStr "<PjitFunction of decorated_function>"].

(** Cell 6: [print(make_jaxpr(slow_function)(jnp.array([1.0, 2.0, 3.0])))];
    tracing evaluates the function once. *)
Definition cell_6 : M unit :=
  do x <- temp_jax (Ok (T1 [Qz 1; Qz 2; Qz 3]));
  do _ <- lift_res (slow_function x);
  print [PStr "{ lambda ; a:f32[3]. let b:f32[3] = sin a; c:f32[3] = cos a; d:f32[3] = mul b c in (d,) }"].

(** Cell 7.  [jitted_function] only prints; under [jit] its body runs
    when the function is traced, at the first call, and with jit
    disabled it runs at every call. *)
Definition jitted_function (jit_enabled : bool) (call : nat) (x : tensor Qc) : M unit :=
  if jit_enabled
  then match call with
       | O => print [PStr "Inside jitted function:"; PStr "Traced<ShapedArray(float32[3])>"]
       | S _ => ret tt
       end
  else print [PStr "Inside jitted function:"; PArr x].

Definition cell_7 : M unit :=
  print [PStr "JIT enabled"] ;;
  (* x = jnp.array([1.0, 2.0, 3.0]) *)
  assign_jax_array "x" (Ok (T1 [Qz 1; Qz 2; Qz 3])) ;;
  (* for i in range(3): print(f"Iteration {i+1}:"); jitted_function(x) *)
  for_range 3 (fun i =>
    print [PStr "Iteration "; PNat (i + 1); PStr ":"] ;;
    do x <- load_array "x";
    jitted_function true i x) ;;
  print [PStr "JIT disabled"] ;;
  (* with jax.disable_jit(): for i in range(3): ... *)
  for_range 3 (fun i =>
    print [PStr "Iteration "; PNat (i + 1); PStr ":"] ;;
    do x <- load_array "x";
    jitted_function false i x).

(** Cell 8 *)
Definition cell_8 : M unit :=
  (* true_m = 2.5; true_b = -1.0 *)
  set_var "true_m" (Leaf (RFloat true_m)) ;;
  set_var "true_b" (Leaf (RFloat true_b)) ;;
  (* x_data = jnp.linspace(-10, 10, 1000) *)
  assign_jax_array "x_data" (Ok x_data) ;;
  (* y_data = true_m * x_data + true_b + jax.random.normal(...) * 2.0 *)
  assign_jax_array "y_data" (y_data (ext_normal ext)).

(** Cell 16: [gradient(jnp.array([0.0, 0.0]), x_data, y_data)] *)
Definition cell_16 : M unit :=
  do p <- temp_jax (Ok (T1 [0%Qc; 0%Qc]));
  do x <- load_array "x_data";
  do y <- load_array "y_data";
  do g <- lift_res (gradient (Leaf p) x y);
  do _ <- store_jax g;
  print [PTree g].

(** Cell 11: the body of [for i in range(100)] *)
Definition linear_regression_step (i : nat) : M unit :=
  (* grad_params = gradient(params, x_data, y_data) *)
  do params <- load "params";
  do x <- load_array "x_data";
  do y <- load_array "y_data";
  assign_jax "grad_params" (gradient params x y) ;;
  (* params -= learning_rate * grad_params *)
  do lr <- load_array "learning_rate";
  do g <- load_array "grad_params";
  do delta <- temp_jax (tmul lr g);
  isub "params" delta ;;
  (* if i > 90: print(...) *)
  when (90 <? i)%nat
    (do params <- load "params";
     do m <- lift_res (index params 0);
     do b <- lift_res (index params 1);
     do l <- temp_jax (mse_loss params x y);
     print [PStr "Iteration "; PNat (i + 1); PStr ": m = "; PTree m;
            PStr ", b = "; PTree b; PStr ", Loss = "; PArr l]).

Definition linear_regression_loop : M unit :=
  for_range 100 linear_regression_step.

Definition cell_11 : M unit :=
  (* learning_rate = 0.01 *)
  set_var "learning_rate" (Leaf (RFloat (Q2Qc (1 # 100)))) ;;
  (* params = jnp.array([0.0, 0.0]) *)
  assign_jax_array "params" (Ok (T1 [0%Qc; 0%Qc])) ;;
  linear_regression_loop ;;
  (* print(f"\nOptimization results,  m: {params[0]}, b: {params[1]}") *)
  do params <- load "params";
  do m <- lift_res (index params 0);
  do b <- lift_res (index params 1);
  print [PStr "Optimization results,  m: "; PTree m; PStr ", b: "; PTree b] ;;
  (* params, state = solver.run(init_params=(1., 1.), x=x_data, y=y_data) *)
  do x <- load_array "x_data";
  do y <- load_array "y_data";
  assign_jax "params"
    (Ok (ext_solver_run ext (PTuple [Leaf (T0 1%Qc); Leaf (T0 1%Qc)]) x y)) ;;
  (* print(f"JAXopt results,        m: {params[0]}, b: {params[1]}") *)
  do params <- load "params";
  do m <- lift_res (index params 0);
  do b <- lift_res (index params 1);
  print [PStr "JAXopt results,        m: "; PTree m; PStr ", b: "; PTree b].
End Cells.

(** [tuple(param - learning_rate * grad_param
           for param, grad_param in zip(params, grads))] *)
Definition tuple_update (learning_rate : tensor Qc) (params grads : pyval Qc)
  : res (pyval Qc) :=
  let* ps := py_iter params in
  let* gs := py_iter grads in
  let* l := mapM_res
              (fun pg =>
                 let* param := as_array (fst pg) in
                 let* grad_param := as_array (snd pg) in
                 let* lg := tmul learning_rate grad_param in
                 let* r := tsub param lg in
                 Ok (Leaf r))
              (combine ps gs) in
  Ok (PTuple l).

(** [jax.pmap(matrix_matrix)] on two arrays held as their slices along
    axis 0: one product per slice pair, one device each. *)
Definition pmap_multiply (x_slices y_slices : pyval Qc) : res (pyval Qc) :=
  let* xs := py_iter x_slices in
  let* ys := py_iter y_slices in
  let* rs := zipM_res
               (fun x y =>
                  let* a := as_array x in
                  let* b := as_array y in
                  let* r := matrix_matrix a b in
                  Ok (Leaf r)) xs ys in
  Ok (PTuple rs).

Section MoreCells.
Variable ext : externals.

(** Cell 17: the body of [for i in range(100)] *)
Definition two_layer_step (i : nat) : M unit :=
  (* grad_params_two_layer_nn =
       gradient_two_layer_nn(params_two_layer_nn, x_data[:, None], y_data) *)
  do params <- load "params_two_layer_nn";
  do x <- load_array "x_data";
  do x_col <- temp_jax (expand_last x);
  do y <- load_array "y_data";
  assign_jax "grad_params_two_layer_nn" (gradient_two_layer_nn params x_col y) ;;
  (* params_two_layer_nn = tuple(param - learning_rate * grad_param for ...) *)
  do lr <- load_array "learning_rate";
  do grads <- load "grad_params_two_layer_nn";
  assign_jax "params_two_layer_nn" (tuple_update lr params grads) ;;
  (* if i < 10: print(f"Iteration {i+1}: Loss = {...:.4f}") *)
  when (i <? 10)%nat
    (do params <- load "params_two_layer_nn";
     do x_col <- temp_jax (expand_last x);
     do l <- temp_jax (two_layer_nn_mse_loss params x_col y);
     print [PStr "Iteration "; PNat (i + 1); PStr ": Loss = "; PArr l]).

Definition two_layer_loop : M unit := for_range 100 two_layer_step.

Definition cell_17 : M unit :=
  (* learning_rate = 0.1 *)
  set_var "learning_rate" (Leaf (RFloat (Q2Qc (1 # 10)))) ;;
  (* params_two_layer_nn = (jnp.zeros((1, 10)), jnp.zeros(10),
       jnp.zeros((10, 10)), jnp.zeros(10), jnp.zeros(10), 0.0) *)
  do w1 <- new_jax (T2 10 (repeat (repeat 0%Qc 10) 1));
  do b1 <- new_jax (T1 (repeat 0%Qc 10));
  do w2 <- new_jax (T2 10 (repeat (repeat 0%Qc 10) 10));
  do b2 <- new_jax (T1 (repeat 0%Qc 10));
  do w_out <- new_jax (T1 (repeat 0%Qc 10));
  set_var "params_two_layer_nn"
    (PTuple [Leaf w1; Leaf b1; Leaf w2; Leaf b2; Leaf w_out; Leaf (RFloat 0%Qc)]) ;;
  two_layer_loop.

(** Cell 19 *)
Definition cell_19 : M unit :=
  (* xs = jnp.array([1.0, 2.0, 3.0, 4.0]) *)
  assign_jax_array "xs" (Ok (T1 [Qz 1; Qz 2; Qz 3; Qz 4])) ;;
  (* squared = jnp.array([square(x) for x in xs]) *)
  do xs <- load_array "xs";
  assign_jax_array "squared" (squared_loop xs).

(** Cell 20 *)
Definition cell_20 : M unit :=
  (* squared = batched_square(xs) *)
  do xs <- load_array "xs";
  assign_jax_array "squared" (batched_square xs).

(** Cell 21 *)
Definition cell_21 : M unit :=
  do a <- load_array "jax_array";
  do mm <- temp_jax (matrix_matrix a a);
  do d <- temp_jax (dot a a);
  print [PStr "Compare outputs: vmap:"; PArr mm; PStr "regular dot product:"; PArr d] ;;
  do t <- temp_jax (matrix_matrix_transpose a a);
  print [PStr "Transpose outputs:"; PArr t].

(** Cell 22: [devices = jax.devices(); print(devices)] *)
Definition cell_22 : M unit := print [PDev Cuda0].

(** Cell 23 *)
Definition cell_23 : M unit :=
  (* x_sharded = jax.random.normal(jax.random.PRNGKey(123), shape=(2, 10, 10)) *)
  assign_jax "x_sharded"
    (Ok (PTuple (map Leaf (ext_normal_slices ext 123 2 [10; 10]%nat)))) ;;
  (* y_sharded = jax.random.normal(jax.random.PRNGKey(456), shape=(2, 10, 10)) *)
  assign_jax "y_sharded"
    (Ok (PTuple (map Leaf (ext_normal_slices ext 456 2 [10; 10]%nat)))) ;;
  (* result = pmap_multiply(x_sharded, y_sharded) *)
  do x <- load "x_sharded";
  do y <- load "y_sharded";
  assign_jax "result" (pmap_multiply x y) ;;
  (* for buffer in result.device_buffers: print shape and device *)
  do result <- load "result";
  do buffers <- lift_res (py_iter result);
  for_indices (fun i =>
    match buffers !! i with
    | Some buffer =>
        do b <- lift_res (as_array buffer);
        print [PStr "Shape:"; PStr (shape_repr (shape b))] ;;
        print [PStr "Device:"; PDev Cuda0]
    | None => ret tt
    end) (seq 0 (length buffers)) ;;
  (* print("Result Shape:", result.shape) *)
  print [PStr "Result Shape:";
         PStr (shape_repr (length buffers :: [10; 10]%nat))].

(** Cell 19 (second): basic pytrees *)
Definition cell_19b : M unit :=
  (* leaf = jnp.array([1.0, 2.0, 3.0]) *)
  assign_jax "leaf" (Ok (Leaf (T1 [Qz 1; Qz 2; Qz 3]))) ;;
  (* tree = (jnp.array([1.0, 2.0, 3.0]), jnp.array([4.0, 5.0])) *)
  assign_jax "tree"
    (Ok (PTuple [Leaf (T1 [Qz 1; Qz 2; Qz 3]); Leaf (T1 [Qz 4; Qz 5])])) ;;
  (* tree = {"a": jnp.array([1.0, 2.0, 3.0]), "b": jnp.array([4.0, 5.0])} *)
  assign_jax "tree"
    (Ok (PDict [("a", Leaf (T1 [Qz 1; Qz 2; Qz 3])); ("b", Leaf (T1 [Qz 4; Qz 5]))])).

(** Cell 24 *)
Definition cell_24 : M unit :=
  (* tree = {"a": jnp.array([1.0, 2.0]), "b": (jnp.array([3.0, 4.0]), jnp.array([5.0]))} *)
  assign_jax "tree"
    (Ok (PDict [("a", Leaf (T1 [Qz 1; Qz 2]));
                ("b", PTuple [Leaf (T1 [Qz 3; Qz 4]); Leaf (T1 [Qz 5])])])) ;;
  (* result = jax.tree_map(lambda x: x * 2, tree) *)
  do tree <- load "tree";
  assign_jax "result" (Ok (tree_map (fun x => tmap (fun q => q * Qz 2)%Qc x) tree)) ;;
  (* print(result) *)
  do result <- load "result";
  print [PTree result].

(** [gradient_descent_step] on references: the gradients and the
    updated parameters are new arrays. *)
Definition gradient_descent_step_M (params : pytree ref) (x y_true : tensor Qc)
    (learning_rate : Qc) : M (pytree ref) :=
  do p <- tree_mapM deref params;
  (* gradients = grad_fn(params, x, y_true) *)
  do g <- lift_res (grad_fn p x y_true);
  do gradients <- store_jax g;
  (* return jax.tree_map(lambda p, g: p - learning_rate * g, params, gradients) *)
  do gv <- tree_mapM deref gradients;
  do u <- lift_res (tree_map2
                      (fun p g => let* lg := tmul (T0 learning_rate) g in tsub p lg)
                      p gv);
  store_jax u.

(** Cell 29 *)
Definition cell_29 : M unit :=
  (* update = gradient_descent_step(init_network(1, 10, 1),
                                    x_data[:, None], y_data[:, None]) *)
  do params <- store_jax (init_network (ext_normal ext) 1 10 1);
  do x <- load_array "x_data";
  do x_col <- temp_jax (expand_last x);
  do y <- load_array "y_data";
  do y_col <- temp_jax (expand_last y);
  do update <- gradient_descent_step_M params x_col y_col default_learning_rate;
  set_var "update" update ;;
  (* print_leaf_shapes(update) *)
  do u <- load "update";
  do lines <- lift_res (print_leaf_shapes u []);
  do _ <- mapM_M (fun l => print [PStr l]) lines;
  ret tt.

(** The code cells in the order of the file.  Cells that only define
    functions or import modules change no array and print nothing. *)
Definition notebook_cells : list (M unit) :=
  [cell_1; cell_2; cell_3; cell_4 ext; cell_5 ext; cell_6 ext; cell_7; cell_8 ext;
   cell_16; cell_11 ext; cell_17; cell_19; cell_20; cell_21; cell_22;
   cell_23; cell_19b; cell_24; cell_29].

Fixpoint run_cells (cells : list (M unit)) : M unit :=
  match cells with
  | [] => ret tt
  | c :: rest => c ;; run_cells rest
  end.
End MoreCells.

(** ** What a name denotes *)

Section TreeMapMRes.
Context {A B : Type}.
Variable f : A → res B.

Fixpoint tree_mapM_res (t : pytree A) : res (pytree B) :=
  match t with
  | Leaf x => let* y := f x in Ok (Leaf y)
  | PTuple items => let* l := mapM_res tree_mapM_res items in Ok (PTuple l)
  | PDict items =>
      let* l := mapM_res
                  (fun kv => let* v := tree_mapM_res (snd kv) in Ok (fst kv, v))
                  items in
      Ok (PDict l)
  end.
End TreeMapMRes.

Definition resolve_ref (h : gmap nat object) (r : ref) : res (tensor Qc) :=
  match r with
  | RArr l =>
      match h !! l with
      | Some o => Ok (obj_value o)
      | None => Err (ValueError "dangling reference")
      end
  | RFloat q => Ok (T0 q)
  end.

(** The value of a container of references in a store. *)
Definition resolve (h : gmap nat object) (v : pytree ref) : res (pyval Qc) :=
  tree_mapM_res (resolve_ref h) v.

(** The name [x] denotes the value [v]. *)
Definition bound (s : state) (x : string) (v : pyval Qc) : Prop :=
  ∃ r, env s !! x = Some r ∧ resolve (heap s) r = Ok v.

(** From [s] to [s']: objects are only added, and names outside [xs]
    keep their bindings. *)
Definition frame (xs : list string) (s s' : state) : Prop :=
  heap s ⊆ heap s' ∧ ∀ y, y ∉ xs → env s' !! y = env s !! y.

(** Every JAX array of the store [h] is in [h'], unchanged. *)
Definition jax_preserved (h h' : gmap nat object) : Prop :=
  ∀ l o, h !! l = Some o → obj_kind o = JaxArray → h' !! l = Some o.

(** A computation that changes no existing JAX array, whatever the
    state it starts in and whether or not it raises. *)
Definition stable {A} (m : M A) : Prop :=
  ∀ s, jax_preserved (heap s) (heap (snd (m s))).

(** The references at the leaves of a container. *)
Fixpoint leaves {L} (t : pytree L) : list L :=
  match t with
  | Leaf x => [x]
  | PTuple items => concat (map leaves items)
  | PDict items => concat (map (fun kv => leaves (snd kv)) items)
  end.

Definition fresh_ref (h : gmap nat object) (r : ref) : Prop :=
  ∃ l, r = RArr l ∧ h !! l = None.

(** The name [x] is bound to a JAX array with value [t]. *)
Definition jax_var (s : state) (x : string) (t : tensor Qc) : Prop :=
  ∃ l d, env s !! x = Some (Leaf (RArr l))
         ∧ heap s !! l = Some (Object JaxArray d t).

(** What the notebook relies on about what it takes from outside:
    draws have the requested shape, and the optimizer returns parameters
    of the structure it was given. *)
Record ext_spec (ext : externals) : Prop := {
  normal_ok : normal_spec (ext_normal ext);
  slices_ok : ∀ seed n sh,
      (length sh ≤ 2)%nat →
      length (ext_normal_slices ext seed n sh) = n
      ∧ Forall (fun t => wf_tensor t = true ∧ shape t = sh)
               (ext_normal_slices ext seed n sh);
  rand_ok : ∀ r c, wf_tensor (ext_rand ext r c) = true
                   ∧ shape (ext_rand ext r c) = [r; c];
  solver_ok : ∀ init x y,
      tree_skeleton (ext_solver_run ext init x y) = tree_skeleton init;
}.

(** Externals for running the model: zero draws, identity for sin and
    cos, an optimizer that returns its initial parameters. *)
Definition zero_externals : externals :=
  Externals zero_normal
            (fun seed n sh => repeat (zero_normal seed sh) n)
            (fun r c => zero_normal 0 [r; c])
            (fun q => q) (fun q => q)
            (fun init _ _ => init).

(** The shapes of the parameter tuple of cell 17. *)
Definition two_layer_skeleton : pyval unit :=
  PTuple [Leaf (unit_tensor [1; 10]%nat); Leaf (unit_tensor [10]%nat);
          Leaf (unit_tensor [10; 10]%nat); Leaf (unit_tensor [10]%nat);
          Leaf (unit_tensor [10]%nat); Leaf (unit_tensor [])].

(** ** Running to completion

    [succeeds m s Q]: from [s], [m] returns a value, in a state where [Q]
    holds of both. *)
Definition succeeds {A} (m : M A) (s : state) (Q : A → state → Prop) : Prop :=
  ∃ a s', m s = (Ok a, s') ∧ Q a s'.

(** ** The statements of the code cells

    The control structure of the notebook's code, statement by
    statement.  A simple statement keeps its text (string literals are
    written with single quotes) and the functions defined in the
    notebook that it names; compound statements keep their bodies. *)

Inductive iterable : Type :=
| Range (n : nat)              (* range(n) *)
| Collection (expr : string).  (* an array, a tuple, a list or a dict view *)

Inductive stmt : Type :=
| Simple (code : string) (uses : list string)
| Comprehension (code : string) (iter : iterable) (uses : list string)
| Def (name : string) (body : list stmt)
| For (target : string) (iter : iterable) (body : list stmt)
| While (cond : string) (body : list stmt)
| If (cond : string) (then_branch else_branch : list stmt)
| Try (body : list stmt) (exn_class : string) (handler : list stmt)
| With (context : string) (body : list stmt).

Definition source_cell_1 : list stmt :=
  [Simple "import jax" [];
   Simple "import numpy as np" [];
   Simple "import jax.numpy as jnp" [];
   Simple "numpy_array = np.array([[1, 2], [3, 4]])" [];
   Simple "numpy_ones = np.ones(10)" [];
   Simple "jax_array = jnp.array([[1, 2], [3, 4]])" [];
   Simple "jax_ones = jax.numpy.ones(10)" []].

Definition source_cell_2 : list stmt :=
  [Simple "numpy_array[1, 1] = 0" [];
   Try [Simple "jax_array[1, 1] = 0" []]
       "TypeError"
       [Simple "print(f'Exeption raised: {err}')" []]].

Definition source_cell_3 : list stmt :=
  [Simple "print('Array device:', jax_array.device_buffer.device())" [];
   Simple "print('List available devices', jax.devices())" [];
   Simple "jax_array = jax.device_put(jax_array, jax.devices('cpu')[0])" [];
   Simple "print('Array device:', jax_array.device_buffer.device())" []].

Definition source_cell_4 : list stmt :=
  [Simple "large_numpy_matrix = np.random.rand(5000, 5000)" [];
   Simple "large_jax_matrix = jnp.array(large_numpy_matrix)" [];
   Simple "%timeit np.dot(large_numpy_matrix, large_numpy_matrix)" [];
   Simple "%timeit jnp.dot(large_jax_matrix, large_jax_matrix).block_until_ready()" []].

Definition source_cell_5 : list stmt :=
  [Def "slow_function" [Simple "return jnp.sin(x) * jnp.cos(x)" []];
   Simple "compiled_function = jax.jit(slow_function)" ["slow_function"];
   Simple "result = compiled_function(jnp.array([1.0, 2.0, 3.0]))" [];
   Simple "print(result)" [];
   Def "decorated_function" [Simple "return jnp.sin(x) * jnp.cos(x)" []];
   Simple "print(f'JIT compiled with decorators: {decorated_function}')"
          ["decorated_function"]].

Definition source_cell_6 : list stmt :=
  [Simple "from jax import make_jaxpr" [];
   Simple "print(make_jaxpr(slow_function)(jnp.array([1.0, 2.0, 3.0])))"
          ["slow_function"]].

Definition source_cell_7 : list stmt :=
  [Def "jitted_function" [Simple "print('Inside jitted function:', x)" []];
   Simple "print('JIT enabled')" [];
   Simple "x = jnp.array([1.0, 2.0, 3.0])" [];
   For "i" (Range 3)
     [Simple "print(f'Iteration {i+1}:')" [];
      Simple "jitted_function(x)" ["jitted_function"]];
   Simple "print('\nJIT disabled')" [];
   With "jax.disable_jit()"
     [For "i" (Range 3)
        [Simple "print(f'Iteration {i+1}:')" [];
         Simple "jitted_function(x)" ["jitted_function"]]]].

Definition source_cell_8 : list stmt :=
  [Simple "import matplotlib.pylab as plt" [];
   Simple "true_m = 2.5" [];
   Simple "true_b = -1.0" [];
   Simple "x_data = jnp.linspace(-10, 10, 1000)" [];
   Simple "y_data = true_m * x_data + true_b + jax.random.normal(jax.random.PRNGKey(123), shape=x_data.shape) * 2.0" []].

Definition source_cell_15 : list stmt :=
  [Def "linear_model" [Simple "return m * x + b" []];
   Def "mse_loss"
     [Simple "m, b = params" [];
      Simple "y_pred = linear_model(x, m, b)" ["linear_model"];
      Simple "return np.mean((y_pred - y)**2)" []]].

Definition source_cell_16 : list stmt :=
  [Simple "gradient = jax.grad(mse_loss, argnums=0)" ["mse_loss"];
   Simple "gradient(jnp.array([0.0, 0.0]), x_data,y_data )" []].

Definition source_cell_11 : list stmt :=
  [Simple "import jaxopt" [];
   Simple "learning_rate = 0.01" [];
   Simple "params = jnp.array([0.0, 0.0])" [];
   For "i" (Range 100)
     [Simple "grad_params = gradient(params, x_data, y_data)" [];
      Simple "params -= learning_rate * grad_params" [];
      If "i > 90"
         [Simple "print(f'Iteration {i+1}: m = {params[0]:.4f}, b = {params[1]:.4f}, Loss = {mse_loss(params, x_data, y_data):.4f}')"
                 ["mse_loss"]]
         []];
   Simple "print(f'\nOptimization results,  m: {params[0]}, b: {params[1]}')" [];
   Simple "solver = jaxopt.GradientDescent(fun=mse_loss, tol=10**-6)" ["mse_loss"];
   Simple "params, state = solver.run(init_params=(1., 1.), x=x_data, y=y_data)" [];
   Simple "print(f'JAXopt results,        m: {params[0]}, b: {params[1]}')" []].

Definition source_cell_17 : list stmt :=
  [Def "two_layer_nn_model"
     [Simple "hidden1 = jax.nn.relu(jnp.dot(x, w1) + b1)" [];
      Simple "hidden2 = jax.nn.relu(jnp.dot(hidden1, w2) + b2)" [];
      Simple "return jnp.dot(hidden2, w_out) + b_out" []];
   Def "two_layer_nn_mse_loss"
     [Simple "w1, b1, w2, b2, w_out, b_out = params" [];
      Simple "y_pred = two_layer_nn_model(x, w1, b1, w2, b2, w_out, b_out)"
             ["two_layer_nn_model"];
      Simple "return jnp.mean((y_pred - y)**2)" []];
   Simple "gradient_two_layer_nn = jax.grad(two_layer_nn_mse_loss, argnums=0)"
          ["two_layer_nn_mse_loss"];
   Simple "learning_rate = 0.1" [];
   Simple "params_two_layer_nn = (jnp.zeros((1, 10)), jnp.zeros(10), jnp.zeros((10, 10)), jnp.zeros(10), jnp.zeros(10), 0.0)" [];
   For "i" (Range 100)
     [Simple "grad_params_two_layer_nn = gradient_two_layer_nn(params_two_layer_nn, x_data[:, None], y_data)" [];
      Comprehension
        "params_two_layer_nn = tuple(param - learning_rate * grad_param for param, grad_param in zip(params_two_layer_nn, grad_params_two_layer_nn))"
        (Collection "zip(params_two_layer_nn, grad_params_two_layer_nn)") [];
      If "i < 10"
         [Simple "print(f'Iteration {i+1}: Loss = {two_layer_nn_mse_loss(params_two_layer_nn, x_data[:, None], y_data):.4f}')"
                 ["two_layer_nn_mse_loss"]]
         []]].

Definition source_cell_18 : list stmt :=
  [Def "square" [Simple "return x * x" []]].

Definition source_cell_19 : list stmt :=
  [Simple "xs = jnp.array([1.0, 2.0, 3.0, 4.0])" [];
   Comprehension "squared = jnp.array([square(x) for x in xs])"
                 (Collection "xs") ["square"]].

Definition source_cell_20 : list stmt :=
  [Simple "batched_square = jax.vmap(square)" ["square"];
   Simple "squared = batched_square(xs)" []].

Definition source_cell_21 : list stmt :=
  [Simple "vector_vector = lambda x, y: jnp.vdot(x, y)" [];
   Simple "matrix_vector = jax.vmap(vector_vector, in_axes=(0, None), out_axes=0)" [];
   Simple "matrix_matrix = jax.vmap(matrix_vector, in_axes=(None, 1), out_axes=1)" [];
   Simple "print('Compare outputs:\nvmap:\n', matrix_matrix(jax_array, jax_array), '\nregular dot product:\n', jnp.dot(jax_array, jax_array))" [];
   Simple "matrix_matrix_transpose = jax.vmap(matrix_vector, in_axes=(None, 1), out_axes=0)" [];
   Simple "print('\n\nTranspose outputs:\n', matrix_matrix_transpose(jax_array, jax_array))" []].

Definition source_cell_22 : list stmt :=
  [Simple "devices = jax.devices()" [];
   Simple "print(devices)" []].

Definition source_cell_23 : list stmt :=
  [Simple "x_sharded = jax.random.normal(jax.random.PRNGKey(123), shape=(2, 10, 10))" [];
   Simple "y_sharded = jax.random.normal(jax.random.PRNGKey(456), shape=(2, 10, 10))" [];
   Simple "pmap_multiply = jax.pmap(matrix_matrix, devices=devices*2)" [];
   Simple "result = pmap_multiply(x_sharded, y_sharded)" [];
   For "buffer" (Collection "result.device_buffers")
     [Simple "print('Shape:', buffer.shape)" [];
      Simple "print('Device:', buffer.device_buffer.device())" []];
   Simple "print('Result Shape:', result.shape)" []].

Definition source_cell_19b : list stmt :=
  [Simple "leaf = jnp.array([1.0, 2.0, 3.0])" [];
   Simple "tree = (jnp.array([1.0, 2.0, 3.0]), jnp.array([4.0, 5.0]))" [];
   Simple "tree = {'a': jnp.array([1.0, 2.0, 3.0]), 'b': jnp.array([4.0, 5.0])}" []].

Definition source_cell_24 : list stmt :=
  [Simple "tree = {'a': jnp.array([1.0, 2.0]), 'b': (jnp.array([3.0, 4.0]), jnp.array([5.0]))}" [];
   Simple "result = jax.tree_map(lambda x: x * 2, tree)" [];
   Simple "print(result)" []].

Definition source_cell_25 : list stmt :=
  [Def "init_network"
     [Simple "params = {'layer1': {'weights': jax.random.normal(jax.random.PRNGKey(123), shape=(input_dim, hidden_dim)), 'biases': jnp.zeros(hidden_dim)}, 'layer2': {'weights': jax.random.normal(jax.random.PRNGKey(246), shape=(hidden_dim, output_dim)), 'biases': jnp.zeros(output_dim)}}" [];
      Simple "return params" []]].

Definition source_cell_26 : list stmt :=
  [Def "forward"
     [Simple "z1 = jnp.dot(x, params['layer1']['weights']) + params['layer1']['biases']" [];
      Simple "a1 = jax.nn.relu(z1)" [];
      Simple "z2 = jnp.dot(a1, params['layer2']['weights']) + params['layer2']['biases']" [];
      Simple "a2 = jax.nn.relu(z2)" [];
      Simple "return a2" []]].

Definition source_cell_28 : list stmt :=
  [Def "loss"
     [Simple "y_pred = forward(params, x)" ["forward"];
      Simple "return jnp.mean((y_pred - y_true) ** 2)" []];
   Simple "grad_fn = jax.grad(loss)" ["loss"];
   Def "gradient_descent_step"
     [Simple "gradients = grad_fn(params, x, y_true)" [];
      Simple "return jax.tree_map(lambda p, g: p - learning_rate * g, params, gradients)" []]].

Definition source_cell_29 : list stmt :=
  [Def "print_leaf_shapes"
     [For "k, v" (Collection "d.items()")
        [Simple "new_path = path + [k]" [];
         If "isinstance(v, dict)"
            [Simple "print_leaf_shapes(v, new_path)" ["print_leaf_shapes"]]
            [Simple "print(f'{\' -> \'.join(new_path)}: {v.shape}')" []]]];
   Simple "update = gradient_descent_step(init_network(1, 10, 1), x_data[:, None], y_data[:, None])"
          ["gradient_descent_step"; "init_network"];
   Simple "print_leaf_shapes(update)" ["print_leaf_shapes"]].

(** The code cells in the order of the file; the two empty cells at the
    end have no statement. *)
Definition notebook_source : list (list stmt) :=
  [source_cell_1; source_cell_2; source_cell_3; source_cell_4; source_cell_5;
   source_cell_6; source_cell_7; source_cell_8; source_cell_15; source_cell_16;
   source_cell_11; source_cell_17; source_cell_18; source_cell_19; source_cell_20;
   source_cell_21; source_cell_22; source_cell_23; source_cell_19b; source_cell_24;
   source_cell_25; source_cell_26; source_cell_28; source_cell_29; []; []].

(** A statement and the statements inside it, outermost first. *)
Fixpoint subterms (s : stmt) : list stmt :=
  s :: match s with
       | Simple _ _ | Comprehension _ _ _ => []
       | Def _ body | For _ _ body | While _ body | With _ body =>
           concat (map subterms body)
       | If _ a b | Try a _ b =>
           concat (map subterms a) ++ concat (map subterms b)
       end.

Definition statements (cells : list (list stmt)) : list stmt :=
  concat (map (fun cell => concat (map subterms cell)) cells).

Definition is_try (s : stmt) : bool :=
  match s with Try _ _ _ => true | _ => false end.

Definition is_if (s : stmt) : bool :=
  match s with If _ _ _ => true | _ => false end.

Definition is_while (s : stmt) : bool :=
  match s with While _ _ => true | _ => false end.

Definition is_with (s : stmt) : bool :=
  match s with With _ _ => true | _ => false end.

(** The conditions of the [if] statements, in order. *)
Definition if_conditions (cells : list (list stmt)) : list string :=
  concat (map (fun s => match s with If c _ _ => [c] | _ => [] end)
              (statements cells)).

(** The exception classes of the [try] statements, in order. *)
Definition handled_exceptions (cells : list (list stmt)) : list string :=
  concat (map (fun s => match s with Try _ e _ => [e] | _ => [] end)
              (statements cells)).

(** What the loops iterate over: [for] statements and comprehensions. *)
Definition loop_iterables (cells : list (list stmt)) : list iterable :=
  concat (map (fun s => match s with
                        | For _ it _ | Comprehension _ it _ => [it]
                        | _ => []
                        end)
              (statements cells)).

(** The notebook's functions a statement names, itself or inside. *)
Definition names_used (s : stmt) : list string :=
  concat (map (fun t => match t with
                        | Simple _ uses | Comprehension _ _ uses => uses
                        | _ => []
                        end)
              (subterms s)).

(** A [def] whose body names the function being defined. *)
Definition is_recursive (s : stmt) : bool :=
  match s with
  | Def name body => bool_decide (name ∈ concat (map names_used body))
  | _ => false
  end.

Definition defined_functions (cells : list (list stmt)) : list string :=
  concat (map (fun s => match s with Def name _ => [name] | _ => [] end)
              (statements cells)).

Definition recursive_functions (cells : list (list stmt)) : list string :=
  concat (map (fun s => match s with
                        | Def name _ => if is_recursive s then [name] else []
                        | _ => []
                        end)
              (statements cells)).

(** Every function a [def] names in its body is the function itself or
    one defined before it: no cycle goes through two functions. *)
Fixpoint calls_defined_before (known : list string) (ss : list stmt) : bool :=
  match ss with
  | [] => true
  | Def name body :: rest =>
      forallb (fun f => bool_decide (f ∈ name :: known))
              (concat (map names_used body))
      && calls_defined_before (name :: known) rest
  | _ :: rest => calls_defined_before known rest
  end.

(** The three things the specification says no cell uses. *)
Definition no_recursion (cells : list (list stmt)) : bool :=
  forallb (fun s => negb (is_recursive s)) (statements cells).

Definition no_branching (cells : list (list stmt)) : bool :=
  forallb (fun s => negb (is_if s)) (statements cells).

Definition no_exception_handling (cells : list (list stmt)) : bool :=
  forallb (fun s => negb (is_try s)) (statements cells).

Definition no_while (cells : list (list stmt)) : bool :=
  forallb (fun s => negb (is_while s)) (statements cells).

(** An array of the given shape. *)
Definition has_shape {A} (t : tensor A) (sh : list nat) : Prop :=
  wf_tensor t = true ∧ shape t = sh.

(** A small state for running one step of the linear-regression loop:
    one data point, zero parameters. *)
Definition one_point_state : state :=
  snd (run (assign_jax_array "x_data" (Ok (T1 [Qz 1])) ;;
            assign_jax_array "y_data" (Ok (T1 [Qz 2])) ;;
            set_var "learning_rate" (Leaf (RFloat (Q2Qc (1 # 100)))) ;;
            assign_jax_array "params" (Ok (T1 [0%Qc; 0%Qc])))
         initial_state).

(** A network with one unit per layer, for running the model. *)
Definition unit_network : pyval Qc :=
  PDict [("layer1", PDict [("weights", Leaf (T0 1%Qc)); ("biases", Leaf (T0 0%Qc))]);
         ("layer2", PDict [("weights", Leaf (T0 1%Qc)); ("biases", Leaf (T0 0%Qc))])].

(** ** Assertions about states and shapes used in the proofs *)

(** The shapes of the parameters of [init_network(1, 10, 1)], in the
    order of the dict literal. *)
Definition init_skeleton : pyval unit :=
  PDict
    [("layer1", PDict [("weights", Leaf (unit_tensor [1; 10]%nat));
                       ("biases", Leaf (unit_tensor [10]%nat))]);
     ("layer2", PDict [("weights", Leaf (unit_tensor [10; 1]%nat));
                       ("biases", Leaf (unit_tensor [1]%nat))])].

(** The state after a computation that only added objects. *)
Definition only_added (s s' : state) : Prop :=
  frame [] s s' ∧ env s' = env s ∧ out s' = out s ∧ trace s' = trace s.

(** What holds before and after every iteration of the loop of cell 11. *)
Definition linear_ready (x y : list Qc) (s : state) : Prop :=
  ∃ m b lr,
    jax_var s "x_data" (T1 x) ∧ jax_var s "y_data" (T1 y)
    ∧ length x = length y ∧ x ≠ []
    ∧ jax_var s "params" (T1 [m; b])
    ∧ bound s "learning_rate" (Leaf (T0 lr)).

(** The number of lines iteration [i] of that loop prints. *)
Definition linear_prints (i : nat) : nat := if (90 <? i)%nat then 1%nat else 0%nat.

(** The shapes of the parameter tuple of cell 17, as a list. *)
Definition two_layer_shapes : list (tensor unit) :=
  [unit_tensor [1; 10]%nat; unit_tensor [10]%nat; unit_tensor [10; 10]%nat;
   unit_tensor [10]%nat; unit_tensor [10]%nat; unit_tensor []].

(** What holds before and after every iteration of the loop of cell 17. *)
Definition two_layer_ready (x y : list Qc) (s : state) : Prop :=
  ∃ p lr,
    jax_var s "x_data" (T1 x) ∧ length x = 1000%nat
    ∧ jax_var s "y_data" (T1 y) ∧ length y = 1000%nat
    ∧ bound s "params_two_layer_nn" p ∧ tree_skeleton p = two_layer_skeleton
    ∧ bound s "learning_rate" (Leaf (T0 lr)).

(** The number of lines iteration [i] of that loop prints. *)
Definition two_layer_prints (i : nat) : nat := if (i <? 10)%nat then 1%nat else 0%nat.

(** The data arrays of cell 8 are bound. *)
Definition data_ready (s : state) : Prop :=
  ∃ y, jax_var s "x_data" (T1 x_values) ∧ jax_var s "y_data" (T1 y)
       ∧ length y = 1000%nat.

(** The shapes of one item of a dict. *)
Definition item_skeleton {A} (kv : string * pyval A) : string * pyval unit :=
  (fst kv, tree_skeleton (snd kv)).

(** The loss on rank-1 data, one squared residual per data point. *)
Definition sq_residual {A} `{Scalar A} (m b xi yi : A) : A :=
  s_pow (s_sub (s_add (s_mul m xi) b) yi) 2.

(** The product as a table: entry [(i, j)] is row [i] times column [j]. *)
Definition entry {A} `{Scalar A} (rowsB : list (list A)) (row : list A) (j : nat) : A :=
  dot_list row (column j rowsB).

(** The shapes of the six parameters of cell 17. *)
Definition skeleton6 {A}
    (p : tensor A * tensor A * tensor A * tensor A * tensor A * tensor A) :=
  let '(w1, b1, w2, b2, w_out, b_out) := p in
  (skeleton w1, skeleton b1, skeleton w2, skeleton b2, skeleton w_out,
   skeleton b_out).

(** The items of a dict, in sorted key order. *)
Definition items_sorted {V} (l : list (string * V)) : Prop :=
  Sorted (fun a b => key_leb a b = true) l.

(** One row of the input through a dense layer, [row @ w + b], for a
    weight matrix with [c] columns. *)
Definition dense_row {A} `{Scalar A} (c : nat) (wrows : list (list A))
    (b row : list A) : list A :=
  zip_with s_add (map (entry wrows row) (seq 0 c)) b.

(** The parameter tuple of cell 17 with every weight zero and the output
    bias [b]; cell 17 starts from [zero_weights 0]. *)
Definition zero_weights (b : Qc) : pyval Qc :=
  PTuple [Leaf (T2 10 (repeat (repeat 0%Qc 10) 1)); Leaf (T1 (repeat 0%Qc 10));
          Leaf (T2 10 (repeat (repeat 0%Qc 10) 10)); Leaf (T1 (repeat 0%Qc 10));
          Leaf (T1 (repeat 0%Qc 10)); Leaf (T0 b)].

(** A tree of dicts with arrays at the leaves: no tuple anywhere. *)
Fixpoint only_dicts {L} (t : pytree L) : bool :=
  match t with
  | Leaf _ => true
  | PTuple _ => false
  | PDict items => forallb (fun kv => only_dicts (snd kv)) items
  end.

(** A float32 network with finite entries: weights 2 and 2 in the first
    layer, 1 and -1 in the second, zero biases. *)
Definition overflow_network : pyval f32 :=
  PDict [("layer1", PDict [("weights", Leaf (T2 2 [[f32_of_Z 2; f32_of_Z 2]]));
                           ("biases", Leaf (T1 [f32_zero; f32_zero]))]);
         ("layer2", PDict [("weights", Leaf (T2 1 [[f32_of_Z 1]; [f32_of_Z (-1)]]));
                           ("biases", Leaf (T1 [f32_zero]))])].

(** A float32 number that is neither an infinity nor NaN. *)
Definition f32_finite (x : f32) : bool :=
  match x with
  | S754_zero _ | S754_finite _ _ _ => true
  | _ => false
  end.

(** The sign bit of a float32 number; NaN carries none. *)
Definition f32_sign (x : f32) : bool :=
  match x with
  | S754_zero s | S754_infinity s | S754_finite s _ _ => s
  | S754_nan => false
  end.

(** * Properties of the notebook *)

(** ** The result monad and list traversals *)

Lemma zipM_res_pure {A B C} (f : A → B → C) (u : list A) (v : list B) :
  length u = length v →
  zipM_res (fun x y => Ok (f x y)) u v = Ok (zip_with f u v).
Proof.
  revert v. induction u as [|x u IH]; intros [|y v] Hlen; simpl in *; try lia; auto.
  rewrite IH by lia. reflexivity.
Qed.

Lemma bc_zip_same {A B C} (f : A → B → C) (u : list A) (v : list B) :
  length u = length v →
  bc_zip (fun x y => Ok (f x y)) u v = Ok (zip_with f u v).
Proof.
  intros Hlen. unfold bc_zip. rewrite Hlen, Nat.eqb_refl.
  apply zipM_res_pure, Hlen.
Qed.

(** ** Forward-mode tracers *)

Lemma Qc_of_nat_2 : Qc_of_nat 2 = 2%Qc.
Proof. apply Qc_is_canon. reflexivity. Qed.

Lemma Qc_of_nat_S n : Qc_of_nat (S n) = (Qc_of_nat n + 1)%Qc.
Proof.
  apply Qc_is_canon. unfold Qc_of_nat.
  change (Qred (inject_Z (Z.of_nat (S n)))
          == Qred (Qred (inject_Z (Z.of_nat n)) + Qred 1))%Q.
  rewrite !Qred_correct. rewrite Nat2Z.inj_succ, <- Z.add_1_r.
  rewrite inject_Z_plus. reflexivity.
Qed.

Lemma Qc_of_nat_pos n : (0 < n)%nat → (0 < Qc_of_nat n)%Qc.
Proof.
  intros Hn. unfold Qclt, Qc_of_nat.
  change (0 < Qred (inject_Z (Z.of_nat n)))%Q.
  rewrite Qred_correct. unfold Qlt. simpl. lia.
Qed.

Lemma Qc_of_nat_nonzero n : n ≠ O → Qc_of_nat n ≠ 0%Qc.
Proof.
  intros Hn Heq. assert (Hpos : (0 < Qc_of_nat n)%Qc) by (apply Qc_of_nat_pos; lia).
  rewrite Heq in Hpos. exact (Qclt_not_eq _ _ Hpos eq_refl).
Qed.

Lemma primal_sum (l : list dual) :
  primal (sum_list l) = sum_list (map primal l).
Proof. induction l as [|d l IH]; simpl; [reflexivity|]. rewrite IH. reflexivity. Qed.

Lemma tangent_sum (l : list dual) :
  tangent (sum_list l) = sum_list (map tangent l).
Proof. induction l as [|d l IH]; simpl; [reflexivity|]. rewrite IH. reflexivity. Qed.

Lemma tangent_div_const (s : dual) (n : Qc) :
  n ≠ 0%Qc → tangent (d_div s (d_const n)) = (tangent s / n)%Qc.
Proof. intros Hn. unfold d_div, d_const. simpl. field. exact Hn. Qed.

(** ** Elementwise operations on rank-1 arrays *)

Section ArrayFacts.
Context {A : Type} `{Scalar A}.

Lemma binop_T1_T1 (f : A → A → A) (u v : list A) :
  length u = length v → binop f (T1 u) (T1 v) = Ok (T1 (zip_with f u v)).
Proof. intros Hlen. unfold binop. rewrite bc_zip_same by exact Hlen. reflexivity. Qed.

Lemma mean_T1 (l : list A) :
  l ≠ [] → mean (T1 l) = Ok (T0 (s_div (sum_list l) (s_of_nat (length l)))).
Proof. intros Hne. unfold mean. simpl. destruct l; [congruence | reflexivity]. Qed.

Lemma mse_loss_T1 (m b : A) (x y : list A) :
  length x = length y → x ≠ [] →
  mse_loss (Leaf (T1 [m; b])) (T1 x) (T1 y)
  = Ok (T0 (s_div (sum_list (zip_with (sq_residual m b) x y))
                  (s_of_nat (length x)))).
Proof.
  intros Hlen Hne. unfold mse_loss, linear_model, unpack2, py_iter, as_array.
  cbn [bind map fst snd]. unfold tmul, tadd, tsub.
  cbn [binop tmap bind].
  rewrite bc_zip_same by (rewrite !length_map; exact Hlen).
  cbn [bind tpow tmap].
  assert (Heq : map (fun r => s_pow r 2)
            (zip_with s_sub (map (fun r => s_add r b) (map (s_mul m) x)) y)
          = zip_with (sq_residual m b) x y).
  { clear Hne. revert y Hlen. induction x as [|xi x IH]; intros [|yi y] Hl;
      simpl in *; try lia; auto.
    f_equal. apply IH. lia. }
  rewrite Heq.
  assert (Hl : length (zip_with (sq_residual m b) x y) = length x).
  { rewrite length_zip_with. lia. }
  rewrite mean_T1, Hl; [reflexivity|].
  intros E. rewrite E in Hl. destruct x; [congruence | simpl in Hl; lia].
Qed.
End ArrayFacts.

(** ** C1: the gradient of the linear-regression loss *)

Lemma tangent_sq_residual_dm (m b xi yi : Qc) :
  tangent (sq_residual (d_seed m) (d_const b) (d_const xi) (d_const yi))
  = (2 * xi * residual m b xi yi)%Qc.
Proof.
  unfold sq_residual, residual. simpl. rewrite Qc_of_nat_2. ring.
Qed.

Lemma tangent_sq_residual_db (m b xi yi : Qc) :
  tangent (sq_residual (d_const m) (d_seed b) (d_const xi) (d_const yi))
  = (2 * residual m b xi yi)%Qc.
Proof.
  unfold sq_residual, residual. simpl. rewrite Qc_of_nat_2. ring.
Qed.

Lemma map_tangent_zip (M B : dual) (g : Qc → Qc → Qc) (x y : list Qc) :
  (∀ xi yi, tangent (sq_residual M B (d_const xi) (d_const yi)) = g xi yi) →
  map tangent (zip_with (sq_residual M B) (map d_const x) (map d_const y))
  = zip_with g x y.
Proof.
  intros Hg. revert y.
  induction x as [|xi x IH]; intros [|yi y]; cbn [map zip_with]; auto.
  rewrite Hg, IH. reflexivity.
Qed.

(** The partial derivative that a pair of tracers [M], [B] computes. *)
Lemma mse_loss_tangent (M B : dual) (g : Qc → Qc → Qc) (x y : list Qc) :
  length x = length y → x ≠ [] →
  (∀ xi yi, tangent (sq_residual M B (d_const xi) (d_const yi)) = g xi yi) →
  scalar_tangent
    (mse_loss (Leaf (T1 [M; B])) (tmap d_const (T1 x)) (tmap d_const (T1 y)))
  = Ok (mean_Qc (zip_with g x y)).
Proof.
  intros Hlen Hne Hg. cbn [tmap].
  rewrite mse_loss_T1.
  - cbn [scalar_tangent]. f_equal.
    change (s_of_nat (length (map d_const x)))
      with (d_const (Qc_of_nat (length (map d_const x)))).
    change (@s_div dual dual_scalar) with d_div.
    rewrite tangent_div_const.
    + rewrite tangent_sum, (map_tangent_zip M B g) by exact Hg.
      unfold mean_Qc. rewrite length_map, length_zip_with.
      replace (length x `min` length y) with (length x) by lia. reflexivity.
    + apply Qc_of_nat_nonzero. rewrite length_map. destruct x; simpl; congruence.
  - rewrite !length_map. exact Hlen.
  - destruct x; simpl; congruence.
Qed.




Lemma closed_form_entries (m b : Qc) (x y : list Qc) :
  length x = length y →
  zip_with Qcmult (map (Qcmult (Qc_of_nat 2)) x)
    (zip_with Qcminus (map (fun q => q + b)%Qc (map (Qcmult m) x)) y)
  = zip_with (fun xi yi => 2 * xi * residual m b xi yi)%Qc x y
  ∧ map (Qcmult (Qc_of_nat 2))
      (zip_with Qcminus (map (fun q => q + b)%Qc (map (Qcmult m) x)) y)
    = zip_with (fun xi yi => 2 * residual m b xi yi)%Qc x y.
Proof.
  rewrite Qc_of_nat_2. revert y.
  induction x as [|xi x IH]; intros [|yi y] Hlen; simpl in *; try discriminate;
    [split; reflexivity|].
  destruct (IH y) as [IH1 IH2]; [congruence|].
  rewrite IH1, IH2. split; reflexivity.
Qed.

(** Over the exact rationals the closed forms written with the array
    operations are the two means of the theorem. *)
Lemma closed_form_gradient_Qc (m b : Qc) (x y : list Qc) :
  length x = length y →
  closed_form_gradient m b (T1 x) (T1 y)
  = Ok (T0 (analytic_dm m b x y), T0 (analytic_db m b x y)).
Proof.
  intros Hlen. unfold closed_form_gradient.
  change (tmul (T0 m) (T1 x)) with (Ok (T1 (map (Qcmult m) x))). cbn [bind].
  change (tadd (T1 (map (Qcmult m) x)) (T0 b))
    with (Ok (T1 (map (fun q => q + b)%Qc (map (Qcmult m) x)))). cbn [bind].
  unfold tsub. rewrite binop_T1_T1 by (rewrite !length_map; exact Hlen).
  cbn [bind].
  change (tmul (T0 (s_of_nat 2)) (T1 x)) with (Ok (T1 (map (Qcmult (Qc_of_nat 2)) x))).
  cbn [bind]. unfold tmul at 1.
  rewrite binop_T1_T1 by (rewrite length_zip_with, !length_map; lia).
  cbn [bind]. unfold mean. cbn [ravel bind].
  change (tmul (T0 (s_of_nat 2)) (T1 ?l)) with (Ok (T1 (map (Qcmult (Qc_of_nat 2)) l))).
  cbn [bind ravel].
  destruct (closed_form_entries m b x y Hlen) as [E1 E2].
  change (@s_mul Qc _) with Qcmult. change (@s_sub Qc _) with Qcminus.
  rewrite E1, E2. reflexivity.
Qed.


(** ** Traversals that cannot fail *)

Section TraversalFacts.
Context {A B C : Type}.

Lemma mapM_res_ok (f : A → res B) (g : A → B) (l : list A) :
  Forall (fun x => f x = Ok (g x)) l → mapM_res f l = Ok (map g l).
Proof.
  induction 1 as [|x l Hx _ IH]; simpl; [reflexivity|].
  rewrite Hx, IH. reflexivity.
Qed.

Lemma zipM_res_repeat_l (f : A → B → res C) (a : A) (n : nat) (l : list B) :
  length l = n → zipM_res f (repeat a n) l = mapM_res (f a) l.
Proof.
  intros <-. induction l as [|y l IH]; simpl; [reflexivity|].
  rewrite IH. reflexivity.
Qed.

Lemma zipM_res_repeat_r (f : A → B → res C) (b : B) (n : nat) (l : list A) :
  length l = n → zipM_res f l (repeat b n) = mapM_res (fun x => f x b) l.
Proof.
  intros <-. induction l as [|x l IH]; simpl; [reflexivity|].
  rewrite IH. reflexivity.
Qed.
End TraversalFacts.

Lemma mapM_res_map {A B C} (f : B → res C) (h : A → B) (l : list A) :
  mapM_res f (map h l) = mapM_res (fun x => f (h x)) l.
Proof. induction l as [|x l IH]; simpl; [reflexivity|]. rewrite IH. reflexivity. Qed.

Lemma map_nth_seq {A B} (F : A → B) (d : A) (l : list A) :
  map (fun i => F (nth i l d)) (seq 0 (length l)) = map F l.
Proof.
  induction l as [|x l IH]; simpl; [reflexivity|].
  f_equal. rewrite <- seq_shift, map_map. exact IH.
Qed.

(** ** Well-formed matrices *)

Lemma wf_tensor_T2 {A} (c : nat) (rows : list (list A)) :
  wf_tensor (T2 c rows) = true ↔ Forall (fun row => length row = c) rows.
Proof.
  simpl. rewrite forallb_forall, Forall_forall.
  split; intros Hall row Hin.
  - apply Nat.eqb_eq, Hall, list_elem_of_In, Hin.
  - apply Nat.eqb_eq, Hall, list_elem_of_In, Hin.
Qed.

(** ** The vmapped products, entry by entry *)

Section VmapFacts.
Context {A : Type} `{Scalar A}.

Lemma length_column (j : nat) (rows : list (list A)) :
  length (column j rows) = length rows.
Proof. unfold column. apply length_map. Qed.

(** Transposing a table given by its entries. *)
Lemma column_table {X Y} (g : X → Y → A) (xs : list X) (j : nat) (ys : list Y) (d : Y) :
  (j < length ys)%nat →
  column j (map (fun x => map (g x) ys) xs) = map (fun x => g x (nth j ys d)) xs.
Proof.
  intros Hj. unfold column. rewrite map_map. apply map_ext. intros x.
  rewrite (nth_indep _ s_zero (g x d)) by (rewrite length_map; exact Hj).
  apply (map_nth (g x)).
Qed.

Lemma columns_table {X Y} (g : X → Y → A) (xs : list X) (ys : list Y) :
  map (fun j => column j (map (fun x => map (g x) ys) xs)) (seq 0 (length ys))
  = map (fun y => map (fun x => g x y) xs) ys.
Proof.
  destruct ys as [|d ys']; [reflexivity|].
  rewrite <- (map_nth_seq (fun y => map (fun x => g x y) xs) d (d :: ys')).
  apply map_ext_in. intros j Hj. apply in_seq in Hj.
  apply column_table. lia.
Qed.

Lemma vdot_T1 (u v : list A) :
  length u = length v → vdot (T1 u) (T1 v) = Ok (T0 (dot_list u v)).
Proof. intros Hlen. unfold vdot. simpl. rewrite Hlen, Nat.eqb_refl. reflexivity. Qed.

Lemma matrix_vector_rows (a : nat) (rows : list (list A)) (v : list A) :
  Forall (fun row => length row = a) rows → length v = a →
  matrix_vector (T2 a rows) (T1 v) = Ok (T1 (map (fun row => dot_list row v) rows)).
Proof.
  intros Hrows Hv. unfold matrix_vector, vmap2.
  cbn [batch_size axis_size shape nth_error bind slices unstack].
  rewrite zipM_res_repeat_r by apply length_map. rewrite mapM_res_map.
  rewrite (mapM_res_ok _ (fun row => T0 (dot_list row v))).
  2:{ eapply Forall_impl; [exact Hrows|]. intros row Hrow. simpl in Hrow.
      apply vdot_T1. lia. }
  cbn [bind].
  assert (Hproto : result_proto (map (fun row => T0 (dot_list row v)) rows)
            (let* pa := proto_slice (Some 0%nat) (T2 a rows) in
             let* pb := proto_slice None (T1 v) in vector_vector pa pb)
          = Ok []).
  { destruct rows as [|row rows']; [|reflexivity].
    cbn [result_proto proto_slice shape drop_axis length take drop app zeros bind map].
    unfold vector_vector. rewrite vdot_T1 by (rewrite repeat_length; lia).
    reflexivity. }
  rewrite Hproto. cbn [bind stack].
  rewrite mapM_res_map. rewrite (mapM_res_ok _ (fun row => dot_list row v)).
  - reflexivity.
  - apply Forall_forall. reflexivity.
Qed.

Lemma dot_T2_T2 (a c : nat) (rowsA rowsB : list (list A)) :
  length rowsB = a →
  dot (T2 a rowsA) (T2 c rowsB)
  = Ok (T2 c (map (fun row => map (entry rowsB row) (seq 0 c)) rowsA)).
Proof. intros Ha. unfold dot. rewrite Ha, Nat.eqb_refl. reflexivity. Qed.

(** The per-column results that both vmapped products stack. *)
Lemma vmapped_columns (a c : nat) (rowsA rowsB : list (list A)) :
  Forall (fun row => length row = a) rowsA → length rowsB = a →
  zipM_res matrix_vector (repeat (T2 a rowsA) c)
    (map (fun j => T1 (column j rowsB)) (seq 0 c))
  = Ok (map (fun j => T1 (map (fun row => entry rowsB row j) rowsA)) (seq 0 c)).
Proof.
  intros HA HB.
  rewrite zipM_res_repeat_l by (rewrite length_map; apply length_seq).
  rewrite mapM_res_map.
  apply mapM_res_ok, Forall_forall. intros j _.
  apply matrix_vector_rows; [exact HA|]. rewrite length_column. exact HB.
Qed.

Lemma vmapped_proto (a c : nat) (rowsA rowsB : list (list A)) :
  Forall (fun row => length row = a) rowsA → length rowsB = a →
  result_proto
    (map (fun j => T1 (map (fun row => entry rowsB row j) rowsA)) (seq 0 c))
    (let* pa := proto_slice None (T2 a rowsA) in
     let* pb := proto_slice (Some 1%nat) (T2 c rowsB) in matrix_vector pa pb)
  = Ok [length rowsA].
Proof.
  intros HA HB. destruct c as [|c'].
  - cbn [seq map result_proto proto_slice bind shape drop_axis take drop app zeros].
    rewrite matrix_vector_rows by (try rewrite repeat_length; auto).
    cbn [bind shape]. rewrite length_map. reflexivity.
  - cbn [seq map result_proto shape]. rewrite length_map. reflexivity.
Qed.

Lemma as_vector_columns (c : nat) (rowsA rowsB : list (list A)) :
  mapM_res (as_vector (length rowsA))
    (map (fun j => T1 (map (fun row => entry rowsB row j) rowsA)) (seq 0 c))
  = Ok (map (fun j => map (fun row => entry rowsB row j) rowsA) (seq 0 c)).
Proof.
  rewrite mapM_res_map. apply mapM_res_ok, Forall_forall. intros j _.
  unfold as_vector. rewrite length_map, Nat.eqb_refl. reflexivity.
Qed.

Lemma matrix_matrix_entries (a c : nat) (rowsA rowsB : list (list A)) :
  Forall (fun row => length row = a) rowsA → length rowsB = a →
  matrix_matrix (T2 a rowsA) (T2 c rowsB)
  = Ok (T2 c (map (fun row => map (entry rowsB row) (seq 0 c)) rowsA)).
Proof.
  intros HA HB. unfold matrix_matrix, vmap2.
  cbn [batch_size axis_size shape nth_error bind slices unstack].
  rewrite vmapped_columns by assumption. cbn [bind].
  rewrite vmapped_proto by assumption. cbn [bind stack].
  rewrite as_vector_columns. cbn [bind].
  rewrite length_map, length_seq. f_equal. f_equal.
  rewrite <- (map_nth_seq (fun row => map (entry rowsB row) (seq 0 c)) [] rowsA).
  apply map_ext_in. intros i Hi. apply in_seq in Hi.
  unfold column. rewrite map_map. apply map_ext. intros j.
  rewrite (nth_indep _ s_zero (entry rowsB [] j)) by (rewrite length_map; lia).
  apply (map_nth (fun row => entry rowsB row j)).
Qed.

Lemma matrix_matrix_transpose_entries (a c : nat) (rowsA rowsB : list (list A)) :
  Forall (fun row => length row = a) rowsA → length rowsB = a →
  matrix_matrix_transpose (T2 a rowsA) (T2 c rowsB)
  = Ok (T2 (length rowsA)
          (map (fun j => map (fun row => entry rowsB row j) rowsA) (seq 0 c))).
Proof.
  intros HA HB. unfold matrix_matrix_transpose, vmap2.
  cbn [batch_size axis_size shape nth_error bind slices unstack].
  rewrite vmapped_columns by assumption. cbn [bind].
  rewrite vmapped_proto by assumption. cbn [bind stack].
  rewrite as_vector_columns. reflexivity.
Qed.
End VmapFacts.

Lemma shape_T2_inv {A} (t : tensor A) (r c : nat) :
  shape t = [r; c] → ∃ rows, t = T2 c rows ∧ length rows = r.
Proof.
  destruct t as [x|v|c' rows]; simpl; intros Hs; try discriminate.
  injection Hs as Hr Hc. subst. eauto.
Qed.

Section SquareFacts.
Context {A : Type} `{Scalar A}.

Lemma square_T0 (x : A) : square (T0 x) = Ok (T0 (s_mul x x)).
Proof. reflexivity. Qed.

Lemma squares_of_items (xs : list A) :
  mapM_res square (map T0 xs) = Ok (map (fun x => T0 (s_mul x x)) xs).
Proof.
  rewrite mapM_res_map. apply mapM_res_ok, Forall_forall. intros x _.
  apply square_T0.
Qed.

Lemma scalars_of_squares (xs : list A) :
  mapM_res as_scalar (map (fun x => T0 (s_mul x x)) xs)
  = Ok (map (fun x => s_mul x x) xs).
Proof.
  rewrite mapM_res_map. apply mapM_res_ok, Forall_forall. reflexivity.
Qed.

Lemma batched_square_T1 (xs : list A) :
  batched_square (T1 xs) = Ok (T1 (map (fun x => s_mul x x) xs)).
Proof.
  unfold batched_square, vmap1. cbn [unstack bind].
  rewrite squares_of_items. cbn [bind].
  assert (Hproto : result_proto (map (fun x => T0 (s_mul x x)) xs)
            (let* pa := proto_slice (Some 0%nat) (T1 xs) in square pa) = Ok []).
  { destruct xs; reflexivity. }
  rewrite Hproto. cbn [bind stack].
  rewrite scalars_of_squares. reflexivity.
Qed.

Lemma squared_loop_T1 (xs : list A) :
  squared_loop (T1 xs) = Ok (T1 (map (fun x => s_mul x x) xs)).
Proof.
  unfold squared_loop. cbn [iter_array bind].
  rewrite squares_of_items. cbn [bind].
  destruct xs as [|x xs']; [reflexivity|].
  change (jnp_array_of (map (fun x => T0 (s_mul x x)) (x :: xs')))
    with (let* l := mapM_res as_scalar (map (fun x => T0 (s_mul x x)) (x :: xs')) in
          Ok (T1 l)).
  rewrite scalars_of_squares. reflexivity.
Qed.
End SquareFacts.

(** ** C2: vectorization equivalence *)

(** C2.  For a matrix [A] of shape [b, a] and a matrix [B] of shape
    [a, c], [matrix_matrix A B], built from [vector_vector] by two
    applications of vmap, returns what [jnp.dot A B] returns, a matrix of
    shape [b, c]; and for every vector [xs], [batched_square xs] returns
    what the element-by-element loop returns, the vector of squares. *)
Theorem vectorization_equivalence (A B : tensor Qc) (b a c : nat) (xs : list Qc) :
  wf_tensor A = true → wf_tensor B = true →
  shape A = [b; a] → shape B = [a; c] →
  (matrix_matrix A B = dot A B
   ∧ ∃ P, dot A B = Ok P ∧ shape P = [b; c])
  ∧ (batched_square (T1 xs) = squared_loop (T1 xs)
     ∧ squared_loop (T1 xs) = Ok (T1 (map (fun x => x * x)%Qc xs))).
Proof.
  intros HwA HwB HsA HsB.
  destruct (shape_T2_inv A b a HsA) as (rowsA & -> & HlA).
  destruct (shape_T2_inv B a c HsB) as (rowsB & -> & HlB).
  apply wf_tensor_T2 in HwA. split.
  - rewrite matrix_matrix_entries, dot_T2_T2 by assumption. split; [reflexivity|].
    eexists. split; [reflexivity|]. simpl. rewrite length_map, HlA. reflexivity.
  - rewrite batched_square_T1, squared_loop_T1. split; reflexivity.
Qed.

Lemma vectorization_equivalence_witness :
  (matrix_matrix jax_array_value jax_array_value = dot jax_array_value jax_array_value
   ∧ ∃ P, dot jax_array_value jax_array_value = Ok P ∧ shape P = [2; 2]%nat)
  ∧ (batched_square (T1 [Qz 1; Qz 2; Qz 3; Qz 4])
       = squared_loop (T1 [Qz 1; Qz 2; Qz 3; Qz 4])
     ∧ squared_loop (T1 [Qz 1; Qz 2; Qz 3; Qz 4])
       = Ok (T1 (map (fun x => x * x)%Qc [Qz 1; Qz 2; Qz 3; Qz 4]))).
Proof.
  apply (vectorization_equivalence jax_array_value jax_array_value 2 2 2);
    reflexivity.
Defined.

(** ** C8: the product with [out_axes=0] *)

(** C8.  For a matrix [A] of shape [b, a] and a matrix [B] of shape
    [a, c], [matrix_matrix_transpose A B] is the transpose of
    [matrix_matrix A B]; the latter has shape [b, c], the former [c, b]. *)
Theorem matrix_matrix_transpose_is_transpose (A B : tensor Qc) (b a c : nat) :
  wf_tensor A = true → wf_tensor B = true →
  shape A = [b; a] → shape B = [a; c] →
  ∃ P, matrix_matrix A B = Ok P ∧ shape P = [b; c]
       ∧ matrix_matrix_transpose A B = Ok (transpose P)
       ∧ shape (transpose P) = [c; b].
Proof.
  intros HwA HwB HsA HsB.
  destruct (shape_T2_inv A b a HsA) as (rowsA & -> & HlA).
  destruct (shape_T2_inv B a c HsB) as (rowsB & -> & HlB).
  apply wf_tensor_T2 in HwA.
  rewrite matrix_matrix_entries, matrix_matrix_transpose_entries by assumption.
  eexists. split; [reflexivity|]. cbn [shape transpose].
  rewrite !length_map, length_seq, HlA. split; [reflexivity|].
  split; [|reflexivity]. do 2 f_equal.
  pose proof (columns_table (entry rowsB) rowsA (seq 0 c)) as Hcols.
  rewrite length_seq in Hcols. symmetry. exact Hcols.
Qed.

Lemma matrix_matrix_transpose_is_transpose_witness :
  ∃ P, matrix_matrix jax_array_value jax_array_value = Ok P ∧ shape P = [2; 2]%nat
       ∧ matrix_matrix_transpose jax_array_value jax_array_value = Ok (transpose P)
       ∧ shape (transpose P) = [2; 2]%nat.
Proof.
  apply (matrix_matrix_transpose_is_transpose jax_array_value jax_array_value 2 2 2);
    reflexivity.
Defined.

(** ** Shape determinism of the array operations *)

Lemma res_map_bind {X X' Y Y'} (eX : X → X') (eY : Y → Y')
    (m : res X) (m' : res X') (k : X → res Y) (k' : X' → res Y') :
  res_map eX m = m' →
  (∀ a, res_map eY (k a) = k' (eX a)) →
  res_map eY (bind m k) = bind m' k'.
Proof. intros <- Hk. destruct m as [a|e]; simpl; auto. Qed.

Section TraversalHom.
Context {A A' B B' C C' : Type}.
Variables (eA : A → A') (eB : B → B') (eC : C → C').

Lemma mapM_res_hom (f : A → res B) (f' : A' → res B') (l : list A) :
  (∀ x, res_map eB (f x) = f' (eA x)) →
  res_map (map eB) (mapM_res f l) = mapM_res f' (map eA l).
Proof.
  intros Hf. induction l as [|x l IH]; simpl; [reflexivity|].
  apply (res_map_bind eB); [apply Hf | intros y].
  apply (res_map_bind (map eB)); [apply IH | reflexivity].
Qed.

Lemma zipM_res_hom (f : A → B → res C) (f' : A' → B' → res C')
    (u : list A) (v : list B) :
  (∀ x y, res_map eC (f x y) = f' (eA x) (eB y)) →
  res_map (map eC) (zipM_res f u v) = zipM_res f' (map eA u) (map eB v).
Proof.
  intros Hf. revert v. induction u as [|x u IH]; intros [|y v]; simpl; auto.
  apply (res_map_bind eC); [apply Hf | intros z].
  apply (res_map_bind (map eC)); [apply IH | reflexivity].
Qed.

End TraversalHom.

Lemma bc_zip_hom {A A' B B' C C'} (eA : A → A') (eB : B → B') (eC : C → C')
    (g : A → B → res C) (g' : A' → B' → res C') (u : list A) (v : list B) :
  (∀ x y, res_map eC (g x y) = g' (eA x) (eB y)) →
  res_map (map eC) (bc_zip g u v) = bc_zip g' (map eA u) (map eB v).
Proof.
  intros Hg. unfold bc_zip. rewrite !length_map.
  destruct (length u =? length v)%nat.
  - apply zipM_res_hom, Hg.
  - destruct u as [|x [|x' u']]; destruct v as [|y [|y' v']];
      cbn [map]; try reflexivity;
      try (apply (mapM_res_hom eA eC); intros; apply Hg);
      try (apply (mapM_res_hom eB eC); intros; apply Hg).
Qed.

Section ShapeDeterminism.
Context {A : Type} `{Scalar A}.

Lemma skeleton_tmap {B} (f : A → B) (t : tensor A) :
  skeleton (tmap f t) = skeleton t.
Proof.
  destruct t as [x|v|c rows]; unfold skeleton; simpl; f_equal.
  - rewrite map_map. reflexivity.
  - rewrite map_map. apply map_ext. intros row. rewrite map_map. reflexivity.
Qed.

Lemma skeleton_tmap_unit (f : unit → unit) (t : tensor A) :
  skeleton t = tmap f (skeleton t).
Proof.
  assert (Hf : ∀ x : A, erase x = f (erase x)).
  { intros x. unfold erase. destruct (f tt). reflexivity. }
  destruct t as [x|v|c rows]; unfold skeleton; simpl; f_equal.
  - apply Hf.
  - rewrite map_map. apply map_ext. exact Hf.
  - rewrite map_map. apply map_ext. intros row. rewrite map_map.
    apply map_ext. exact Hf.
Qed.

Lemma binop2d_hom (f : A → A → A) (c1 c2 : nat) (r1 r2 : list (list A)) :
  res_map skeleton (binop2d f c1 r1 c2 r2)
  = binop2d (fun _ _ => tt) c1 (map (map erase) r1) c2 (map (map erase) r2).
Proof.
  unfold binop2d. destruct (bc_dim c1 c2) as [c|e]; [|reflexivity].
  cbn [bind].
  apply (res_map_bind (map (map erase))); [|reflexivity].
  apply bc_zip_hom. intros x y. apply bc_zip_hom. reflexivity.
Qed.

Lemma skeleton_tmap_hom {B} (f : A → B) (f' : unit → unit) (t : tensor A) :
  skeleton (tmap f t) = tmap f' (skeleton t).
Proof. rewrite skeleton_tmap. apply skeleton_tmap_unit. Qed.

Lemma binop_hom (f : A → A → A) (a b : tensor A) :
  res_map skeleton (binop f a b) = binop (fun _ _ => tt) (skeleton a) (skeleton b).
Proof.
  destruct a as [x|u|c1 r1].
  - change (Ok (skeleton (tmap (f x) b))
            = Ok (tmap (fun _ : unit => tt) (skeleton b))).
    f_equal. apply skeleton_tmap_hom.
  - destruct b as [y|v|c2 r2].
    + change (Ok (skeleton (tmap (fun x => f x y) (T1 u)))
              = Ok (tmap (fun _ : unit => tt) (skeleton (T1 u)))).
      f_equal. apply skeleton_tmap_hom.
    + cbn [binop skeleton tmap].
      apply (res_map_bind (map erase)); [|reflexivity].
      apply bc_zip_hom. reflexivity.
    + cbn [binop skeleton tmap]. rewrite length_map.
      apply (binop2d_hom f (length u) c2 [u] r2).
  - destruct b as [y|v|c2 r2].
    + change (Ok (skeleton (tmap (fun x => f x y) (T2 c1 r1)))
              = Ok (tmap (fun _ : unit => tt) (skeleton (T2 c1 r1)))).
      f_equal. apply skeleton_tmap_hom.
    + cbn [binop skeleton tmap]. rewrite length_map.
      apply (binop2d_hom f c1 (length v) r1 [v]).
    + apply binop2d_hom.
Qed.

Lemma tadd_hom (a b : tensor A) :
  res_map skeleton (tadd a b) = tadd (skeleton a) (skeleton b).
Proof. apply binop_hom. Qed.

Lemma tsub_hom (a b : tensor A) :
  res_map skeleton (tsub a b) = tsub (skeleton a) (skeleton b).
Proof. apply binop_hom. Qed.

Lemma tmul_hom (a b : tensor A) :
  res_map skeleton (tmul a b) = tmul (skeleton a) (skeleton b).
Proof. apply binop_hom. Qed.

Lemma relu_hom (t : tensor A) : skeleton (relu t) = relu (skeleton t).
Proof. unfold relu. rewrite skeleton_tmap. apply skeleton_tmap_unit. Qed.

Lemma tpow_hom (t : tensor A) (n : nat) : skeleton (tpow t n) = tpow (skeleton t) n.
Proof. unfold tpow. rewrite skeleton_tmap. apply skeleton_tmap_unit. Qed.

Lemma ravel_skeleton (t : tensor A) : ravel (skeleton t) = map erase (ravel t).
Proof.
  destruct t as [x|v|c rows]; simpl; try reflexivity.
  induction rows as [|row rows IH]; simpl; [reflexivity|].
  rewrite map_app, IH. reflexivity.
Qed.

Lemma mean_hom (t : tensor A) : res_map skeleton (mean t) = mean (skeleton t).
Proof.
  unfold mean. rewrite ravel_skeleton.
  destruct (ravel t) as [|x l]; reflexivity.
Qed.

Lemma unit_list_eq (u v : list unit) : length u = length v → u = v.
Proof.
  revert v. induction u as [|[] u IH]; intros [|[] v] Hl; simpl in *;
    try lia; auto.
  f_equal. apply IH. lia.
Qed.

Lemma dot_hom (a b : tensor A) :
  res_map skeleton (dot a b) = dot (skeleton a) (skeleton b).
Proof.
  destruct a as [x|u|c1 r1]; destruct b as [y|v|c2 r2];
    try apply tmul_hom; cbn [dot skeleton tmap]; rewrite ?length_map.
  - destruct (length u =? length v)%nat; [|reflexivity].
    cbn [res_map skeleton tmap]. do 2 f_equal.
    destruct (dot_list (map erase u) (map erase v)). reflexivity.
  - destruct (length u =? length r2)%nat; [|reflexivity].
    cbn [res_map skeleton tmap]. do 2 f_equal.
    apply unit_list_eq. rewrite !length_map. reflexivity.
  - destruct (c1 =? length v)%nat; [|reflexivity].
    cbn [res_map skeleton tmap]. do 2 f_equal.
    apply unit_list_eq. rewrite !length_map. reflexivity.
  - destruct (c1 =? length r2)%nat; [|reflexivity].
    cbn [res_map skeleton tmap]. do 2 f_equal.
    rewrite !map_map. apply map_ext. intros row.
    apply unit_list_eq. rewrite !length_map. reflexivity.
Qed.
End ShapeDeterminism.

(** ** Shape determinism of the notebook's functions *)

Lemma lookup_item_map {V W} (g : V → W) (k : string) (items : list (string * V)) :
  lookup_item k (map (fun kv => (fst kv, g (snd kv))) items)
  = option_map g (lookup_item k items).
Proof.
  induction items as [|[k' v] items IH]; simpl; [reflexivity|].
  destruct (String.eqb k k'); [reflexivity | exact IH].
Qed.

Create HintDb hom.

Ltac hom_bind :=
  rewrite <- ?relu_hom, <- ?tpow_hom;
  eapply res_map_bind; [solve [eauto with hom] | intros; cbn beta zeta].

Section FunctionsHom.
Context {A : Type} `{Scalar A}.

Lemma as_array_hom (v : pyval A) :
  res_map skeleton (as_array v) = as_array (tree_skeleton v).
Proof. destruct v; reflexivity. Qed.

Lemma getitem_hom (v : pyval A) (k : string) :
  res_map tree_skeleton (getitem v k) = getitem (tree_skeleton v) k.
Proof.
  destruct v as [t|items|items]; try reflexivity.
  cbn [getitem tree_skeleton tree_map1].
  rewrite (lookup_item_map (tree_map1 skeleton)).
  destruct (lookup_item k items); reflexivity.
Qed.

Lemma py_iter_hom (v : pyval A) :
  res_map (map tree_skeleton) (py_iter v) = py_iter (tree_skeleton v).
Proof.
  destruct v as [[x|l|c rows]|items|items]; try reflexivity;
    cbn [py_iter tree_skeleton tree_map1 skeleton tmap res_map];
    rewrite !map_map; reflexivity.
Qed.

Hint Resolve as_array_hom getitem_hom py_iter_hom tadd_hom tsub_hom tmul_hom
  dot_hom mean_hom : hom.

Lemma param_hom (params : pyval A) (layer name : string) :
  res_map skeleton (param params layer name)
  = param (tree_skeleton params) layer name.
Proof. unfold param. do 2 hom_bind. apply as_array_hom. Qed.

Hint Resolve param_hom : hom.

Lemma forward_hom (params : pyval A) (x : tensor A) :
  res_map skeleton (forward params x) = forward (tree_skeleton params) (skeleton x).
Proof.
  unfold forward. do 8 hom_bind.
  cbn [res_map]. f_equal. apply relu_hom.
Qed.

Hint Resolve forward_hom : hom.

Lemma loss_hom (params : pyval A) (x y : tensor A) :
  res_map skeleton (loss params x y)
  = loss (tree_skeleton params) (skeleton x) (skeleton y).
Proof.
  unfold loss. do 2 hom_bind. rewrite <- tpow_hom. apply mean_hom.
Qed.

Lemma unpack2_hom (v : pyval A) :
  res_map (fun p => (tree_skeleton (fst p), tree_skeleton (snd p))) (unpack2 v)
  = unpack2 (tree_skeleton v).
Proof.
  unfold unpack2. hom_bind.
  destruct a as [|a1 [|a2 [|a3 l]]]; reflexivity.
Qed.

Lemma linear_model_hom (x m b : tensor A) :
  res_map skeleton (linear_model x m b)
  = linear_model (skeleton x) (skeleton m) (skeleton b).
Proof. unfold linear_model. hom_bind. apply tadd_hom. Qed.

Hint Resolve unpack2_hom linear_model_hom : hom.

Lemma mse_loss_hom (params : pyval A) (x y : tensor A) :
  res_map skeleton (mse_loss params x y)
  = mse_loss (tree_skeleton params) (skeleton x) (skeleton y).
Proof.
  unfold mse_loss. hom_bind. destruct a as [p1 p2]. cbn [fst snd].
  do 4 hom_bind. rewrite <- tpow_hom. apply mean_hom.
Qed.

Lemma two_layer_nn_model_hom (x w1 b1 w2 b2 w_out b_out : tensor A) :
  res_map skeleton (two_layer_nn_model x w1 b1 w2 b2 w_out b_out)
  = two_layer_nn_model (skeleton x) (skeleton w1) (skeleton b1) (skeleton w2)
      (skeleton b2) (skeleton w_out) (skeleton b_out).
Proof.
  unfold two_layer_nn_model. do 5 hom_bind.
  rewrite <- ?relu_hom. apply tadd_hom.
Qed.

Lemma unpack6_hom (v : pyval A) :
  res_map skeleton6 (unpack6 v) = unpack6 (tree_skeleton v).
Proof.
  unfold unpack6. hom_bind.
  destruct a as [|a1 [|a2 [|a3 [|a4 [|a5 [|a6 [|a7 l]]]]]]]; try reflexivity.
  cbn [map]. do 6 hom_bind. reflexivity.
Qed.

Hint Resolve two_layer_nn_model_hom unpack6_hom : hom.

Lemma two_layer_nn_mse_loss_hom (params : pyval A) (x y : tensor A) :
  res_map skeleton (two_layer_nn_mse_loss params x y)
  = two_layer_nn_mse_loss (tree_skeleton params) (skeleton x) (skeleton y).
Proof.
  unfold two_layer_nn_mse_loss. hom_bind.
  destruct a as [[[[[w1 b1] w2] b2] w_out] b_out]. cbn [skeleton6].
  do 2 hom_bind. rewrite <- tpow_hom. apply mean_hom.
Qed.
End FunctionsHom.

(** ** Pytrees: induction, sorted dict items, canonical form *)

Section PytreeInd.
Context {L : Type} (P : pytree L → Prop).
Hypothesis Hleaf : ∀ x, P (Leaf x).
Hypothesis Htuple : ∀ items, Forall P items → P (PTuple items).
Hypothesis Hdict : ∀ items, Forall (fun kv => P (snd kv)) items → P (PDict items).

Fixpoint pytree_nested_ind (t : pytree L) : P t :=
  match t with
  | Leaf x => Hleaf x
  | PTuple items =>
      Htuple items
        ((fix go (l : list (pytree L)) : Forall P l :=
            match l with
            | [] => @List.Forall_nil _ P
            | t' :: l' => @List.Forall_cons _ P t' l' (pytree_nested_ind t') (go l')
            end) items)
  | PDict items =>
      Hdict items
        ((fix go (l : list (string * pytree L)) : Forall (fun kv => P (snd kv)) l :=
            match l with
            | [] => @List.Forall_nil _ (fun kv => P (snd kv))
            | kv :: l' =>
                @List.Forall_cons _ (fun kv => P (snd kv)) kv l'
                  (pytree_nested_ind (snd kv)) (go l')
            end) items)
  end.
End PytreeInd.

Section SortFacts.
Context {V : Type}.
Implicit Types (x : string * V) (l : list (string * V)).

Lemma length_insert_item x l : length (insert_item x l) = S (length l).
Proof.
  induction l as [|y l IH]; simpl; [reflexivity|].
  destruct (key_leb x y); simpl; [reflexivity | rewrite IH; reflexivity].
Qed.

Lemma length_sort_items l : length (sort_items l) = length l.
Proof.
  induction l as [|x l IH]; simpl; [reflexivity|].
  rewrite length_insert_item, IH. reflexivity.
Qed.

Lemma insert_item_sorted x l : items_sorted l → items_sorted (insert_item x l).
Proof.
  unfold items_sorted. induction 1 as [|y l Hs IH Hhd]; simpl.
  - repeat constructor.
  - destruct (key_leb x y) eqn:Hxy.
    + constructor; [constructor; assumption | constructor; exact Hxy].
    + constructor; [exact IH|].
      assert (Hyx : key_leb y x = true).
      { unfold key_leb in *. destruct (String.leb_total (fst x) (fst y)); congruence. }
      destruct l as [|z l]; simpl.
      * constructor. exact Hyx.
      * destruct (key_leb x z); constructor; [exact Hyx|].
        inversion Hhd; assumption.
Qed.

Lemma sort_items_sorted l : items_sorted (sort_items l).
Proof.
  induction l as [|x l IH]; simpl; [constructor|].
  apply insert_item_sorted, IH.
Qed.

Lemma sort_items_of_sorted l : items_sorted l → sort_items l = l.
Proof.
  unfold items_sorted. induction 1 as [|x l Hs IH Hhd]; simpl; [reflexivity|].
  rewrite IH. destruct Hhd as [|y l Hxy]; simpl; [reflexivity|].
  rewrite Hxy. reflexivity.
Qed.

Lemma sort_items_idem l : sort_items (sort_items l) = sort_items l.
Proof. apply sort_items_of_sorted, sort_items_sorted. Qed.

Lemma in_keys_insert_item k x l :
  In k (map fst (insert_item x l)) ↔ k = fst x ∨ In k (map fst l).
Proof.
  induction l as [|y l IH]; simpl; [intuition|].
  destruct (key_leb x y); simpl; [intuition|].
  rewrite IH. intuition.
Qed.

Lemma in_keys_sort_items k l :
  In k (map fst (sort_items l)) ↔ In k (map fst l).
Proof.
  induction l as [|x l IH]; simpl; [reflexivity|].
  rewrite in_keys_insert_item, IH. intuition.
Qed.

Lemma lookup_item_None k l : ¬ In k (map fst l) → lookup_item k l = None.
Proof.
  induction l as [|[k' v] l IH]; simpl; [reflexivity|]. intros Hn.
  destruct (String.eqb k k') eqn:E.
  - apply String.eqb_eq in E. subst. tauto.
  - apply IH. tauto.
Qed.

Lemma lookup_item_insert k x l :
  ¬ In (fst x) (map fst l) →
  lookup_item k (insert_item x l)
  = if String.eqb k (fst x) then Some (snd x) else lookup_item k l.
Proof.
  destruct x as [kx vx]. simpl.
  induction l as [|[ky vy] l IH]; simpl; intros Hn; [reflexivity|].
  destruct (key_leb (kx, vx) (ky, vy)); simpl; [reflexivity|].
  rewrite IH by tauto.
  destruct (String.eqb k kx) eqn:Ex; [|reflexivity].
  destruct (String.eqb k ky) eqn:Ey; [|reflexivity].
  apply String.eqb_eq in Ex, Ey. subst. tauto.
Qed.

Lemma lookup_item_sort k l :
  NoDup (map fst l) → lookup_item k (sort_items l) = lookup_item k l.
Proof.
  induction l as [|[kx vx] l IH]; simpl; intros Hnd; [reflexivity|].
  apply NoDup_cons in Hnd as [Hnin Hnd].
  rewrite lookup_item_insert.
  - simpl. rewrite IH by exact Hnd. reflexivity.
  - simpl. rewrite in_keys_sort_items. rewrite <- list_elem_of_In. exact Hnin.
Qed.

Lemma lookup_item_In k v l :
  NoDup (map fst l) → In (k, v) l → lookup_item k l = Some v.
Proof.
  induction l as [|[k' v'] l IH]; simpl; intros Hnd Hin; [tauto|].
  apply NoDup_cons in Hnd as [Hnin Hnd].
  destruct Hin as [Heq|Hin].
  - injection Heq as -> ->. rewrite String.eqb_refl. reflexivity.
  - destruct (String.eqb k k') eqn:E.
    + apply String.eqb_eq in E. subst. exfalso. apply Hnin.
      apply list_elem_of_In. apply (in_map fst _ (k', v)) in Hin. exact Hin.
    + apply IH; assumption.
Qed.
End SortFacts.

Lemma insert_item_map {V W} (g : V → W) (x : string * V) (l : list (string * V)) :
  insert_item (fst x, g (snd x)) (map (fun kv => (fst kv, g (snd kv))) l)
  = map (fun kv => (fst kv, g (snd kv))) (insert_item x l).
Proof.
  induction l as [|y l IH]; simpl; [reflexivity|].
  unfold key_leb. simpl.
  destruct (String.leb (fst x) (fst y)); simpl; [reflexivity|].
  rewrite IH. reflexivity.
Qed.

Lemma sort_items_map {V W} (g : V → W) (l : list (string * V)) :
  sort_items (map (fun kv => (fst kv, g (snd kv))) l)
  = map (fun kv => (fst kv, g (snd kv))) (sort_items l).
Proof.
  induction l as [|x l IH]; simpl; [reflexivity|].
  rewrite IH. apply insert_item_map.
Qed.

Lemma map_snd_ext_Forall {V W} (f g : V → W) (l : list (string * V)) :
  Forall (fun kv => f (snd kv) = g (snd kv)) l →
  map (fun kv => (fst kv, f (snd kv))) l = map (fun kv => (fst kv, g (snd kv))) l.
Proof.
  induction 1 as [|x l Hx _ IH]; simpl; [reflexivity|]. rewrite Hx, IH. reflexivity.
Qed.

Lemma canon_tree_map1 {L M} (f : L → M) (t : pytree L) :
  canon (tree_map1 f t) = tree_map1 f (canon t).
Proof.
  induction t as [x|items IH|items IH] using pytree_nested_ind; simpl.
  - reflexivity.
  - f_equal. rewrite !map_map. apply map_ext_Forall. exact IH.
  - f_equal. rewrite <- (sort_items_map (tree_map1 f)). f_equal.
    rewrite !map_map. simpl.
    apply (map_snd_ext_Forall (fun v => canon (tree_map1 f v))
             (fun v => tree_map1 f (canon v)) _ IH).
Qed.

Lemma canon_idem {L} (t : pytree L) : canon (canon t) = canon t.
Proof.
  induction t as [x|items IH|items IH] using pytree_nested_ind; simpl.
  - reflexivity.
  - f_equal. rewrite map_map. apply map_ext_Forall. exact IH.
  - f_equal. rewrite <- (sort_items_map canon), sort_items_idem. f_equal.
    rewrite map_map. simpl.
    apply (map_snd_ext_Forall (fun v => canon (canon v)) canon _ IH).
Qed.

Lemma tree_map1_compose {L M N} (f : L → M) (g : M → N) (t : pytree L) :
  tree_map1 g (tree_map1 f t) = tree_map1 (fun x => g (f x)) t.
Proof.
  induction t as [x|items IH|items IH] using pytree_nested_ind; simpl.
  - reflexivity.
  - f_equal. rewrite map_map. apply map_ext_Forall. exact IH.
  - f_equal. rewrite map_map. simpl.
    apply (map_snd_ext_Forall (fun v => tree_map1 g (tree_map1 f v))
             (tree_map1 (fun x => g (f x))) _ IH).
Qed.

Lemma tree_map1_ext {L M} (f g : L → M) (t : pytree L) :
  (∀ x, f x = g x) → tree_map1 f t = tree_map1 g t.
Proof.
  intros Hfg.
  induction t as [x|items IH|items IH] using pytree_nested_ind; simpl.
  - rewrite Hfg. reflexivity.
  - f_equal. apply map_ext_Forall. exact IH.
  - f_equal. apply (map_snd_ext_Forall (tree_map1 f) (tree_map1 g) _ IH).
Qed.

Lemma tree_skeleton_lift (t : pyval Qc) : tree_skeleton (lift_tree t) = tree_skeleton t.
Proof.
  unfold tree_skeleton, lift_tree. rewrite tree_map1_compose.
  apply tree_map1_ext. intros x. apply skeleton_tmap.
Qed.

(** ** [jax.grad] returns a tree of the argument's structure *)

Section PartialsFacts.
Context {X Y R E : Type}.
Variables (lift : X → Y) (part : X → (Y → res Qc) → res R).
Variables (eX : X → E) (eY : Y → E) (eR : R → E).
Hypothesis lift_e : ∀ x, eY (lift x) = eX x.

(** [part] succeeds at [x] when its continuation succeeds on every
    argument shaped like [x], and its result is shaped like [x]. *)
Definition part_total (x : X) : Prop :=
  ∀ k', (∀ y, eY y = eX x → ∃ q, k' y = Ok q) →
        ∃ r, part x k' = Ok r ∧ eR r = eX x.

Lemma partials_list_total (l : list X) :
  Forall part_total l →
  ∀ pre k,
    (∀ ys, map eY ys = map eY pre ++ map eX l → ∃ q, k ys = Ok q) →
    ∃ rs, partials_list lift part pre l k = Ok rs ∧ map eR rs = map eX l.
Proof using lift_e.
  induction 1 as [|x l Hx _ IH]; intros pre k Hk; simpl.
  - eexists. split; reflexivity.
  - destruct (Hx (fun y => k (pre ++ y :: map lift l))) as (r & Hr & Her).
    { intros y Hy. apply Hk. rewrite map_app. simpl.
      rewrite Hy, map_map. f_equal. f_equal. apply map_ext. exact lift_e. }
    rewrite Hr. cbn [bind].
    destruct (IH (pre ++ [lift x]) k) as (rs & Hrs & Hers).
    { intros ys Hys. apply Hk. rewrite Hys, map_app. simpl.
      rewrite lift_e, <- app_assoc. reflexivity. }
    rewrite Hrs. cbn [bind]. eexists. split; [reflexivity|].
    simpl. rewrite Her, Hers. reflexivity.
Qed.
End PartialsFacts.

Lemma partial_scalar_total (q : Qc) :
  part_total partial_scalar (erase (A:=Qc)) (erase (A:=dual)) (erase (A:=Qc)) q.
Proof.
  intros k' Hk. unfold partial_scalar.
  destruct (Hk (d_seed q) eq_refl) as (r & Hr). eauto.
Qed.

Lemma partials_row_total (row : list Qc) :
  part_total (fun row k' => partials_list d_const partial_scalar [] row k')
    (map (erase (A:=Qc))) (map (erase (A:=dual))) (map (erase (A:=Qc))) row.
Proof.
  intros k' Hk.
  apply (partials_list_total d_const partial_scalar erase erase erase).
  - reflexivity.
  - apply Forall_forall. intros q _. apply partial_scalar_total.
  - intros ys Hys. apply Hk. exact Hys.
Qed.

Lemma partials_tensor_total (t : tensor Qc) (k : tensor dual → res Qc) :
  (∀ t', skeleton t' = skeleton t → ∃ q, k t' = Ok q) →
  ∃ g, partials_tensor t k = Ok g ∧ skeleton g = skeleton t.
Proof.
  intros Hk. destruct t as [q|v|c rows]; cbn [partials_tensor].
  - destruct (partial_scalar_total q (fun y => k (T0 y))) as (r & Hr & _).
    { intros y _. apply Hk. reflexivity. }
    rewrite Hr. cbn [bind]. eexists. split; reflexivity.
  - destruct (partials_row_total v (fun v' => k (T1 v'))) as (r & Hr & Her).
    { intros y Hy. apply Hk. unfold skeleton. simpl. rewrite Hy. reflexivity. }
    rewrite Hr. cbn [bind]. eexists. split; [reflexivity|].
    unfold skeleton. simpl. rewrite Her. reflexivity.
  - destruct (partials_list_total (map d_const)
                (fun row k' => partials_list d_const partial_scalar [] row k')
                (map erase) (map erase) (map erase)
                (fun row => eq_trans (map_map _ _ _) eq_refl)
                rows) with (pre := @nil (list dual)) (k := fun rows' => k (T2 c rows'))
      as (r & Hr & Her).
    + apply Forall_forall. intros row _. apply partials_row_total.
    + intros ys Hys. apply Hk. unfold skeleton. simpl. rewrite Hys. reflexivity.
    + rewrite Hr. cbn [bind]. eexists. split; [reflexivity|].
      unfold skeleton. simpl. rewrite Her. reflexivity.
Qed.

Lemma tree_skeleton_Leaf {A} (a : tensor A) :
  tree_skeleton (Leaf a) = Leaf (skeleton a).
Proof. reflexivity. Qed.

Lemma tree_skeleton_PTuple {A} (items : list (pyval A)) :
  tree_skeleton (PTuple items) = PTuple (map tree_skeleton items).
Proof. reflexivity. Qed.

Lemma tree_skeleton_PDict {A} (items : list (string * pyval A)) :
  tree_skeleton (PDict items) = PDict (map item_skeleton items).
Proof. reflexivity. Qed.

Lemma partials_tree_total (p : pyval Qc) :
  ∀ k : pyval dual → res Qc,
    (∀ p', tree_skeleton p' = tree_skeleton p → ∃ q, k p' = Ok q) →
    ∃ g, partials_tree p k = Ok g ∧ tree_skeleton g = tree_skeleton p.
Proof.
  induction p as [a|items IH|items IH] using pytree_nested_ind; intros k Hk;
    cbn [partials_tree].
  - destruct (partials_tensor_total a (fun a' => k (Leaf a'))) as (g & Hg & Heg).
    { intros t' Ht'. apply Hk. rewrite !tree_skeleton_Leaf, Ht'. reflexivity. }
    rewrite Hg. cbn [bind]. eexists. split; [reflexivity|].
    rewrite !tree_skeleton_Leaf, Heg. reflexivity.
  - destruct (partials_list_total lift_tree partials_tree
                tree_skeleton tree_skeleton tree_skeleton tree_skeleton_lift items)
      with (pre := @nil (pyval dual)) (k := fun items' => k (PTuple items'))
      as (gs & Hgs & Hegs).
    + eapply Forall_impl; [exact IH|]. intros t Ht k' Hk'. apply Ht, Hk'.
    + intros ys Hys. apply Hk. rewrite !tree_skeleton_PTuple. f_equal. exact Hys.
    + rewrite Hgs. cbn [bind]. eexists. split; [reflexivity|].
      rewrite !tree_skeleton_PTuple. f_equal. exact Hegs.
  - destruct (partials_list_total
                (fun kv => (fst kv, lift_tree (snd kv)))
                (fun kv k' =>
                   let* g := partials_tree (snd kv) (fun y => k' (fst kv, y)) in
                   Ok (fst kv, g))
                item_skeleton item_skeleton item_skeleton
                (fun kv => f_equal (pair (fst kv)) (tree_skeleton_lift (snd kv)))
                items)
      with (pre := @nil (string * pyval dual)) (k := fun items' => k (PDict items'))
      as (gs & Hgs & Hegs).
    + eapply Forall_impl; [exact IH|]. intros [key t] Ht k' Hk'.
      cbn [fst snd] in *.
      destruct (Ht (fun y => k' (key, y))) as (g & Hg & Heg).
      { intros p' Hp'. apply Hk'. unfold item_skeleton. cbn [fst snd].
        rewrite Hp'. reflexivity. }
      rewrite Hg. cbn [bind]. eexists. split; [reflexivity|].
      unfold item_skeleton. cbn [fst snd]. rewrite Heg. reflexivity.
    + intros ys Hys. apply Hk. rewrite !tree_skeleton_PDict. f_equal. exact Hys.
    + rewrite Hgs. cbn [bind]. eexists. split; [reflexivity|].
      rewrite !tree_skeleton_PDict. f_equal. exact Hegs.
Qed.

Lemma grad_total (f : pyval dual → res (tensor dual)) (params : pyval Qc) :
  (∀ p', tree_skeleton p' = tree_skeleton params → ∃ d, f p' = Ok (T0 d)) →
  ∃ g, grad f params = Ok g ∧ tree_skeleton g = canon (tree_skeleton params).
Proof.
  intros Hf. unfold grad.
  destruct (partials_tree_total params (fun p => scalar_tangent (f p)))
    as (g & Hg & Heg).
  { intros p' Hp'. destruct (Hf p' Hp') as (d & Hd). rewrite Hd. simpl. eauto. }
  rewrite Hg. cbn [bind]. eexists. split; [reflexivity|].
  unfold tree_skeleton in *. rewrite <- canon_tree_map1, Heg. reflexivity.
Qed.

(** ** Operands of one shape *)

Lemma res_map_Ok_inv {X Y} (h : X → Y) (m : res X) (y : Y) :
  res_map h m = Ok y → ∃ x, m = Ok x ∧ h x = y.
Proof. destruct m as [x|e]; simpl; intros Heq; [|discriminate]. injection Heq. eauto. Qed.

Lemma zipM_unit_rows (rows : list (list unit)) :
  zipM_res (bc_zip (fun _ _ : unit => Ok tt)) rows rows = Ok rows.
Proof.
  induction rows as [|row rows IH]; simpl; [reflexivity|].
  rewrite bc_zip_same by reflexivity. cbn [bind]. rewrite IH. cbn [bind].
  do 2 f_equal. apply unit_list_eq. rewrite length_zip_with. lia.
Qed.

Lemma binop_unit_same (s : tensor unit) : binop (fun _ _ => tt) s s = Ok s.
Proof.
  destruct s as [[]|v|c rows]; cbn [binop tmap].
  - reflexivity.
  - rewrite bc_zip_same by reflexivity. cbn [bind]. do 2 f_equal.
    apply unit_list_eq. rewrite length_zip_with. lia.
  - unfold binop2d, bc_dim. rewrite Nat.eqb_refl. cbn [bind].
    unfold bc_zip at 1. rewrite Nat.eqb_refl, zipM_unit_rows. reflexivity.
Qed.

Lemma binop_same_skeleton {A} (f : A → A → A) (a b : tensor A) :
  skeleton a = skeleton b →
  ∃ c, binop f a b = Ok c ∧ skeleton c = skeleton a.
Proof.
  intros Hab. pose proof (binop_hom f a b) as Hh.
  rewrite <- Hab, binop_unit_same in Hh.
  apply res_map_Ok_inv in Hh. exact Hh.
Qed.

(** The update of one leaf in [gradient_descent_step]. *)
Lemma leaf_update_same_skeleton (lr : Qc) (p g : tensor Qc) :
  skeleton g = skeleton p →
  ∃ c, (let* lg := tmul (T0 lr) g in tsub p lg) = Ok c ∧ skeleton c = skeleton p.
Proof.
  intros Hg. change (tmul (T0 lr) g) with (Ok (tmap (s_mul lr) g)). cbn [bind].
  apply binop_same_skeleton. rewrite skeleton_tmap. symmetry. exact Hg.
Qed.

(** ** [jax.tree_map] over two trees of one structure *)

Lemma keys_unique_PDict {L} (items : list (string * pytree L)) :
  keys_unique (PDict items) = true →
  NoDup (map fst items) ∧ Forall (fun kv => keys_unique (snd kv) = true) items.
Proof.
  simpl. intros Hk. apply andb_prop in Hk as [Hnd Hall]. split.
  - eapply bool_decide_eq_true_1. exact Hnd.
  - apply Forall_forall. intros kv Hin.
    rewrite forallb_forall in Hall. apply Hall, list_elem_of_In, Hin.
Qed.

Lemma keys_unique_PTuple {L} (items : list (pytree L)) :
  keys_unique (PTuple items) = true → Forall (fun t => keys_unique t = true) items.
Proof.
  simpl. intros Hall. apply Forall_forall. intros t Hin.
  rewrite forallb_forall in Hall. apply Hall, list_elem_of_In, Hin.
Qed.

Section TreeMap2Facts.
Context {A : Type}.
Variable f : tensor A → tensor A → res (tensor A).
Hypothesis f_same : ∀ a b, skeleton b = skeleton a →
                           ∃ c, f a b = Ok c ∧ skeleton c = skeleton a.

Lemma tree_map2_same_skeleton (p : pyval A) :
  keys_unique p = true →
  ∀ g, tree_skeleton g = canon (tree_skeleton p) →
       ∃ u, tree_map2 f p g = Ok u ∧ tree_skeleton u = canon (tree_skeleton p).
Proof using f_same.
  induction p as [a|items IH|items IH] using pytree_nested_ind; intros Hu g Hg.
  - destruct g as [b|?|?]; try discriminate.
    rewrite !tree_skeleton_Leaf in Hg. cbn [canon] in Hg. injection Hg as Hb.
    destruct (f_same a b Hb) as (c & Hc & Hec).
    cbn [tree_map2]. rewrite Hc. cbn [bind]. eexists. split; [reflexivity|].
    rewrite !tree_skeleton_Leaf, Hec. reflexivity.
  - destruct g as [?|gitems|?]; try discriminate.
    rewrite !tree_skeleton_PTuple in Hg. cbn [canon] in Hg. injection Hg as Hg.
    apply keys_unique_PTuple in Hu.
    cbn [tree_map2].
    assert (Hz : ∃ l, zipM_res (tree_map2 f) items gitems = Ok l
                      ∧ map tree_skeleton l = map canon (map tree_skeleton items)).
    { clear -IH Hu Hg. revert gitems Hg.
      induction items as [|t items IHl]; intros [|gt gitems] Hg;
        simpl in Hg; try discriminate.
      - eexists. split; reflexivity.
      - injection Hg as Hgt Hg.
        apply Forall_cons_1 in IH as [IHt IH]. apply Forall_cons_1 in Hu as [Hut Hu].
        destruct (IHt Hut gt Hgt) as (u & Hmu & Heu).
        destruct (IHl IH Hu gitems Hg) as (l & Hl & Hel).
        simpl. rewrite Hmu. cbn [bind]. rewrite Hl. cbn [bind].
        eexists. split; [reflexivity|]. simpl. rewrite Heu, Hel. reflexivity. }
    destruct Hz as (l & Hl & Hel). rewrite Hl. cbn [bind].
    eexists. split; [reflexivity|].
    rewrite !tree_skeleton_PTuple. cbn [canon]. rewrite Hel. reflexivity.
  - destruct g as [?|?|gitems]; try discriminate.
    rewrite !tree_skeleton_PDict in Hg. cbn [canon] in Hg. injection Hg as Hg.
    apply keys_unique_PDict in Hu as [Hnd Hu].
    cbn [tree_map2].
    assert (Hlen : length items = length gitems).
    { apply (f_equal length) in Hg.
      rewrite length_map, length_sort_items, !length_map in Hg. congruence. }
    rewrite Hlen, Nat.eqb_refl.
    set (step := fun kv : string * pyval A =>
                   match lookup_item (fst kv) gitems with
                   | Some t => let* r := tree_map2 f (snd kv) t in Ok (fst kv, r)
                   | None => Err (ValueError "Dict key mismatch")
                   end).
    assert (Hlook : ∀ k v, In (k, v) items →
              ∃ t, lookup_item k gitems = Some t
                   ∧ tree_skeleton t = canon (tree_skeleton v)).
    { intros k v Hin.
      assert (Hl : lookup_item k (map item_skeleton gitems)
                   = Some (canon (tree_skeleton v))).
      { rewrite Hg. rewrite lookup_item_sort.
        - apply lookup_item_In.
          + rewrite !map_map. simpl. exact Hnd.
          + rewrite map_map. apply in_map_iff. exists (k, v). split; [reflexivity|exact Hin].
        - rewrite !map_map. simpl. exact Hnd. }
      unfold item_skeleton in Hl. rewrite (lookup_item_map tree_skeleton) in Hl.
      destruct (lookup_item k gitems) as [t|]; [|discriminate].
      simpl in Hl. injection Hl as Hl. eauto. }
    assert (Hm : ∃ l, mapM_res step items = Ok l
                      ∧ map item_skeleton l
                        = map (fun kv => (fst kv, canon (snd kv)))
                            (map item_skeleton items)).
    { clear Hg Hlen Hnd. 
      induction items as [|[k v] items IHl].
      - eexists. split; reflexivity.
      - apply Forall_cons_1 in IH as [IHt IH]. apply Forall_cons_1 in Hu as [Hut Hu].
        cbn [fst snd] in IHt, Hut.
        destruct (Hlook k v (or_introl eq_refl)) as (t & Ht & Het).
        destruct (IHt Hut t Het) as (u & Hmu & Heu).
        assert (Hlook' : ∀ k' v', In (k', v') items →
                  ∃ t, lookup_item k' gitems = Some t
                       ∧ tree_skeleton t = canon (tree_skeleton v')).
        { intros k' v' Hin. apply Hlook. right. exact Hin. }
        destruct (IHl IH Hu Hlook') as (l & Hl & Hel).
        cbn [mapM_res]. unfold step at 1. cbn [fst snd]. rewrite Ht, Hmu.
        cbn [bind]. rewrite Hl. cbn [bind].
        eexists. split; [reflexivity|].
        cbn [map]. rewrite Hel. unfold item_skeleton at 1 3. cbn [fst snd].
        rewrite Heu. reflexivity. }
    destruct Hm as (l & Hl & Hel). rewrite Hl. cbn [bind].
    eexists. split; [reflexivity|].
    rewrite !tree_skeleton_PDict. cbn [canon]. f_equal.
    unfold item_skeleton at 1. rewrite <- (sort_items_map tree_skeleton).
    f_equal. exact Hel.
Qed.
End TreeMap2Facts.

(** ** Shapes and skeletons *)

Lemma shape_skeleton {A} (t : tensor A) : shape (skeleton t) = shape t.
Proof. destruct t; simpl; rewrite ?length_map; reflexivity. Qed.

Lemma map_erase_repeat {A} (l : list A) : map erase l = repeat tt (length l).
Proof. induction l as [|x l IH]; simpl; [reflexivity|]. rewrite IH. reflexivity. Qed.

Lemma skeleton_of_shape {A} (t : tensor A) (sh : list nat) :
  wf_tensor t = true → shape t = sh → skeleton t = unit_tensor sh.
Proof.
  intros Hwf <-. destruct t as [x|v|c rows]; simpl.
  - reflexivity.
  - unfold skeleton. simpl. rewrite map_erase_repeat. reflexivity.
  - unfold skeleton. simpl. f_equal. apply wf_tensor_T2 in Hwf.
    induction Hwf as [|row rows Hrow _ IH]; simpl; [reflexivity|].
    rewrite IH, map_erase_repeat, Hrow. reflexivity.
Qed.

Lemma is_ok_res_map {X Y} (h : X → Y) (m : res X) : is_ok (res_map h m) = is_ok m.
Proof. destruct m; reflexivity. Qed.

Lemma is_ok_true {X} (m : res X) : is_ok m = true → ∃ x, m = Ok x.
Proof. destruct m; simpl; [eauto | discriminate]. Qed.

Lemma bind_Ok_inv {X Y} (m : res X) (k : X → res Y) (y : Y) :
  bind m k = Ok y → ∃ x, m = Ok x ∧ k x = Ok y.
Proof. destruct m as [x|e]; simpl; [eauto | discriminate]. Qed.

Lemma mean_scalar {A} `{Scalar A} (t r : tensor A) : mean t = Ok r → ∃ d, r = T0 d.
Proof.
  unfold mean. intros Heq. injection Heq as <-. eauto.
Qed.

Lemma loss_scalar {A} `{Scalar A} (params : pyval A) (x y r : tensor A) :
  loss params x y = Ok r → ∃ d, r = T0 d.
Proof.
  unfold loss. intros Hl.
  apply bind_Ok_inv in Hl as (y_pred & _ & Hl).
  apply bind_Ok_inv in Hl as (res & _ & Hl).
  eapply mean_scalar, Hl.
Qed.

(** A function of the parameters whose success depends on shapes only
    succeeds on tracers when it succeeds on the numbers. *)
Lemma loss_on_tracers (params : pyval Qc) (x y : tensor Qc) (p' : pyval dual) :
  is_ok (loss params x y) = true →
  tree_skeleton p' = tree_skeleton params →
  ∃ d, loss p' (tmap d_const x) (tmap d_const y) = Ok (T0 d).
Proof.
  intros Hok Hp'.
  pose proof (loss_hom p' (tmap d_const x) (tmap d_const y)) as Hd.
  rewrite Hp', !skeleton_tmap, <- (loss_hom params x y) in Hd.
  apply is_ok_true in Hok as (v & Hv). rewrite Hv in Hd.
  apply res_map_Ok_inv in Hd as (r & Hr & _).
  destruct (loss_scalar _ _ _ _ Hr) as (d & ->). eauto.
Qed.

Lemma grad_fn_total (params : pyval Qc) (x y : tensor Qc) :
  is_ok (loss params x y) = true →
  ∃ g, grad_fn params x y = Ok g ∧ tree_skeleton g = canon (tree_skeleton params).
Proof.
  intros Hok. apply grad_total. intros p' Hp'.
  exact (loss_on_tracers params x y p' Hok Hp').
Qed.

Lemma gradient_descent_step_skeleton (params : pyval Qc) (x y : tensor Qc) (lr : Qc) :
  keys_unique params = true →
  is_ok (loss params x y) = true →
  ∃ u, gradient_descent_step params x y lr = Ok u
       ∧ tree_skeleton u = canon (tree_skeleton params).
Proof.
  intros Hu Hok. unfold gradient_descent_step.
  destruct (grad_fn_total params x y Hok) as (g & Hg & Heg).
  rewrite Hg. cbn [bind].
  apply tree_map2_same_skeleton; [|exact Hu|exact Heg].
  intros a b Hb. apply leaf_update_same_skeleton, Hb.
Qed.

Lemma leaf_shapes_skeleton {A} (p : pyval A) :
  leaf_shapes p = tree_map1 shape (canon (tree_skeleton p)).
Proof.
  unfold leaf_shapes, tree_skeleton.
  rewrite <- canon_tree_map1, tree_map1_compose. f_equal.
  apply tree_map1_ext. intros t. symmetry. apply shape_skeleton.
Qed.

Lemma treedef_skeleton {A} (p : pyval A) :
  treedef p = tree_map1 (fun _ => tt) (canon (tree_skeleton p)).
Proof.
  unfold treedef, tree_skeleton.
  rewrite <- canon_tree_map1, tree_map1_compose. reflexivity.
Qed.

Lemma mapM_res_ext_Forall {A B} (f g : A → res B) (l : list A) :
  Forall (fun x => f x = g x) l → mapM_res f l = mapM_res g l.
Proof. induction 1 as [|x l Hx _ IH]; simpl; [reflexivity|]. rewrite Hx, IH. reflexivity. Qed.

Lemma print_leaf_shapes_skeleton {A} (p : pyval A) :
  ∀ path, print_leaf_shapes p path = print_leaf_shapes (tree_skeleton p) path.
Proof.
  induction p as [a|items IH|items IH] using pytree_nested_ind; intros path;
    try reflexivity.
  rewrite tree_skeleton_PDict. cbn [print_leaf_shapes].
  rewrite mapM_res_map. f_equal.
  apply mapM_res_ext_Forall. eapply Forall_impl; [exact IH|].
  intros [k [a|sub|sub]] Hkv; cbn [item_skeleton fst snd] in *.
  - rewrite tree_skeleton_Leaf, shape_skeleton. reflexivity.
  - reflexivity.
  - rewrite Hkv. rewrite tree_skeleton_PDict. reflexivity.
Qed.

(** ** The externals used for running the model *)

Lemma zero_normal_spec : normal_spec zero_normal.
Proof.
  intros seed [|r [|c [|x sh]]] Hlen; simpl in Hlen; try lia.
  - split; reflexivity.
  - split; [reflexivity|]. simpl. rewrite repeat_length. reflexivity.
  - split.
    + apply wf_tensor_T2, Forall_forall. intros row Hin.
      apply list_elem_of_In, repeat_spec in Hin. subst. apply repeat_length.
    + simpl. rewrite repeat_length. reflexivity.
Qed.

Lemma zero_externals_spec : ext_spec zero_externals.
Proof.
  split.
  - exact zero_normal_spec.
  - intros seed n sh Hlen. split; [apply repeat_length|].
    apply Forall_forall. intros t Hin.
    apply list_elem_of_In, repeat_spec in Hin. subst.
    apply zero_normal_spec, Hlen.
  - intros r c. apply (zero_normal_spec 0%nat [r; c]). simpl. lia.
  - intros init x y. reflexivity.
Qed.

(** ** C9: the structure of the updated parameters *)

Lemma init_network_skeleton (normal : nat → list nat → tensor Qc) :
  normal_spec normal →
  tree_skeleton (init_network normal 1 10 1) = init_skeleton.
Proof.
  intros Hn. unfold init_network, init_skeleton, tree_skeleton.
  cbn [tree_map1 map fst snd].
  destruct (Hn 123%nat [1; 10]%nat) as [Hw1 Hs1]; [simpl; lia|].
  destruct (Hn 246%nat [10; 1]%nat) as [Hw2 Hs2]; [simpl; lia|].
  rewrite (skeleton_of_shape _ _ Hw1 Hs1), (skeleton_of_shape _ _ Hw2 Hs2).
  reflexivity.
Qed.

Lemma init_network_keys_unique (normal : nat → list nat → tensor Qc) :
  keys_unique (init_network normal 1 10 1) = true.
Proof. reflexivity. Qed.

Lemma init_network_loss_ok (normal : nat → list nat → tensor Qc) (x y : tensor Qc) :
  normal_spec normal →
  wf_tensor x = true → shape x = [1000; 1]%nat →
  wf_tensor y = true → shape y = [1000; 1]%nat →
  is_ok (loss (init_network normal 1 10 1) x y) = true.
Proof.
  intros Hn Hwx Hsx Hwy Hsy.
  rewrite <- (is_ok_res_map skeleton), loss_hom.
  rewrite (init_network_skeleton normal Hn).
  rewrite (skeleton_of_shape x _ Hwx Hsx), (skeleton_of_shape y _ Hwy Hsy).
  vm_compute. reflexivity.
Qed.

(** C9.  [gradient_descent_step] returns a pytree with the structure
    and the leaf shapes of its [params] argument, whenever the loss can
    be evaluated at [params] (dict keys being unique, as in any dict).
    Applied to [init_network(1, 10, 1)] and data of shape (1000, 1), the
    result is a dict with keys layer1 and layer2, each holding a weights
    and a biases leaf, of shapes (1, 10), (10,), (10, 1) and (1,); cell 29
    prints exactly these. *)
Theorem gradient_descent_step_structure :
  (∀ (params : pyval Qc) (x y : tensor Qc) (lr : Qc),
      keys_unique params = true →
      is_ok (loss params x y) = true →
      ∃ u, gradient_descent_step params x y lr = Ok u
           ∧ treedef u = treedef params
           ∧ leaf_shapes u = leaf_shapes params)
  ∧ (∀ (normal : nat → list nat → tensor Qc) (x y : tensor Qc),
        normal_spec normal →
        wf_tensor x = true → shape x = [1000; 1]%nat →
        wf_tensor y = true → shape y = [1000; 1]%nat →
        ∃ u, gradient_descent_step (init_network normal 1 10 1) x y
               default_learning_rate = Ok u
             ∧ leaf_shapes u = leaf_shapes (init_network normal 1 10 1)
             ∧ leaf_shapes u
               = PDict
                   [("layer1", PDict [("biases", Leaf [10]%nat);
                                      ("weights", Leaf [1; 10]%nat)]);
                    ("layer2", PDict [("biases", Leaf [1]%nat);
                                      ("weights", Leaf [10; 1]%nat)])]
             ∧ print_leaf_shapes u [] = Ok cell29_output).
Proof.
  split.
  - intros params x y lr Hu Hok.
    destruct (gradient_descent_step_skeleton params x y lr Hu Hok) as (u & Hstep & Hsk).
    exists u. split; [exact Hstep|].
    rewrite !treedef_skeleton, !leaf_shapes_skeleton, Hsk, canon_idem.
    split; reflexivity.
  - intros normal x y Hn Hwx Hsx Hwy Hsy.
    destruct (gradient_descent_step_skeleton (init_network normal 1 10 1) x y
                default_learning_rate (init_network_keys_unique normal)
                (init_network_loss_ok normal x y Hn Hwx Hsx Hwy Hsy))
      as (u & Hstep & Hsk).
    exists u. split; [exact Hstep|].
    rewrite print_leaf_shapes_skeleton, !leaf_shapes_skeleton, Hsk, canon_idem.
    rewrite (init_network_skeleton normal Hn).
    repeat split; reflexivity.
Qed.

Lemma gradient_descent_step_structure_witness :
  (∃ u, gradient_descent_step unit_network (T0 1%Qc) (T0 0%Qc) 1%Qc = Ok u
        ∧ treedef u = treedef unit_network
        ∧ leaf_shapes u = leaf_shapes unit_network)
  ∧ (∃ u, gradient_descent_step (init_network zero_normal 1 10 1)
            (zero_normal 0 [1000; 1]%nat) (zero_normal 0 [1000; 1]%nat)
            default_learning_rate = Ok u
          ∧ leaf_shapes u = leaf_shapes (init_network zero_normal 1 10 1)
          ∧ leaf_shapes u
            = PDict
                [("layer1", PDict [("biases", Leaf [10]%nat);
                                   ("weights", Leaf [1; 10]%nat)]);
                 ("layer2", PDict [("biases", Leaf [1]%nat);
                                   ("weights", Leaf [10; 1]%nat)])]
          ∧ print_leaf_shapes u [] = Ok cell29_output).
Proof.
  destruct gradient_descent_step_structure as (H1 & H2).
  split.
  - apply H1; vm_compute; reflexivity.
  - apply H2; [exact zero_normal_spec | vm_compute; reflexivity ..].
Defined.

(** ** The store: stability of JAX arrays *)

Lemma jax_preserved_refl (h : gmap nat object) : jax_preserved h h.
Proof. intros l o Hl _. exact Hl. Qed.

Lemma jax_preserved_trans (h1 h2 h3 : gmap nat object) :
  jax_preserved h1 h2 → jax_preserved h2 h3 → jax_preserved h1 h3.
Proof. intros H12 H23 l o Hl Hk. apply H23; [apply H12|]; assumption. Qed.

Lemma fresh_loc_None (h : gmap nat object) : h !! fresh_loc h = None.
Proof. apply not_elem_of_dom. unfold fresh_loc. apply is_fresh. Qed.

Lemma jax_preserved_alloc (h : gmap nat object) (o : object) :
  jax_preserved h (<[fresh_loc h := o]> h).
Proof.
  intros l o' Hl _. rewrite lookup_insert_ne; [exact Hl|].
  intros <-. rewrite fresh_loc_None in Hl. discriminate.
Qed.

Lemma jax_preserved_numpy_update (h : gmap nat object) (l : nat) (o o' : object) :
  h !! l = Some o → obj_kind o = NumpyArray →
  jax_preserved h (<[l := o']> h).
Proof.
  intros Hl Hk l' o'' Hl' Hk'. destruct (decide (l = l')) as [<-|Hne].
  - rewrite Hl in Hl'. injection Hl' as <-. congruence.
  - rewrite lookup_insert_ne by exact Hne. exact Hl'.
Qed.

Lemma stable_ret {A} (a : A) : stable (ret a).
Proof. intros s. apply jax_preserved_refl. Qed.

Lemma stable_raise {A} (e : exn) : stable (raise (A:=A) e).
Proof. intros s. apply jax_preserved_refl. Qed.

Lemma stable_lift_res {A} (r : res A) : stable (lift_res r).
Proof. intros s. apply jax_preserved_refl. Qed.

Lemma stable_bind {A B} (m : M A) (k : A → M B) :
  stable m → (∀ a, stable (k a)) → stable (bindM m k).
Proof.
  intros Hm Hk s. unfold bindM. specialize (Hm s).
  destruct (m s) as [[a|e] s1]; simpl in *; [|exact Hm].
  eapply jax_preserved_trans; [exact Hm | apply Hk].
Qed.

Lemma stable_alloc (k : kind) (d : device) (v : tensor Qc) : stable (alloc k d v).
Proof. intros s. apply jax_preserved_alloc. Qed.

Lemma stable_get_object (l : nat) : stable (get_object l).
Proof.
  intros s. unfold get_object. destruct (heap s !! l); apply jax_preserved_refl.
Qed.

Lemma stable_get_var (x : string) : stable (get_var x).
Proof.
  intros s. unfold get_var. destruct (env s !! x); apply jax_preserved_refl.
Qed.

Lemma stable_set_var (x : string) (v : pytree ref) : stable (set_var x v).
Proof. intros s. apply jax_preserved_refl. Qed.

Lemma stable_print (line : list printed) : stable (print line).
Proof. intros s. apply jax_preserved_refl. Qed.

Lemma stable_log_iteration (i : nat) : stable (log_iteration i).
Proof. intros s. apply jax_preserved_refl. Qed.

Lemma stable_when (b : bool) (m : M unit) : stable m → stable (when b m).
Proof. intros Hm. destruct b; [exact Hm | apply stable_ret]. Qed.

Lemma stable_try_except (body : M unit) (handler : string → M unit) :
  stable body → (∀ msg, stable (handler msg)) →
  stable (try_except_TypeError body handler).
Proof.
  intros Hb Hh s. unfold try_except_TypeError. specialize (Hb s).
  destruct (body s) as [[[]|e] s1]; simpl in *; try exact Hb.
  destruct e; try exact Hb.
  eapply jax_preserved_trans; [exact Hb | apply Hh].
Qed.

Lemma stable_for_indices (body : nat → M unit) (indices : list nat) :
  (∀ i, stable (body i)) → stable (for_indices body indices).
Proof.
  intros Hb. induction indices as [|i rest IH]; simpl.
  - apply stable_ret.
  - apply stable_bind; [apply stable_log_iteration | intros _].
    apply stable_bind; [apply Hb | intros _; exact IH].
Qed.

Lemma stable_for_range (n : nat) (body : nat → M unit) :
  (∀ i, stable (body i)) → stable (for_range n body).
Proof. apply stable_for_indices. Qed.

Lemma stable_mapM_M {A B} (f : A → M B) (l : list A) :
  Forall (fun x => stable (f x)) l → stable (mapM_M f l).
Proof.
  induction 1 as [|x l Hx _ IH]; simpl.
  - apply stable_ret.
  - apply stable_bind; [exact Hx | intros y].
    apply stable_bind; [exact IH | intros ys; apply stable_ret].
Qed.

Lemma stable_tree_mapM {A B} (f : A → M B) (t : pytree A) :
  (∀ x, stable (f x)) → stable (tree_mapM f t).
Proof.
  intros Hf. induction t as [x|items IH|items IH] using pytree_nested_ind; simpl.
  - apply stable_bind; [apply Hf | intros; apply stable_ret].
  - apply stable_bind; [|intros; apply stable_ret].
    apply stable_mapM_M. exact IH.
  - apply stable_bind; [|intros; apply stable_ret].
    apply stable_mapM_M. eapply Forall_impl; [exact IH|].
    intros kv Hkv. apply stable_bind; [exact Hkv | intros; apply stable_ret].
Qed.

Lemma stable_deref (r : ref) : stable (deref r).
Proof.
  destruct r; simpl; [|apply stable_ret].
  apply stable_bind; [apply stable_get_object | intros; apply stable_ret].
Qed.

Lemma stable_setitem (x : string) (i j : nat) (q : Qc) : stable (setitem x i j q).
Proof.
  unfold setitem. apply stable_bind; [apply stable_get_var | intros v].
  destruct v as [[l|q']|items|items]; try apply stable_raise.
  intros s. unfold bindM, get_object.
  destruct (heap s !! l) as [o|] eqn:Hl; simpl; [|apply jax_preserved_refl].
  destruct (obj_kind o) eqn:Hk; [|apply jax_preserved_refl].
  unfold lift_res. destruct (set_entry i j q (obj_value o)); simpl.
  - eapply jax_preserved_numpy_update; eassumption.
  - apply jax_preserved_refl.
Qed.

Lemma stable_isub (x : string) (delta : tensor Qc) : stable (isub x delta).
Proof.
  unfold isub. apply stable_bind; [apply stable_get_var | intros v].
  destruct v as [[l|q']|items|items]; try apply stable_raise.
  intros s. unfold bindM at 1, get_object.
  destruct (heap s !! l) as [o|] eqn:Hl; simpl; [|apply jax_preserved_refl].
  unfold bindM at 1, lift_res.
  destruct (tsub (obj_value o) delta) as [t|e]; simpl; [|apply jax_preserved_refl].
  destruct (obj_kind o) eqn:Hk.
  - eapply jax_preserved_numpy_update; eassumption.
  - apply (stable_bind (new_jax t) (fun r => set_var x (Leaf r))).
    + apply stable_alloc.
    + intros r. apply stable_set_var.
Qed.

(** ** Resolving references *)

Lemma mapM_res_mono {A B} (f f' : A → res B) (l : list A) (l' : list B) :
  Forall (fun x => ∀ y, f x = Ok y → f' x = Ok y) l →
  mapM_res f l = Ok l' → mapM_res f' l = Ok l'.
Proof.
  intros Hall. revert l'. induction Hall as [|x l Hx _ IH]; intros l' Hm; simpl in *.
  - exact Hm.
  - apply bind_Ok_inv in Hm as (y & Hy & Hm).
    apply bind_Ok_inv in Hm as (ys & Hys & Hm).
    rewrite (Hx y Hy), (IH ys Hys). exact Hm.
Qed.

Lemma tree_mapM_res_mono {A B} (f f' : A → res B) (t : pytree A) :
  (∀ x y, f x = Ok y → f' x = Ok y) →
  ∀ t', tree_mapM_res f t = Ok t' → tree_mapM_res f' t = Ok t'.
Proof.
  intros Hf. induction t as [x|items IH|items IH] using pytree_nested_ind;
    intros t' Ht; simpl in *.
  - apply bind_Ok_inv in Ht as (y & Hy & Ht). rewrite (Hf x y Hy). exact Ht.
  - apply bind_Ok_inv in Ht as (l & Hl & Ht).
    rewrite (mapM_res_mono _ (tree_mapM_res f') items l IH Hl). exact Ht.
  - apply bind_Ok_inv in Ht as (l & Hl & Ht).
    erewrite mapM_res_mono; [exact Ht| |exact Hl].
    eapply Forall_impl; [exact IH|]. intros [k v] Hv [k' v'] Hkv. simpl in *.
    apply bind_Ok_inv in Hkv as (r & Hr & Hkv). rewrite (Hv r Hr). exact Hkv.
Qed.

Lemma resolve_ref_mono (h h' : gmap nat object) (r : ref) (t : tensor Qc) :
  h ⊆ h' → resolve_ref h r = Ok t → resolve_ref h' r = Ok t.
Proof.
  intros Hsub. destruct r as [l|q]; simpl; [|auto].
  destruct (h !! l) as [o|] eqn:Hl; [|discriminate].
  rewrite (lookup_weaken _ _ _ _ Hl Hsub). auto.
Qed.

Lemma resolve_mono (h h' : gmap nat object) (r : pytree ref) (v : pyval Qc) :
  h ⊆ h' → resolve h r = Ok v → resolve h' r = Ok v.
Proof.
  intros Hsub. apply tree_mapM_res_mono. intros x y. apply resolve_ref_mono, Hsub.
Qed.

Lemma deref_resolve (r : ref) (s : state) :
  deref r s = (resolve_ref (heap s) r, s).
Proof.
  destruct r as [l|q]; simpl; [|reflexivity].
  unfold bindM, get_object. destruct (heap s !! l); reflexivity.
Qed.

Lemma mapM_M_pure {A B} (f : A → M B) (g : A → state → res B) (l : list A) (s : state) :
  Forall (fun x => ∀ s, f x s = (g x s, s)) l →
  mapM_M f l s = (mapM_res (fun x => g x s) l, s).
Proof.
  induction 1 as [|x l Hx _ IH]; simpl; [reflexivity|].
  unfold bindM. rewrite Hx. destruct (g x s) as [y|e]; simpl; [|reflexivity].
  fold (@bindM (list B) (list B)). unfold bindM. rewrite IH.
  destruct (mapM_res (fun x => g x s) l); reflexivity.
Qed.

Lemma load_tree_resolve (r : pytree ref) (s : state) :
  tree_mapM deref r s = (resolve (heap s) r, s).
Proof.
  revert s. unfold resolve.
  induction r as [x|items IH|items IH] using pytree_nested_ind; intros s; simpl.
  - unfold bindM. rewrite deref_resolve.
    destruct (resolve_ref (heap s) x); reflexivity.
  - unfold bindM.
    rewrite (mapM_M_pure _ (fun t s => tree_mapM_res (resolve_ref (heap s)) t) items s IH).
    destruct (mapM_res _ items); reflexivity.
  - unfold bindM at 1.
    rewrite (mapM_M_pure _
               (fun kv s => let* v := tree_mapM_res (resolve_ref (heap s)) (snd kv) in
                            Ok (fst kv, v)) items s).
    + destruct (mapM_res _ items); reflexivity.
    + eapply Forall_impl; [exact IH|]. intros kv Hkv s'. unfold bindM.
      rewrite Hkv. destruct (tree_mapM_res _ (snd kv)); reflexivity.
Qed.

Lemma load_bound (s : state) (x : string) (v : pyval Qc) :
  bound s x v → load x s = (Ok v, s).
Proof.
  intros (r & Hx & Hr). unfold load, bindM, get_var. rewrite Hx.
  rewrite load_tree_resolve, Hr. reflexivity.
Qed.

Lemma load_array_bound (s : state) (x : string) (t : tensor Qc) :
  bound s x (Leaf t) → load_array x s = (Ok t, s).
Proof.
  intros Hb. unfold load_array, bindM. rewrite (load_bound s x _ Hb). reflexivity.
Qed.

Lemma bound_frame (xs : list string) (s s' : state) (x : string) (v : pyval Qc) :
  frame xs s s' → x ∉ xs → bound s x v → bound s' x v.
Proof.
  intros [Hh He] Hx (r & Hr & Hv). exists r. split.
  - rewrite He by exact Hx. exact Hr.
  - eapply resolve_mono; eassumption.
Qed.

Lemma frame_refl (s : state) : frame [] s s.
Proof. split; [reflexivity | auto]. Qed.

Lemma frame_trans (xs ys : list string) (s1 s2 s3 : state) :
  frame xs s1 s2 → frame ys s2 s3 → frame (xs ++ ys) s1 s3.
Proof.
  intros [Hh1 He1] [Hh2 He2]. split.
  - etrans; eassumption.
  - intros y Hy. rewrite elem_of_app in Hy.
    rewrite He2, He1; auto.
Qed.

Lemma frame_weaken (xs ys : list string) (s s' : state) :
  frame xs s s' → (∀ x, x ∈ xs → x ∈ ys) → frame ys s s'.
Proof. intros [Hh He] Hsub. split; [exact Hh|]. intros y Hy. apply He. auto. Qed.

(** ** Storing results as new arrays *)

Lemma fresh_ref_weaken (h h' : gmap nat object) (r : ref) :
  h ⊆ h' → fresh_ref h' r → fresh_ref h r.
Proof.
  intros Hsub (l & -> & Hl). exists l. split; [reflexivity|].
  destruct (h !! l) as [o|] eqn:E; [|reflexivity].
  rewrite (lookup_weaken _ _ _ _ E Hsub) in Hl. discriminate.
Qed.

Lemma only_added_refl (s : state) : only_added s s.
Proof. repeat split; auto. Qed.

Lemma only_added_trans (s1 s2 s3 : state) :
  only_added s1 s2 → only_added s2 s3 → only_added s1 s3.
Proof.
  intros ([H1 F1] & E1 & O1 & T1) ([H2 F2] & E2 & O2 & T2).
  split; [split|split; [|split]]; try congruence.
  etrans; eassumption.
Qed.

Lemma alloc_spec (k : kind) (d : device) (v : tensor Qc) (s : state) :
  ∃ l s', alloc k d v s = (Ok (RArr l), s')
          ∧ heap s !! l = None
          ∧ heap s' = <[l := Object k d v]> (heap s)
          ∧ only_added s s'.
Proof.
  exists (fresh_loc (heap s)). eexists. split; [reflexivity|].
  pose proof (fresh_loc_None (heap s)) as Hf.
  split; [exact Hf|]. split; [reflexivity|].
  repeat split; simpl; auto. apply insert_subseteq. exact Hf.
Qed.

Section StoreList.
Context {X Y : Type}.
Variables (f : X → M Y) (rs : gmap nat object → Y → res X) (lv : Y → list ref).
Hypothesis rs_mono : ∀ h h' y x, h ⊆ h' → rs h y = Ok x → rs h' y = Ok x.

Definition stores (x : X) : Prop :=
  ∀ s, ∃ y s', f x s = (Ok y, s')
               ∧ rs (heap s') y = Ok x
               ∧ Forall (fresh_ref (heap s)) (lv y)
               ∧ only_added s s'.

Lemma mapM_M_stores (items : list X) :
  Forall stores items →
  ∀ s, ∃ ys s', mapM_M f items s = (Ok ys, s')
                ∧ mapM_res (rs (heap s')) ys = Ok items
                ∧ Forall (fresh_ref (heap s)) (concat (map lv ys))
                ∧ only_added s s'.
Proof using rs_mono.
  induction 1 as [|x l Hx _ IH]; intros s; simpl.
  - exists [], s. repeat split; auto.
  - destruct (Hx s) as (y & s1 & Hy & Hr & Hf & Ha).
    destruct (IH s1) as (ys & s2 & Hys & Hrs & Hfs & Has).
    exists (y :: ys), s2. unfold bindM. rewrite Hy, Hys.
    split; [reflexivity|]. split; [|split].
    + simpl. rewrite (rs_mono _ _ _ _ (proj1 (proj1 Has)) Hr). cbn [bind].
      rewrite Hrs. reflexivity.
    + simpl. apply Forall_app. split; [exact Hf|].
      eapply Forall_impl; [exact Hfs|]. intros r.
      apply fresh_ref_weaken. exact (proj1 (proj1 Ha)).
    + eapply only_added_trans; eassumption.
Qed.
End StoreList.

Lemma store_jax_spec (v : pyval Qc) :
  ∀ s, ∃ r s', store_jax v s = (Ok r, s')
               ∧ resolve (heap s') r = Ok v
               ∧ Forall (fresh_ref (heap s)) (leaves r)
               ∧ only_added s s'.
Proof.
  unfold store_jax.
  induction v as [t|items IH|items IH] using pytree_nested_ind; intros s; simpl.
  - destruct (alloc_spec JaxArray Cuda0 t s) as (l & s' & Hal & Hnone & Hheap & Ha).
    exists (Leaf (RArr l)), s'. unfold bindM, new_jax. rewrite Hal.
    split; [reflexivity|]. split; [|split; [|exact Ha]].
    + unfold resolve. simpl. rewrite Hheap, lookup_insert_eq. reflexivity.
    + repeat constructor. exists l. auto.
  - destruct (mapM_M_stores (tree_mapM new_jax) resolve leaves resolve_mono items IH s)
      as (ys & s' & Hys & Hrs & Hfs & Ha).
    exists (PTuple ys), s'. unfold bindM. rewrite Hys.
    split; [reflexivity|]. split; [|split; assumption].
    change (resolve (heap s') (PTuple ys))
      with (let* l := mapM_res (resolve (heap s')) ys in Ok (PTuple l)).
    rewrite Hrs. reflexivity.
  - destruct (mapM_M_stores
                (fun kv : string * pyval Qc =>
                   do v <- tree_mapM new_jax (snd kv); ret (fst kv, v))
                (fun h (kv : string * pytree ref) =>
                   let* v := resolve h (snd kv) in Ok (fst kv, v))
                (fun kv : string * pytree ref => leaves (snd kv)))
      with (items := items) (s := s)
      as (ys & s' & Hys & Hrs & Hfs & Ha).
    + intros h h' [k r] [k' v'] Hsub Hr. simpl in *.
      apply bind_Ok_inv in Hr as (v0 & Hv0 & Hr).
      rewrite (resolve_mono _ _ _ _ Hsub Hv0). exact Hr.
    + eapply Forall_impl; [exact IH|]. intros [k v0] Hv0 s0. simpl in *.
      destruct (Hv0 s0) as (r & s1 & Hr & Hres & Hf & Ha).
      exists (k, r), s1. unfold bindM. rewrite Hr.
      split; [reflexivity|]. simpl. rewrite Hres. repeat split; auto; apply Ha.
    + exists (PDict ys), s'. unfold bindM at 1. rewrite Hys.
      split; [reflexivity|]. split; [|split; assumption].
      change (resolve (heap s') (PDict ys))
        with (let* l := mapM_res
                          (fun kv => let* v := resolve (heap s') (snd kv) in
                                     Ok (fst kv, v)) ys in
              Ok (PDict l)).
      rewrite Hrs. reflexivity.
Qed.

(** ** Running the statements *)

Lemma set_var_bound (x : string) (r : pytree ref) (v : pyval Qc) (s : state) :
  resolve (heap s) r = Ok v →
  ∃ s', set_var x r s = (Ok tt, s')
        ∧ bound s' x v ∧ frame [x] s s'
        ∧ out s' = out s ∧ trace s' = trace s.
Proof.
  intros Hr. eexists. split; [reflexivity|]. simpl. split; [|split; [split|]].
  - exists r. simpl. rewrite lookup_insert_eq. auto.
  - reflexivity.
  - simpl. intros y Hy. apply lookup_insert_ne. intros ->. apply Hy. constructor.
  - auto.
Qed.

Lemma assign_jax_spec (x : string) (v : pyval Qc) (s : state) :
  ∃ s', assign_jax x (Ok v) s = (Ok tt, s')
        ∧ bound s' x v ∧ frame [x] s s'
        ∧ out s' = out s ∧ trace s' = trace s.
Proof.
  unfold assign_jax, bindM, lift_res.
  destruct (store_jax_spec v s) as (r & s1 & Hst & Hres & _ & (F1 & E1 & O1 & T1)).
  rewrite Hst.
  destruct (set_var_bound x r v s1 Hres) as (s2 & Hset & Hb & F2 & O2 & T2).
  exists s2. rewrite Hset. split; [reflexivity|]. split; [exact Hb|].
  split; [|split; congruence].
  eapply frame_weaken; [eapply frame_trans; eassumption|]. auto.
Qed.

Lemma temp_jax_spec (t : tensor Qc) (s : state) :
  ∃ s', temp_jax (Ok t) s = (Ok t, s') ∧ only_added s s'.
Proof.
  unfold temp_jax, bindM, lift_res, new_jax.
  destruct (alloc_spec JaxArray Cuda0 t s) as (l & s' & Hal & _ & _ & Ha).
  exists s'. rewrite Hal. auto.
Qed.

Lemma only_added_bound (s s' : state) (x : string) (v : pyval Qc) :
  only_added s s' → bound s x v → bound s' x v.
Proof.
  intros (F & _) Hb. eapply bound_frame; [exact F| |exact Hb]. apply not_elem_of_nil.
Qed.

Lemma jax_var_bound (s : state) (x : string) (t : tensor Qc) :
  jax_var s x t → bound s x (Leaf t).
Proof.
  intros (l & d & Hx & Hl). exists (Leaf (RArr l)). split; [exact Hx|].
  unfold resolve. simpl. rewrite Hl. reflexivity.
Qed.

Lemma jax_var_frame (xs : list string) (s s' : state) (x : string) (t : tensor Qc) :
  frame xs s s' → x ∉ xs → jax_var s x t → jax_var s' x t.
Proof.
  intros [Hh He] Hx (l & d & Hxl & Hl). exists l, d. split.
  - rewrite He by exact Hx. exact Hxl.
  - eapply lookup_weaken; eassumption.
Qed.

Lemma only_added_jax_var (s s' : state) (x : string) (t : tensor Qc) :
  only_added s s' → jax_var s x t → jax_var s' x t.
Proof.
  intros (F & _) Hv. eapply jax_var_frame; [exact F| |exact Hv]. apply not_elem_of_nil.
Qed.

Lemma assign_jax_array_spec (x : string) (t : tensor Qc) (s : state) :
  ∃ s', assign_jax_array x (Ok t) s = (Ok tt, s')
        ∧ jax_var s' x t ∧ frame [x] s s'
        ∧ out s' = out s ∧ trace s' = trace s.
Proof.
  eexists. split; [reflexivity|]. simpl.
  pose proof (fresh_loc_None (heap s)) as Hf.
  split; [|split; [split|]]; simpl.
  - exists (fresh_loc (heap s)), Cuda0. simpl. rewrite !lookup_insert_eq. auto.
  - apply insert_subseteq, Hf.
  - intros y Hy. apply lookup_insert_ne. intros ->. apply Hy. constructor.
  - auto.
Qed.

Lemma isub_jax_spec (x : string) (t delta t' : tensor Qc) (s : state) :
  jax_var s x t → tsub t delta = Ok t' →
  ∃ s', isub x delta s = (Ok tt, s')
        ∧ jax_var s' x t' ∧ frame [x] s s'
        ∧ out s' = out s ∧ trace s' = trace s.
Proof.
  intros (l & d & Hx & Hl) Hsub.
  unfold isub, bindM, get_var, get_object, lift_res. rewrite Hx, Hl. simpl.
  rewrite Hsub. eexists. split; [reflexivity|]. simpl.
  pose proof (fresh_loc_None (heap s)) as Hf.
  split; [|split; [split|]]; simpl.
  - exists (fresh_loc (heap s)), Cuda0. simpl. rewrite !lookup_insert_eq. auto.
  - apply insert_subseteq, Hf.
  - intros y Hy. apply lookup_insert_ne. intros ->. apply Hy. constructor.
  - auto.
Qed.

Lemma print_spec (line : list printed) (s : state) :
  ∃ s', print line s = (Ok tt, s') ∧ heap s' = heap s ∧ env s' = env s
        ∧ out s' = out s ++ [line] ∧ trace s' = trace s.
Proof. eexists. split; [reflexivity|]. auto. Qed.

(** ** Loops *)

Ltac sub_names :=
  let x := fresh "x" in
  let Hx := fresh "Hx" in
  intros x Hx; repeat (apply elem_of_cons in Hx; destruct Hx as [->|Hx]);
  [ repeat first [ apply list_elem_of_here | apply list_elem_of_further ] ..
  | apply elem_of_nil in Hx; destruct Hx ].

Lemma frame_step (xs : list string) (s1 s2 s3 : state) :
  frame xs s1 s2 → frame xs s2 s3 → frame xs s1 s3.
Proof.
  intros F1 F2. eapply frame_weaken; [eapply frame_trans; eassumption|].
  intros x Hx. apply elem_of_app in Hx. tauto.
Qed.

Lemma frame_start (xs : list string) (s : state) : frame xs s s.
Proof. split; [reflexivity | auto]. Qed.

Lemma frame_sub (xs ys : list string) (s s' : state) :
  frame xs s s' → xs ⊆ ys → frame ys s s'.
Proof. intros F Hsub. eapply frame_weaken; [exact F|]. intros x Hx. apply Hsub, Hx. Qed.

Lemma only_added_frame (xs : list string) (s s' : state) :
  only_added s s' → frame xs s s'.
Proof. intros (F & _). eapply frame_sub; [exact F|]. apply list_subseteq_nil. Qed.

Lemma frame_output (xs : list string) (s s' : state) (o : list (list printed)) (t : list nat) :
  frame xs s s' → frame xs s (State (heap s') (env s') o t).
Proof. intros [Hh He]. split; [exact Hh | exact He]. Qed.

Section ForLoops.
Variable Inv : state → Prop.
Variable printed_at : nat → nat.
Variable body : nat → M unit.
Variable names : list string.
Hypothesis Inv_trace :
  ∀ s t, Inv s → Inv (State (heap s) (env s) (out s) t).
Hypothesis body_spec :
  ∀ i s, Inv s →
         ∃ s', body i s = (Ok tt, s') ∧ Inv s' ∧ trace s' = trace s
               ∧ length (out s') = (length (out s) + printed_at i)%nat
               ∧ frame names s s'.

Lemma for_indices_spec (indices : list nat) :
  ∀ s, Inv s →
       ∃ s', for_indices body indices s = (Ok tt, s') ∧ Inv s'
             ∧ trace s' = trace s ++ indices
             ∧ length (out s')
               = (length (out s) + sum_list_with printed_at indices)%nat
             ∧ frame names s s'.
Proof using Inv_trace body_spec.
  induction indices as [|i rest IH]; intros s HI; simpl.
  - exists s. rewrite app_nil_r, Nat.add_0_r.
    repeat split; auto.
  - unfold bindM at 1. unfold log_iteration at 1.
    unfold bindM at 1.
    destruct (body_spec i _ (Inv_trace s (trace s ++ [i]) HI))
      as (s1 & Hb & HI1 & Ht1 & Ho1 & Hf1).
    rewrite Hb.
    destruct (IH s1 HI1) as (s2 & Hf & HI2 & Ht2 & Ho2 & Hf2).
    exists s2. split; [exact Hf|]. split; [exact HI2|]. split; [|split].
    + rewrite Ht2, Ht1. simpl. rewrite <- app_assoc. reflexivity.
    + rewrite Ho2, Ho1. simpl. lia.
    + eapply frame_step; [|exact Hf2].
      destruct Hf1 as [Hh He]. split; [exact Hh | exact He].
Qed.
End ForLoops.

Lemma bindM_ok {A B} (m : M A) (k : A → M B) (s s1 : state) (a : A) :
  m s = (Ok a, s1) → bindM m k s = k a s1.
Proof. intros Hm. unfold bindM. rewrite Hm. reflexivity. Qed.

Lemma lift_res_ok {A} (r : res A) (a : A) (s : state) :
  r = Ok a → lift_res r s = (Ok a, s).
Proof. intros ->. reflexivity. Qed.

Lemma bindM_lift_ok {A B} (a : A) (k : A → M B) (s : state) :
  bindM (lift_res (Ok a)) k s = k a s.
Proof. reflexivity. Qed.

Lemma bound_frame1 (x y : string) (s s' : state) (v : pyval Qc) :
  frame [y] s s' → x ≠ y → bound s x v → bound s' x v.
Proof.
  intros F Hne. apply (bound_frame [y]); [exact F|].
  intros Hin. apply list_elem_of_singleton in Hin. contradiction.
Qed.

Lemma jax_var_frame1 (x y : string) (s s' : state) (t : tensor Qc) :
  frame [y] s s' → x ≠ y → jax_var s x t → jax_var s' x t.
Proof.
  intros F Hne. apply (jax_var_frame [y]); [exact F|].
  intros Hin. apply list_elem_of_singleton in Hin. contradiction.
Qed.

(** ** The linear-regression loop *)

Lemma gradient_linear_value (m b : Qc) (x y : list Qc) :
  length x = length y → x ≠ [] →
  gradient (Leaf (T1 [m; b])) (T1 x) (T1 y)
  = Ok (Leaf (T1 [analytic_dm m b x y; analytic_db m b x y])).
Proof.
  intros Hlen Hne. unfold gradient, grad.
  cbn [partials_tree partials_tensor partials_list app map].
  unfold partial_scalar.
  rewrite (mse_loss_tangent (d_seed m) (d_const b) _ x y Hlen Hne
             (tangent_sq_residual_dm m b)).
  cbn [bind].
  rewrite (mse_loss_tangent (d_const m) (d_seed b) _ x y Hlen Hne
             (tangent_sq_residual_db m b)).
  reflexivity.
Qed.

Lemma linear_regression_step_spec (x y : list Qc) (i : nat) (s : state) :
  linear_ready x y s →
  ∃ s', linear_regression_step i s = (Ok tt, s') ∧ linear_ready x y s'
        ∧ trace s' = trace s
        ∧ length (out s') = (length (out s) + linear_prints i)%nat
        ∧ frame ["grad_params"; "params"] s s'.
Proof.
  intros (m & b & lr & Hx & Hy & Hlen & Hne & Hp & Hlr).
  unfold linear_regression_step.
  rewrite (bindM_ok _ _ _ _ _ (load_bound s "params" _ (jax_var_bound _ _ _ Hp))).
  rewrite (bindM_ok _ _ _ _ _ (load_array_bound s "x_data" _ (jax_var_bound _ _ _ Hx))).
  rewrite (bindM_ok _ _ _ _ _ (load_array_bound s "y_data" _ (jax_var_bound _ _ _ Hy))).
  rewrite (gradient_linear_value m b x y Hlen Hne).
  destruct (assign_jax_spec "grad_params"
              (Leaf (T1 [analytic_dm m b x y; analytic_db m b x y])) s)
    as (s1 & Hs1 & Hg & F1 & O1 & Tr1).
  rewrite (bindM_ok _ _ _ _ _ Hs1).
  assert (Hlr1 : bound s1 "learning_rate" (Leaf (T0 lr)))
    by (eapply bound_frame1; [exact F1|discriminate|exact Hlr]).
  rewrite (bindM_ok _ _ _ _ _ (load_array_bound s1 "learning_rate" _ Hlr1)).
  rewrite (bindM_ok _ _ _ _ _ (load_array_bound s1 "grad_params" _ Hg)).
  set (g0 := analytic_dm m b x y) in *. set (g1 := analytic_db m b x y) in *.
  change (tmul (T0 lr) (T1 [g0; g1])) with (Ok (T1 [lr * g0; lr * g1]%Qc)).
  destruct (temp_jax_spec (T1 [lr * g0; lr * g1]%Qc) s1) as (s2 & Hs2 & A2).
  rewrite (bindM_ok _ _ _ _ _ Hs2).
  assert (Hp2 : jax_var s2 "params" (T1 [m; b])).
  { eapply only_added_jax_var; [exact A2|].
    eapply jax_var_frame1; [exact F1|discriminate|exact Hp]. }
  destruct (isub_jax_spec "params" (T1 [m; b]) (T1 [lr * g0; lr * g1]%Qc)
              (T1 [m - lr * g0; b - lr * g1]%Qc) s2 Hp2 eq_refl)
    as (s3 & Hs3 & Hp3 & F3 & O3 & Tr3).
  rewrite (bindM_ok _ _ _ _ _ Hs3).
  assert (Hready3 : linear_ready x y s3).
  { exists (m - lr * g0)%Qc, (b - lr * g1)%Qc, lr.
    repeat split; auto.
    - eapply jax_var_frame1; [exact F3|discriminate|].
      eapply only_added_jax_var; [exact A2|].
      eapply jax_var_frame1; [exact F1|discriminate|exact Hx].
    - eapply jax_var_frame1; [exact F3|discriminate|].
      eapply only_added_jax_var; [exact A2|].
      eapply jax_var_frame1; [exact F1|discriminate|exact Hy].
    - eapply bound_frame1; [exact F3|discriminate|].
      eapply only_added_bound; [exact A2|exact Hlr1]. }
  assert (T03 : trace s3 = trace s).
  { destruct A2 as (_ & _ & _ & Tr2). congruence. }
  assert (O03 : out s3 = out s).
  { destruct A2 as (_ & _ & O2 & _). congruence. }
  assert (F03 : frame ["grad_params"; "params"] s s3).
  { eapply frame_step; [|eapply frame_sub; [exact F3|sub_names]].
    eapply frame_step; [|apply only_added_frame; exact A2].
    eapply frame_sub; [exact F1|sub_names]. }
  unfold when, linear_prints. destruct (90 <? i)%nat.
  - rewrite (bindM_ok _ _ _ _ _ (load_bound s3 "params" _ (jax_var_bound _ _ _ Hp3))).
    change (index (Leaf (T1 [m - lr * g0; b - lr * g1]%Qc)) 0)
      with (Ok (Leaf (T0 (m - lr * g0)%Qc)) : res (pyval Qc)).
    change (index (Leaf (T1 [m - lr * g0; b - lr * g1]%Qc)) 1)
      with (Ok (Leaf (T0 (b - lr * g1)%Qc)) : res (pyval Qc)).
    rewrite !bindM_lift_ok.
    rewrite (mse_loss_T1 _ _ x y Hlen Hne).
    destruct (temp_jax_spec
                (T0 (s_div (sum_list (zip_with
                              (sq_residual (m - lr * g0)%Qc (b - lr * g1)%Qc) x y))
                           (s_of_nat (length x)))) s3) as (s4 & Hs4 & A4).
    rewrite (bindM_ok _ _ _ _ _ Hs4).
    eexists. split; [reflexivity|]. simpl.
    pose proof (frame_step _ _ _ _ F03 (only_added_frame _ _ _ A4)) as F04.
    destruct A4 as (F4 & E4 & O4 & Tr4). split; [|split; [|split]].
    + destruct Hready3 as (m' & b' & lr' & H1 & H2 & H3 & H4 & H5 & H6).
      exists m', b', lr'.
      assert (A4' : only_added s3 s4) by (repeat split; auto; apply F4).
      repeat split; auto.
      * destruct (only_added_jax_var _ _ _ _ A4' H1) as (l & d & ? & ?). exists l, d. auto.
      * destruct (only_added_jax_var _ _ _ _ A4' H2) as (l & d & ? & ?). exists l, d. auto.
      * destruct (only_added_jax_var _ _ _ _ A4' H5) as (l & d & ? & ?). exists l, d. auto.
      * destruct (only_added_bound _ _ _ _ A4' H6) as (r & ? & ?). exists r. auto.
    + congruence.
    + rewrite length_app. simpl. congruence.
    + apply frame_output. exact F04.
  - exists s3. split; [reflexivity|]. split; [exact Hready3|].
    split; [exact T03|]. split; [rewrite O03; lia | exact F03].
Qed.

(** ** The two-layer loop *)

Lemma tuple_skeleton_inv {A} (p : pyval A) (sk : list (tensor unit)) :
  tree_skeleton p = PTuple (map Leaf sk) →
  ∃ ts, p = PTuple (map Leaf ts) ∧ map skeleton ts = sk.
Proof.
  destruct p as [a|items|items]; try discriminate.
  rewrite tree_skeleton_PTuple. intros Heq. injection Heq as Heq.
  revert sk Heq. induction items as [|t items IH]; intros [|k sk] Heq;
    simpl in Heq; try discriminate.
  - exists []. auto.
  - injection Heq as Ht Hrest. destruct (IH sk Hrest) as (ts & Hts & Hsk).
    destruct t as [a|?|?]; try discriminate. injection Ht as Ha.
    injection Hts as ->. exists (a :: ts). simpl. rewrite Ha, Hsk. auto.
Qed.

Lemma tuple_update_leaves (lr : Qc) (ps gs : list (tensor Qc)) :
  map skeleton gs = map skeleton ps →
  ∃ rs, tuple_update (T0 lr) (PTuple (map Leaf ps)) (PTuple (map Leaf gs))
        = Ok (PTuple (map Leaf rs))
        ∧ map skeleton rs = map skeleton ps.
Proof.
  intros Hsk. unfold tuple_update. cbn [py_iter bind].
  assert (Hm : ∃ rs,
             mapM_res
               (fun pg : pyval Qc * pyval Qc =>
                  let* param := as_array (fst pg) in
                  let* grad_param := as_array (snd pg) in
                  let* lg := tmul (T0 lr) grad_param in
                  let* r := tsub param lg in Ok (Leaf r))
               (combine (map Leaf ps) (map Leaf gs)) = Ok (map Leaf rs)
             ∧ map skeleton rs = map skeleton ps).
  { revert gs Hsk. induction ps as [|p ps IH]; intros [|g gs] Hsk;
      simpl in Hsk; try discriminate.
    - exists []. auto.
    - injection Hsk as Hg Hrest. destruct (IH gs Hrest) as (rs & Hrs & Hsrs).
      destruct (binop_same_skeleton s_sub p (tmap (s_mul lr) g)) as (c & Hc & Hsc).
      { rewrite skeleton_tmap. symmetry. exact Hg. }
      exists (c :: rs). cbn [map combine mapM_res as_array fst snd bind].
      change (tmul (T0 lr) g) with (Ok (tmap (s_mul lr) g)). cbn [bind].
      change (tsub p (tmap (s_mul lr) g))
        with (binop s_sub p (tmap (s_mul lr) g)).
      rewrite Hc. cbn [bind]. rewrite Hrs. cbn [bind].
      split; [reflexivity|]. simpl. rewrite Hsc, Hsrs. reflexivity. }
  destruct Hm as (rs & Hrs & Hsrs). exists rs. rewrite Hrs. auto.
Qed.

Lemma tree_skeleton_leaves {A} (ts : list (tensor A)) :
  tree_skeleton (PTuple (map Leaf ts)) = PTuple (map Leaf (map skeleton ts)).
Proof. rewrite tree_skeleton_PTuple, !map_map. reflexivity. Qed.

Lemma expand_last_skeleton (x : list Qc) (n : nat) :
  length x = n →
  ∃ x_col, expand_last (T1 x) = Ok x_col ∧ skeleton x_col = unit_tensor [n; 1]%nat.
Proof.
  intros Hn. eexists. split; [reflexivity|].
  apply skeleton_of_shape.
  - apply wf_tensor_T2, Forall_forall. intros row Hin.
    apply list_elem_of_In, in_map_iff in Hin as (q & <- & _). reflexivity.
  - simpl. rewrite length_map, Hn. reflexivity.
Qed.

Lemma skeleton_T1 {A} (x : list A) (n : nat) :
  length x = n → skeleton (T1 x) = unit_tensor [n].
Proof. intros Hn. apply skeleton_of_shape; [reflexivity | simpl; congruence]. Qed.

(** The loss of cell 17 at the shapes of the notebook. *)
Lemma two_layer_loss_shapes :
  two_layer_nn_mse_loss two_layer_skeleton (unit_tensor [1000; 1]%nat)
    (unit_tensor [1000]%nat) = Ok (T0 tt).
Proof. vm_compute. reflexivity. Qed.

Lemma two_layer_loss_ok {A} `{Scalar A} (p : pyval A) (x_col y : tensor A) :
  tree_skeleton p = two_layer_skeleton →
  skeleton x_col = unit_tensor [1000; 1]%nat →
  skeleton y = unit_tensor [1000]%nat →
  ∃ d, two_layer_nn_mse_loss p x_col y = Ok (T0 d).
Proof.
  intros Hp Hx Hy.
  pose proof (two_layer_nn_mse_loss_hom p x_col y) as Hh.
  rewrite Hp, Hx, Hy, two_layer_loss_shapes in Hh.
  apply res_map_Ok_inv in Hh as (r & Hr & Hsk). rewrite Hr.
  destruct r; try discriminate. eauto.
Qed.

Lemma gradient_two_layer_nn_ok (p : pyval Qc) (x_col y : tensor Qc) :
  tree_skeleton p = two_layer_skeleton →
  skeleton x_col = unit_tensor [1000; 1]%nat →
  skeleton y = unit_tensor [1000]%nat →
  ∃ g, gradient_two_layer_nn p x_col y = Ok g
       ∧ tree_skeleton g = two_layer_skeleton.
Proof.
  intros Hp Hx Hy. unfold gradient_two_layer_nn.
  destruct (grad_total
              (fun p' => two_layer_nn_mse_loss p' (tmap d_const x_col) (tmap d_const y))
              p) as (g & Hg & Hsk).
  - intros p' Hp'. apply two_layer_loss_ok.
    + congruence.
    + rewrite skeleton_tmap. exact Hx.
    + rewrite skeleton_tmap. exact Hy.
  - exists g. split; [exact Hg|]. rewrite Hsk, Hp. reflexivity.
Qed.

Lemma two_layer_update_ok (lr : Qc) (p g : pyval Qc) :
  tree_skeleton p = two_layer_skeleton →
  tree_skeleton g = two_layer_skeleton →
  ∃ p', tuple_update (T0 lr) p g = Ok p' ∧ tree_skeleton p' = two_layer_skeleton.
Proof.
  intros Hp Hg.
  destruct (tuple_skeleton_inv p two_layer_shapes Hp) as (ps & -> & Hps).
  destruct (tuple_skeleton_inv g two_layer_shapes Hg) as (gs & -> & Hgs).
  destruct (tuple_update_leaves lr ps gs) as (rs & Hrs & Hsk); [congruence|].
  exists (PTuple (map Leaf rs)). split; [exact Hrs|].
  rewrite tree_skeleton_leaves, Hsk, Hps. reflexivity.
Qed.

Lemma two_layer_step_spec (x y : list Qc) (i : nat) (s : state) :
  two_layer_ready x y s →
  ∃ s', two_layer_step i s = (Ok tt, s') ∧ two_layer_ready x y s'
        ∧ trace s' = trace s
        ∧ length (out s') = (length (out s) + two_layer_prints i)%nat
        ∧ frame ["grad_params_two_layer_nn"; "params_two_layer_nn"] s s'.
Proof.
  intros (p & lr & Hx & Hlx & Hy & Hly & Hp & Hsp & Hlr).
  unfold two_layer_step.
  rewrite (bindM_ok _ _ _ _ _ (load_bound s "params_two_layer_nn" _ Hp)).
  rewrite (bindM_ok _ _ _ _ _ (load_array_bound s "x_data" _ (jax_var_bound _ _ _ Hx))).
  destruct (expand_last_skeleton x 1000 Hlx) as (x_col & Hxc & Hsxc).
  rewrite Hxc.
  destruct (temp_jax_spec x_col s) as (s1 & Hs1 & A1).
  rewrite (bindM_ok _ _ _ _ _ Hs1).
  assert (Hy1 : jax_var s1 "y_data" (T1 y)) by (eapply only_added_jax_var; eassumption).
  rewrite (bindM_ok _ _ _ _ _ (load_array_bound s1 "y_data" _ (jax_var_bound _ _ _ Hy1))).
  pose proof (skeleton_T1 y 1000 Hly) as Hsy.
  destruct (gradient_two_layer_nn_ok p x_col (T1 y) Hsp Hsxc Hsy) as (g & Hg & Hsg).
  rewrite Hg.
  destruct (assign_jax_spec "grad_params_two_layer_nn" g s1)
    as (s2 & Hs2 & Hg2 & F2 & O2 & Tr2).
  rewrite (bindM_ok _ _ _ _ _ Hs2).
  assert (Hlr2 : bound s2 "learning_rate" (Leaf (T0 lr))).
  { eapply bound_frame1; [exact F2|discriminate|].
    eapply only_added_bound; eassumption. }
  rewrite (bindM_ok _ _ _ _ _ (load_array_bound s2 "learning_rate" _ Hlr2)).
  rewrite (bindM_ok _ _ _ _ _ (load_bound s2 "grad_params_two_layer_nn" _ Hg2)).
  destruct (two_layer_update_ok lr p g Hsp Hsg) as (p' & Hp' & Hsp').
  rewrite Hp'.
  destruct (assign_jax_spec "params_two_layer_nn" p' s2)
    as (s3 & Hs3 & Hp3 & F3 & O3 & Tr3).
  rewrite (bindM_ok _ _ _ _ _ Hs3).
  assert (Hx3 : jax_var s3 "x_data" (T1 x)).
  { eapply jax_var_frame1; [exact F3|discriminate|].
    eapply jax_var_frame1; [exact F2|discriminate|].
    eapply only_added_jax_var; eassumption. }
  assert (Hy3 : jax_var s3 "y_data" (T1 y)).
  { eapply jax_var_frame1; [exact F3|discriminate|].
    eapply jax_var_frame1; [exact F2|discriminate|exact Hy1]. }
  assert (Hlr3 : bound s3 "learning_rate" (Leaf (T0 lr))).
  { eapply bound_frame1; [exact F3|discriminate|exact Hlr2]. }
  assert (T03 : trace s3 = trace s).
  { destruct A1 as (_ & _ & _ & Tr1). congruence. }
  assert (O03 : out s3 = out s).
  { destruct A1 as (_ & _ & O1 & _). congruence. }
  assert (F03 : frame ["grad_params_two_layer_nn"; "params_two_layer_nn"] s s3).
  { eapply frame_step; [|eapply frame_sub; [exact F3|sub_names]].
    eapply frame_step; [|eapply frame_sub; [exact F2|sub_names]].
    apply only_added_frame; exact A1. }
  unfold when, two_layer_prints. destruct (i <? 10)%nat.
  - rewrite (bindM_ok _ _ _ _ _ (load_bound s3 "params_two_layer_nn" _ Hp3)).
    destruct (temp_jax_spec x_col s3) as (s4 & Hs4 & A4).
    rewrite (bindM_ok _ _ _ _ _ Hs4).
    destruct (two_layer_loss_ok p' x_col (T1 y) Hsp' Hsxc Hsy) as (d & Hd).
    rewrite Hd.
    destruct (temp_jax_spec (T0 d) s4) as (s5 & Hs5 & A5).
    rewrite (bindM_ok _ _ _ _ _ Hs5).
    eexists. split; [reflexivity|].
    pose proof (only_added_trans _ _ _ A4 A5) as A45.
    destruct A45 as (F45 & E45 & O45 & Tr45). simpl.
    assert (F' : frame [] s3 (State (heap s5) (env s5) (out s5 ++ [
                    [PStr "Iteration "; PNat (i + 1); PStr ": Loss = "; PArr (T0 d)]])
                    (trace s5))).
    { split; simpl; [apply F45 | intros ? _; congruence]. }
    split; [|split; [|split]].
    + exists p', lr. repeat split; auto.
      * eapply jax_var_frame; [exact F'|apply not_elem_of_nil|exact Hx3].
      * eapply jax_var_frame; [exact F'|apply not_elem_of_nil|exact Hy3].
      * eapply bound_frame; [exact F'|apply not_elem_of_nil|exact Hp3].
      * eapply bound_frame; [exact F'|apply not_elem_of_nil|exact Hlr3].
    + congruence.
    + rewrite length_app. simpl. congruence.
    + eapply frame_step; [exact F03|]. eapply frame_sub; [exact F'|].
      apply list_subseteq_nil.
  - exists s3. split; [reflexivity|]. split.
    + exists p', lr. repeat split; auto.
    + split; [exact T03|]. split; [rewrite O03; lia | exact F03].
Qed.

(** ** The cells around the loops *)

Lemma length_x_values : length x_values = 1000%nat.
Proof. unfold x_values, linspace. rewrite length_map, length_seq. reflexivity. Qed.

Lemma shape_T1_inv {A} (t : tensor A) (n : nat) :
  shape t = [n] → ∃ v, t = T1 v ∧ length v = n.
Proof.
  destruct t as [x|v|c rows]; simpl; intros Hs; try discriminate.
  injection Hs as Hn. eauto.
Qed.

Lemma y_data_ok (normal : nat → list nat → tensor Qc) :
  normal_spec normal →
  ∃ y, y_data normal = Ok (T1 y) ∧ length y = 1000%nat.
Proof.
  intros Hn. unfold y_data, x_data. cbn [shape].
  destruct (Hn 123%nat [length x_values]) as [_ Hs]; [simpl; lia|].
  apply shape_T1_inv in Hs as (v & Hv & Hlv). rewrite Hv.
  change (tmul (T0 true_m) (T1 x_values)) with (Ok (T1 (map (s_mul true_m) x_values))).
  cbn [bind].
  change (tadd (T1 (map (s_mul true_m) x_values)) (T0 true_b))
    with (Ok (T1 (map (fun q => s_add q true_b) (map (s_mul true_m) x_values)))).
  cbn [bind].
  change (tmul (T1 v) (T0 (Qz 2))) with (Ok (T1 (map (fun q => s_mul q (Qz 2)) v))).
  cbn [bind]. unfold tadd. rewrite binop_T1_T1 by (rewrite !length_map; congruence).
  eexists. split; [reflexivity|].
  rewrite length_zip_with, !length_map, Hlv, length_x_values. reflexivity.
Qed.

Lemma data_ready_frame (xs : list string) (s s' : state) :
  frame xs s s' → "x_data" ∉ xs → "y_data" ∉ xs → data_ready s → data_ready s'.
Proof.
  intros F Hx Hy (y & H1 & H2 & H3). exists y.
  repeat split; [eapply jax_var_frame|eapply jax_var_frame|]; eauto.
Qed.

Lemma set_var_float_spec (x : string) (q : Qc) (s : state) :
  ∃ s', set_var x (Leaf (RFloat q)) s = (Ok tt, s')
        ∧ bound s' x (Leaf (T0 q)) ∧ frame [x] s s'
        ∧ out s' = out s ∧ trace s' = trace s.
Proof. apply set_var_bound. reflexivity. Qed.

Lemma cell_8_spec (ext : externals) (s : state) :
  normal_spec (ext_normal ext) →
  ∃ s', cell_8 ext s = (Ok tt, s') ∧ data_ready s'
        ∧ out s' = out s ∧ trace s' = trace s
        ∧ frame ["true_m"; "true_b"; "x_data"; "y_data"] s s'.
Proof.
  intros Hn. unfold cell_8.
  destruct (set_var_float_spec "true_m" true_m s) as (s1 & Hs1 & _ & F1 & O1 & Tr1).
  rewrite (bindM_ok _ _ _ _ _ Hs1).
  destruct (set_var_float_spec "true_b" true_b s1) as (s2 & Hs2 & _ & F2 & O2 & Tr2).
  rewrite (bindM_ok _ _ _ _ _ Hs2).
  destruct (assign_jax_array_spec "x_data" x_data s2) as (s3 & Hs3 & Hx & F3 & O3 & Tr3).
  rewrite (bindM_ok _ _ _ _ _ Hs3).
  destruct (y_data_ok _ Hn) as (y & Hy & Hly). rewrite Hy.
  destruct (assign_jax_array_spec "y_data" (T1 y) s3) as (s4 & Hs4 & Hy4 & F4 & O4 & Tr4).
  exists s4. split; [exact Hs4|]. split; [|split; [|split]]; [|congruence|congruence|].
  - exists y. repeat split; auto.
    eapply jax_var_frame1; [exact F4|discriminate|exact Hx].
  - eapply frame_step; [|eapply frame_sub; [exact F4|sub_names]].
    eapply frame_step; [|eapply frame_sub; [exact F3|sub_names]].
    eapply frame_step; [|eapply frame_sub; [exact F2|sub_names]].
    eapply frame_sub; [exact F1|sub_names].
Qed.

Lemma linear_regression_loop_spec (x y : list Qc) (s : state) :
  linear_ready x y s →
  ∃ s', linear_regression_loop s = (Ok tt, s') ∧ linear_ready x y s'
        ∧ trace s' = trace s ++ seq 0 100
        ∧ length (out s') = (length (out s) + 9)%nat
        ∧ frame ["grad_params"; "params"] s s'.
Proof.
  intros Hr. unfold linear_regression_loop, for_range.
  destruct (for_indices_spec (linear_ready x y) linear_prints linear_regression_step
              ["grad_params"; "params"])
    with (indices := seq 0 100) (s := s) as (s' & Hs' & Hr' & Tr & Ho & Hf); auto.
  - intros i s0. apply linear_regression_step_spec.
  - exists s'. split; [|split; [|split; [|split]]]; auto.
Qed.

Lemma two_layer_loop_spec (x y : list Qc) (s : state) :
  two_layer_ready x y s →
  ∃ s', two_layer_loop s = (Ok tt, s') ∧ two_layer_ready x y s'
        ∧ trace s' = trace s ++ seq 0 100
        ∧ length (out s') = (length (out s) + 10)%nat
        ∧ frame ["grad_params_two_layer_nn"; "params_two_layer_nn"] s s'.
Proof.
  intros Hr. unfold two_layer_loop, for_range.
  destruct (for_indices_spec (two_layer_ready x y) two_layer_prints two_layer_step
              ["grad_params_two_layer_nn"; "params_two_layer_nn"])
    with (indices := seq 0 100) (s := s) as (s' & Hs' & Hr' & Tr & Ho & Hf); auto.
  - intros i s0. apply two_layer_step_spec.
  - exists s'. split; [|split; [|split; [|split]]]; auto.
Qed.

Lemma only_added_lookup (s s' : state) (l : nat) (o : object) :
  only_added s s' → heap s !! l = Some o → heap s' !! l = Some o.
Proof. intros ([Hsub _] & _) Hl. eapply lookup_weaken; eassumption. Qed.

Lemma x_values_nonempty : x_values ≠ [].
Proof.
  intros Heq. pose proof length_x_values as Hl. rewrite Heq in Hl. discriminate.
Qed.

Lemma pair_skeleton_inv (v : pyval Qc) :
  tree_skeleton v = PTuple [Leaf (T0 tt); Leaf (T0 tt)] →
  ∃ a b, v = PTuple [Leaf (T0 a); Leaf (T0 b)].
Proof.
  intros Hv.
  destruct (tuple_skeleton_inv v [T0 tt; T0 tt] Hv) as (ts & -> & Hts).
  destruct ts as [|[a|?|?] [|[b|?|?] [|? ?]]]; try discriminate. eauto.
Qed.

Lemma cell_11_spec (ext : externals) (s : state) :
  ext_spec ext → data_ready s →
  ∃ s', cell_11 ext s = (Ok tt, s') ∧ data_ready s'
        ∧ trace s' = trace s ++ seq 0 100
        ∧ length (out s') = (length (out s) + 11)%nat
        ∧ frame ["learning_rate"; "params"; "grad_params"] s s'.
Proof.
  intros Hext (y & Hx & Hy & Hly). unfold cell_11.
  destruct (set_var_float_spec "learning_rate" (Q2Qc (1 # 100)) s)
    as (s1 & Hs1 & Hlr1 & F1 & O1 & Tr1).
  rewrite (bindM_ok _ _ _ _ _ Hs1).
  destruct (assign_jax_array_spec "params" (T1 [0%Qc; 0%Qc]) s1)
    as (s2 & Hs2 & Hp2 & F2 & O2 & Tr2).
  rewrite (bindM_ok _ _ _ _ _ Hs2).
  assert (Hready : linear_ready x_values y s2).
  { exists 0%Qc, 0%Qc, (Q2Qc (1 # 100)).
    split; [|split; [|split; [|split; [|split]]]].
    - eapply jax_var_frame1; [exact F2|discriminate|].
      eapply jax_var_frame1; [exact F1|discriminate|exact Hx].
    - eapply jax_var_frame1; [exact F2|discriminate|].
      eapply jax_var_frame1; [exact F1|discriminate|exact Hy].
    - rewrite length_x_values. congruence.
    - exact x_values_nonempty.
    - exact Hp2.
    - eapply bound_frame1; [exact F2|discriminate|exact Hlr1]. }
  destruct (linear_regression_loop_spec x_values y s2 Hready)
    as (s3 & Hs3 & (m & b & lr & Hx3 & Hy3 & _ & _ & Hp3 & _) & Tr3 & O3 & F3).
  rewrite (bindM_ok _ _ _ _ _ Hs3).
  rewrite (bindM_ok _ _ _ _ _ (load_bound s3 "params" _ (jax_var_bound _ _ _ Hp3))).
  change (index (Leaf (T1 [m; b])) 0) with (Ok (Leaf (T0 m)) : res (pyval Qc)).
  change (index (Leaf (T1 [m; b])) 1) with (Ok (Leaf (T0 b)) : res (pyval Qc)).
  rewrite !bindM_lift_ok.
  destruct (print_spec [PStr "Optimization results,  m: "; PTree (Leaf (T0 m));
                        PStr ", b: "; PTree (Leaf (T0 b))] s3)
    as (s4 & Hs4 & H4 & E4 & O4 & Tr4).
  rewrite (bindM_ok _ _ _ _ _ Hs4).
  assert (F4 : frame [] s3 s4) by (split; [rewrite H4; reflexivity | intros; congruence]).
  assert (Hx4 : jax_var s4 "x_data" (T1 x_values))
    by (eapply jax_var_frame; [exact F4|apply not_elem_of_nil|exact Hx3]).
  assert (Hy4 : jax_var s4 "y_data" (T1 y))
    by (eapply jax_var_frame; [exact F4|apply not_elem_of_nil|exact Hy3]).
  rewrite (bindM_ok _ _ _ _ _ (load_array_bound s4 "x_data" _ (jax_var_bound _ _ _ Hx4))).
  rewrite (bindM_ok _ _ _ _ _ (load_array_bound s4 "y_data" _ (jax_var_bound _ _ _ Hy4))).
  set (v := ext_solver_run ext (PTuple [Leaf (T0 1%Qc); Leaf (T0 1%Qc)])
              (T1 x_values) (T1 y)).
  destruct (pair_skeleton_inv v) as (a' & b' & Hv).
  { unfold v. rewrite (solver_ok ext Hext). reflexivity. }
  destruct (assign_jax_spec "params" v s4) as (s5 & Hs5 & Hp5 & F5 & O5 & Tr5).
  rewrite (bindM_ok _ _ _ _ _ Hs5).
  rewrite (bindM_ok _ _ _ _ _ (load_bound s5 "params" _ Hp5)).
  rewrite Hv.
  change (index (PTuple [Leaf (T0 a'); Leaf (T0 b')]) 0)
    with (Ok (Leaf (T0 a')) : res (pyval Qc)).
  change (index (PTuple [Leaf (T0 a'); Leaf (T0 b')]) 1)
    with (Ok (Leaf (T0 b')) : res (pyval Qc)).
  rewrite !bindM_lift_ok.
  eexists. split; [reflexivity|]. cbn [trace out heap env]. split; [|split; [|split]].
  - exists y. split; [|split; [|exact Hly]].
    + destruct (jax_var_frame1 "x_data" "params" s4 s5 _ F5 ltac:(discriminate) Hx4)
        as (l & d & ? & ?). exists l, d. auto.
    + destruct (jax_var_frame1 "y_data" "params" s4 s5 _ F5 ltac:(discriminate) Hy4)
        as (l & d & ? & ?). exists l, d. auto.
  - rewrite Tr5, Tr4, Tr3, Tr2, Tr1. reflexivity.
  - rewrite length_app, O5, O4, length_app, O3, O2, O1. simpl. lia.
  - apply frame_output.
    eapply frame_step; [|eapply frame_sub; [exact F5|sub_names]].
    eapply frame_step; [|eapply frame_sub; [exact F4|sub_names]].
    eapply frame_step; [|eapply frame_sub; [exact F3|sub_names]].
    eapply frame_step; [|eapply frame_sub; [exact F2|sub_names]].
    eapply frame_sub; [exact F1|sub_names].
Qed.

Lemma cell_17_spec (s : state) :
  data_ready s →
  ∃ s', cell_17 s = (Ok tt, s') ∧ data_ready s'
        ∧ trace s' = trace s ++ seq 0 100
        ∧ length (out s') = (length (out s) + 10)%nat
        ∧ frame ["learning_rate"; "params_two_layer_nn"; "grad_params_two_layer_nn"] s s'.
Proof.
  intros (y & Hx & Hy & Hly). unfold cell_17.
  destruct (set_var_float_spec "learning_rate" (Q2Qc (1 # 10)) s)
    as (s1 & Hs1 & Hlr1 & F1 & O1 & Tr1).
  rewrite (bindM_ok _ _ _ _ _ Hs1).
  unfold new_jax.
  destruct (alloc_spec JaxArray Cuda0 (T2 10 (repeat (repeat 0%Qc 10) 1)) s1)
    as (l1 & a1 & Ha1 & _ & Hh1 & A1).
  rewrite (bindM_ok _ _ _ _ _ Ha1).
  destruct (alloc_spec JaxArray Cuda0 (T1 (repeat 0%Qc 10)) a1)
    as (l2 & a2 & Ha2 & _ & Hh2 & A2).
  rewrite (bindM_ok _ _ _ _ _ Ha2).
  destruct (alloc_spec JaxArray Cuda0 (T2 10 (repeat (repeat 0%Qc 10) 10)) a2)
    as (l3 & a3 & Ha3 & _ & Hh3 & A3).
  rewrite (bindM_ok _ _ _ _ _ Ha3).
  destruct (alloc_spec JaxArray Cuda0 (T1 (repeat 0%Qc 10)) a3)
    as (l4 & a4 & Ha4 & _ & Hh4 & A4).
  rewrite (bindM_ok _ _ _ _ _ Ha4).
  destruct (alloc_spec JaxArray Cuda0 (T1 (repeat 0%Qc 10)) a4)
    as (l5 & a5 & Ha5 & _ & Hh5 & A5).
  rewrite (bindM_ok _ _ _ _ _ Ha5).
  pose proof (only_added_trans _ _ _ A1 (only_added_trans _ _ _ A2
               (only_added_trans _ _ _ A3 (only_added_trans _ _ _ A4 A5)))) as A15.
  set (p0 := PTuple [Leaf (T2 10 (repeat (repeat 0%Qc 10) 1));
                     Leaf (T1 (repeat 0%Qc 10));
                     Leaf (T2 10 (repeat (repeat 0%Qc 10) 10));
                     Leaf (T1 (repeat 0%Qc 10)); Leaf (T1 (repeat 0%Qc 10));
                     Leaf (T0 0%Qc)] : pyval Qc).
  assert (Hres : resolve (heap a5)
                   (PTuple [Leaf (RArr l1); Leaf (RArr l2); Leaf (RArr l3);
                            Leaf (RArr l4); Leaf (RArr l5); Leaf (RFloat 0%Qc)])
                 = Ok p0).
  { assert (H1 : heap a5 !! l1 = Some (Object JaxArray Cuda0
                                        (T2 10 (repeat (repeat 0%Qc 10) 1)))).
    { apply (only_added_lookup a1); [|rewrite Hh1; apply lookup_insert_eq].
      apply (only_added_trans _ _ _ A2 (only_added_trans _ _ _ A3
               (only_added_trans _ _ _ A4 A5))). }
    assert (H2 : heap a5 !! l2 = Some (Object JaxArray Cuda0 (T1 (repeat 0%Qc 10)))).
    { apply (only_added_lookup a2); [|rewrite Hh2; apply lookup_insert_eq].
      apply (only_added_trans _ _ _ A3 (only_added_trans _ _ _ A4 A5)). }
    assert (H3 : heap a5 !! l3 = Some (Object JaxArray Cuda0
                                        (T2 10 (repeat (repeat 0%Qc 10) 10)))).
    { apply (only_added_lookup a3); [|rewrite Hh3; apply lookup_insert_eq].
      apply (only_added_trans _ _ _ A4 A5). }
    assert (H4 : heap a5 !! l4 = Some (Object JaxArray Cuda0 (T1 (repeat 0%Qc 10)))).
    { apply (only_added_lookup a4); [exact A5|]. rewrite Hh4. apply lookup_insert_eq. }
    assert (H5 : heap a5 !! l5 = Some (Object JaxArray Cuda0 (T1 (repeat 0%Qc 10)))).
    { rewrite Hh5. apply lookup_insert_eq. }
    unfold resolve. cbn [tree_mapM_res mapM_res resolve_ref bind].
    rewrite H1, H2, H3, H4, H5. reflexivity. }
  destruct (set_var_bound "params_two_layer_nn" _ p0 a5 Hres)
    as (s2 & Hs2 & Hp2 & F2 & O2 & Tr2).
  rewrite (bindM_ok _ _ _ _ _ Hs2).
  assert (Hx2 : jax_var s2 "x_data" (T1 x_values)).
  { eapply jax_var_frame1; [exact F2|discriminate|].
    eapply only_added_jax_var; [exact A15|].
    eapply jax_var_frame1; [exact F1|discriminate|exact Hx]. }
  assert (Hy2 : jax_var s2 "y_data" (T1 y)).
  { eapply jax_var_frame1; [exact F2|discriminate|].
    eapply only_added_jax_var; [exact A15|].
    eapply jax_var_frame1; [exact F1|discriminate|exact Hy]. }
  assert (Hready : two_layer_ready x_values y s2).
  { exists p0, (Q2Qc (1 # 10)).
    split; [exact Hx2|]. split; [exact length_x_values|].
    split; [exact Hy2|]. split; [exact Hly|].
    split; [exact Hp2|]. split; [reflexivity|].
    eapply bound_frame1; [exact F2|discriminate|].
    eapply only_added_bound; [exact A15|exact Hlr1]. }
  destruct (two_layer_loop_spec x_values y s2 Hready)
    as (s3 & Hs3 & (p & lr & Hx3 & _ & Hy3 & _) & Tr3 & O3 & F3).
  exists s3. split; [exact Hs3|]. split; [|split; [|split]].
  - exists y. auto.
  - destruct A15 as (_ & _ & _ & Tr15). congruence.
  - destruct A15 as (_ & _ & O15 & _). congruence.
  - eapply frame_step; [|eapply frame_sub; [exact F3|sub_names]].
    eapply frame_step; [|eapply frame_sub; [exact F2|sub_names]].
    eapply frame_step; [|apply only_added_frame; exact A15].
    eapply frame_sub; [exact F1|sub_names].
Qed.

(** ** Stepping through a cell *)

Lemma succeeds_ret {A} (a : A) (s : state) (Q : A → state → Prop) :
  Q a s → succeeds (ret a) s Q.
Proof. intros HQ. exists a, s. split; [reflexivity | exact HQ]. Qed.

Lemma succeeds_bind {A B} (m : M A) (k : A → M B) (s : state)
    (Q : B → state → Prop) :
  succeeds m s (fun a s' => succeeds (k a) s' Q) → succeeds (bindM m k) s Q.
Proof.
  intros (a & s1 & Hm & b & s2 & Hk & HQ). exists b, s2. split; [|exact HQ].
  unfold bindM. rewrite Hm. exact Hk.
Qed.

Lemma succeeds_weaken {A} (m : M A) (s : state) (Q Q' : A → state → Prop) :
  succeeds m s Q → (∀ a s', Q a s' → Q' a s') → succeeds m s Q'.
Proof. intros (a & s' & Hm & HQ) Himp. exists a, s'. split; auto. Qed.

Lemma succeeds_lift_res {A} (r : res A) (a : A) (s : state)
    (Q : A → state → Prop) :
  r = Ok a → Q a s → succeeds (lift_res r) s Q.
Proof. intros -> HQ. exists a, s. split; [reflexivity | exact HQ]. Qed.

Lemma succeeds_load (x : string) (v : pyval Qc) (s : state)
    (Q : pyval Qc → state → Prop) :
  bound s x v → Q v s → succeeds (load x) s Q.
Proof. intros Hb HQ. exists v, s. split; [apply load_bound, Hb | exact HQ]. Qed.

Lemma succeeds_load_array (x : string) (t : tensor Qc) (s : state)
    (Q : tensor Qc → state → Prop) :
  bound s x (Leaf t) → Q t s → succeeds (load_array x) s Q.
Proof.
  intros Hb HQ. exists t, s. split; [apply load_array_bound, Hb | exact HQ].
Qed.

Lemma succeeds_deref_tree (r : pytree ref) (v : pyval Qc) (s : state)
    (Q : pyval Qc → state → Prop) :
  resolve (heap s) r = Ok v → Q v s → succeeds (tree_mapM deref r) s Q.
Proof.
  intros Hr HQ. exists v, s. split; [|exact HQ].
  rewrite load_tree_resolve, Hr. reflexivity.
Qed.

Lemma succeeds_assign_jax (x : string) (r : res (pyval Qc)) (v : pyval Qc)
    (s : state) (Q : unit → state → Prop) :
  r = Ok v →
  (∀ s', bound s' x v → frame [x] s s' → Q tt s') →
  succeeds (assign_jax x r) s Q.
Proof.
  intros -> HQ.
  destruct (assign_jax_spec x v s) as (s' & Hs' & Hb & F & _).
  exists tt, s'. split; [exact Hs' | apply HQ; assumption].
Qed.

Lemma succeeds_assign_jax_array (x : string) (r : res (tensor Qc)) (t : tensor Qc)
    (s : state) (Q : unit → state → Prop) :
  r = Ok t →
  (∀ s', jax_var s' x t → frame [x] s s' → Q tt s') →
  succeeds (assign_jax_array x r) s Q.
Proof.
  intros -> HQ.
  destruct (assign_jax_array_spec x t s) as (s' & Hs' & Hb & F & _).
  exists tt, s'. split; [exact Hs' | apply HQ; assumption].
Qed.

Lemma succeeds_alloc (k : kind) (d : device) (v : tensor Qc) (s : state)
    (Q : ref → state → Prop) :
  (∀ l s', heap s' !! l = Some (Object k d v) → frame [] s s' → Q (RArr l) s') →
  succeeds (alloc k d v) s Q.
Proof.
  intros HQ. destruct (alloc_spec k d v s) as (l & s' & Hs' & _ & Hh & A).
  exists (RArr l), s'. split; [exact Hs'|]. apply HQ.
  - rewrite Hh. apply lookup_insert_eq.
  - apply only_added_frame, A.
Qed.

Lemma succeeds_temp (k : kind) (d : device) (r : res (tensor Qc)) (t : tensor Qc)
    (s : state) (Q : tensor Qc → state → Prop) :
  r = Ok t →
  (∀ s', frame [] s s' → Q t s') →
  succeeds (do v <- lift_res r; do _ <- alloc k d v; ret v) s Q.
Proof.
  intros -> HQ. apply succeeds_bind.
  eapply succeeds_lift_res; [reflexivity|].
  apply succeeds_bind, succeeds_alloc. intros l s' _ F.
  apply succeeds_ret, HQ, F.
Qed.

Lemma succeeds_temp_jax (r : res (tensor Qc)) (t : tensor Qc)
    (s : state) (Q : tensor Qc → state → Prop) :
  r = Ok t →
  (∀ s', frame [] s s' → Q t s') →
  succeeds (temp_jax r) s Q.
Proof. apply succeeds_temp. Qed.

Lemma succeeds_temp_numpy (r : res (tensor Qc)) (t : tensor Qc)
    (s : state) (Q : tensor Qc → state → Prop) :
  r = Ok t →
  (∀ s', frame [] s s' → Q t s') →
  succeeds (temp_numpy r) s Q.
Proof. apply succeeds_temp. Qed.

Lemma succeeds_store_jax (v : pyval Qc) (s : state)
    (Q : pytree ref → state → Prop) :
  (∀ r s', resolve (heap s') r = Ok v → frame [] s s' → Q r s') →
  succeeds (store_jax v) s Q.
Proof.
  intros HQ. destruct (store_jax_spec v s) as (r & s' & Hs' & Hr & _ & A).
  exists r, s'. split; [exact Hs'|]. apply HQ; [exact Hr|].
  apply only_added_frame, A.
Qed.

Lemma succeeds_set_var (x : string) (r : pytree ref) (v : pyval Qc) (s : state)
    (Q : unit → state → Prop) :
  resolve (heap s) r = Ok v →
  (∀ s', bound s' x v → frame [x] s s' → Q tt s') →
  succeeds (set_var x r) s Q.
Proof.
  intros Hr HQ.
  destruct (set_var_bound x r v s Hr) as (s' & Hs' & Hb & F & _).
  exists tt, s'. split; [exact Hs' | apply HQ; assumption].
Qed.

Lemma succeeds_print (line : list printed) (s : state) (Q : unit → state → Prop) :
  (∀ s', frame [] s s' → Q tt s') → succeeds (print line) s Q.
Proof.
  intros HQ. eexists tt, _. split; [reflexivity|]. apply HQ.
  split; [reflexivity | intros; reflexivity].
Qed.

Lemma succeeds_log_iteration (i : nat) (s : state) (Q : unit → state → Prop) :
  (∀ s', frame [] s s' → Q tt s') → succeeds (log_iteration i) s Q.
Proof.
  intros HQ. eexists tt, _. split; [reflexivity|]. apply HQ.
  split; [reflexivity | intros; reflexivity].
Qed.

(** Facts about the state before a step, carried to the state after it. *)
Ltac not_in_names :=
  let H := fresh in
  intros H;
  repeat (apply elem_of_cons in H; destruct H as [H|H]; [discriminate H|]);
  apply elem_of_nil in H; exact H.

Ltac carry s s' F :=
  repeat match goal with
    | H : jax_var s ?x ?t |- _ =>
        first [ apply (jax_var_frame _ s s' x t F ltac:(not_in_names)) in H
              | clear H ]
    | H : bound s ?x ?v |- _ =>
        first [ apply (bound_frame _ s s' x v F ltac:(not_in_names)) in H
              | clear H ]
    | H : heap s !! ?l = Some ?o |- _ =>
        apply (fun H0 => lookup_weaken (heap s) (heap s') l o H0 (proj1 F)) in H
    | H : resolve (heap s) ?r = Ok ?v |- _ =>
        apply (resolve_mono (heap s) (heap s') r v (proj1 F)) in H
    | H : frame ?names ?s0 s |- _ =>
        let H' := fresh in
        pose proof (frame_step names s0 s s' H
                      (frame_sub _ names s s' F ltac:(sub_names))) as H';
        clear H; rename H' into H
    end.

Ltac after_step s :=
  let s' := fresh "s" in
  let F := fresh "F" in
  intros s' F; carry s s' F; clear F; try clear s.

Ltac find_bound :=
  solve [ eassumption | apply jax_var_bound; eassumption ].

Ltac step_prim :=
  lazymatch goal with
  | |- succeeds (ret _) _ _ => apply succeeds_ret
  | |- succeeds (load _) _ _ => eapply succeeds_load; [find_bound|]
  | |- succeeds (load_array _) _ _ => eapply succeeds_load_array; [find_bound|]
  | |- succeeds (print _) ?s _ => apply succeeds_print; after_step s
  | |- succeeds (log_iteration _) ?s _ => apply succeeds_log_iteration; after_step s
  | |- succeeds (lift_res _) _ _ =>
      eapply succeeds_lift_res; [first [eassumption | reflexivity]|]
  | |- succeeds (temp_jax _) ?s _ =>
      eapply succeeds_temp_jax; [first [eassumption | reflexivity] | after_step s]
  | |- succeeds (temp_numpy _) ?s _ =>
      eapply succeeds_temp_numpy; [first [eassumption | reflexivity] | after_step s]
  | |- succeeds (assign_jax_array ?x _) ?s _ =>
      eapply succeeds_assign_jax_array;
      [ first [eassumption | reflexivity]
      | let s' := fresh "s" in
        let Hv := fresh "Hv" in
        let F := fresh "F" in
        intros s' Hv F; carry s s' F; clear F; try clear s ]
  | |- succeeds (assign_jax ?x _) ?s _ =>
      eapply succeeds_assign_jax;
      [ first [eassumption | reflexivity]
      | let s' := fresh "s" in
        let Hv := fresh "Hv" in
        let F := fresh "F" in
        intros s' Hv F; carry s s' F; clear F; try clear s ]
  | |- succeeds (set_var ?x _) ?s _ =>
      eapply succeeds_set_var;
      [ first [eassumption | reflexivity]
      | let s' := fresh "s" in
        let Hv := fresh "Hv" in
        let F := fresh "F" in
        intros s' Hv F; carry s s' F; clear F; try clear s ]
  | |- succeeds (store_jax _) ?s _ =>
      apply succeeds_store_jax;
      let r := fresh "r" in
      let s' := fresh "s" in
      let Hr := fresh "Hr" in
      let F := fresh "F" in
      intros r s' Hr F; carry s s' F; clear F; try clear s
  | |- succeeds (tree_mapM deref _) _ _ =>
      eapply succeeds_deref_tree; [eassumption|]
  end.

Ltac step :=
  lazymatch goal with
  | |- succeeds (bindM _ _) _ _ => apply succeeds_bind; step
  | |- succeeds _ _ _ => step_prim; cbv beta
  end.

(** ** The cells run to completion *)

Lemma dot_square_ok (m : tensor Qc) (n : nat) :
  wf_tensor m = true → shape m = [n; n] → ∃ p, dot m m = Ok p.
Proof.
  intros Hw Hs. destruct (shape_T2_inv m n n Hs) as (rows & -> & Hl).
  rewrite dot_T2_T2 by exact Hl. eexists. reflexivity.
Qed.

Lemma cell_4_ok (ext : externals) (s : state) :
  ext_spec ext →
  succeeds (cell_4 ext) s
    (fun _ s' => frame ["large_numpy_matrix"; "large_jax_matrix"] s s').
Proof.
  intros Hext. pose proof (frame_start ["large_numpy_matrix"; "large_jax_matrix"] s) as Fr.
  destruct (rand_ok ext Hext 5000 5000) as (Hw & Hsh).
  destruct (dot_square_ok _ 5000 Hw Hsh) as (p & Hp).
  unfold cell_4, new_numpy.
  apply succeeds_bind, succeeds_alloc. intros l s1 Hl F. carry s s1 F. clear F.
  assert (Hr : resolve (heap s1) (Leaf (RArr l)) = Ok (Leaf (ext_rand ext 5000 5000))).
  { unfold resolve. cbn [tree_mapM_res resolve_ref bind]. rewrite Hl. reflexivity. }
  step. step. step. step. step. step. step. step.
  exact Fr.
Qed.

Lemma slow_function_ok (ext : externals) :
  ∃ r, slow_function ext (T1 [Qz 1; Qz 2; Qz 3]) = Ok r.
Proof. eexists. reflexivity. Qed.

Lemma cell_5_ok (ext : externals) (s : state) :
  succeeds (cell_5 ext) s (fun _ s' => frame ["result"] s s').
Proof.
  pose proof (frame_start ["result"] s) as Fr.
  destruct (slow_function_ok ext) as (r & Hr).
  unfold cell_5. do 5 step. exact Fr.
Qed.

Lemma cell_6_ok (ext : externals) (s : state) :
  succeeds (cell_6 ext) s (fun _ s' => frame [] s s').
Proof.
  pose proof (frame_start [] s) as Fr.
  destruct (slow_function_ok ext) as (r & Hr).
  unfold cell_6. do 3 step. exact Fr.
Qed.

Lemma cell_7_ok (s : state) :
  succeeds cell_7 s (fun _ s' => frame ["x"] s s').
Proof.
  pose proof (frame_start ["x"] s) as Fr.
  unfold cell_7, for_range. cbn [seq for_indices jitted_function].
  repeat step. exact Fr.
Qed.

Lemma cell_16_ok (s : state) :
  data_ready s → succeeds cell_16 s (fun _ s' => frame [] s s').
Proof.
  intros (y & Hx & Hy & Hly). pose proof (frame_start [] s) as Fr.
  assert (Hg : ∃ g, gradient (Leaf (T1 [0%Qc; 0%Qc])) (T1 x_values) (T1 y) = Ok g).
  { eexists. apply gradient_linear_value; [|exact x_values_nonempty].
    rewrite length_x_values. congruence. }
  destruct Hg as (g & Hg).
  unfold cell_16. repeat step. exact Fr.
Qed.

Lemma cell_19_ok (s : state) :
  succeeds cell_19 s (fun _ s' => frame ["xs"; "squared"] s s'
                                  ∧ jax_var s' "xs" (T1 [Qz 1; Qz 2; Qz 3; Qz 4])).
Proof.
  pose proof (frame_start ["xs"; "squared"] s) as Fr.
  unfold cell_19. do 2 step.
  eapply succeeds_assign_jax_array; [apply squared_loop_T1|].
  intros s' _ F. carry s0 s' F. split; assumption.
Qed.

Lemma cell_20_ok (s : state) :
  jax_var s "xs" (T1 [Qz 1; Qz 2; Qz 3; Qz 4]) →
  succeeds cell_20 s (fun _ s' => frame ["squared"] s s').
Proof.
  intros Hxs. pose proof (frame_start ["squared"] s) as Fr.
  unfold cell_20. step.
  eapply succeeds_assign_jax_array; [apply batched_square_T1|].
  intros s' _ F. carry s s' F. assumption.
Qed.

Lemma cell_21_ok (s : state) :
  jax_var s "jax_array" jax_array_value →
  succeeds cell_21 s (fun _ s' => frame [] s s').
Proof.
  intros Ha. pose proof (frame_start [] s) as Fr.
  destruct (is_ok_true (matrix_matrix jax_array_value jax_array_value))
    as (mm & Hmm); [vm_compute; reflexivity|].
  destruct (is_ok_true (dot jax_array_value jax_array_value))
    as (d & Hd); [vm_compute; reflexivity|].
  destruct (is_ok_true (matrix_matrix_transpose jax_array_value jax_array_value))
    as (t & Ht); [vm_compute; reflexivity|].
  unfold cell_21. repeat step. exact Fr.
Qed.

Lemma cell_22_ok (s : state) : succeeds cell_22 s (fun _ s' => frame [] s s').
Proof.
  pose proof (frame_start [] s) as Fr. unfold cell_22. step. exact Fr.
Qed.

Lemma cell_19b_ok (s : state) :
  succeeds cell_19b s (fun _ s' => frame ["leaf"; "tree"] s s').
Proof.
  pose proof (frame_start ["leaf"; "tree"] s) as Fr.
  unfold cell_19b. repeat step. exact Fr.
Qed.

Lemma cell_24_ok (s : state) :
  succeeds cell_24 s (fun _ s' => frame ["tree"; "result"] s s').
Proof.
  pose proof (frame_start ["tree"; "result"] s) as Fr.
  unfold cell_24. repeat step. exact Fr.
Qed.

Lemma slices_pair (ext : externals) (seed : nat) :
  ext_spec ext →
  ∃ rows1 rows2,
    ext_normal_slices ext seed 2 [10; 10]%nat = [T2 10 rows1; T2 10 rows2]
    ∧ (length rows1 = 10%nat ∧ Forall (fun row => length row = 10%nat) rows1)
    ∧ (length rows2 = 10%nat ∧ Forall (fun row => length row = 10%nat) rows2).
Proof.
  intros Hext.
  destruct (slices_ok ext Hext seed 2 [10; 10]%nat) as (Hlen & Hall); [simpl; lia|].
  destruct (ext_normal_slices ext seed 2 [10; 10]%nat) as [|t1 [|t2 [|t3 rest]]];
    try discriminate Hlen.
  apply Forall_cons in Hall as ((Hw1 & Hs1) & Hall).
  apply Forall_cons in Hall as ((Hw2 & Hs2) & _).
  destruct (shape_T2_inv t1 10 10 Hs1) as (rows1 & -> & Hl1).
  destruct (shape_T2_inv t2 10 10 Hs2) as (rows2 & -> & Hl2).
  apply wf_tensor_T2 in Hw1, Hw2.
  exists rows1, rows2. repeat split; assumption.
Qed.

Lemma pmap_multiply_ok (a1 a2 b1 b2 : list (list Qc)) :
  Forall (fun row => length row = 10%nat) a1 →
  Forall (fun row => length row = 10%nat) a2 →
  length b1 = 10%nat → length b2 = 10%nat →
  ∃ r1 r2,
    pmap_multiply (PTuple [Leaf (T2 10 a1); Leaf (T2 10 a2)])
                  (PTuple [Leaf (T2 10 b1); Leaf (T2 10 b2)])
    = Ok (PTuple [Leaf r1; Leaf r2]).
Proof.
  intros Ha1 Ha2 Hb1 Hb2. unfold pmap_multiply.
  cbn [py_iter bind zipM_res as_array].
  rewrite (matrix_matrix_entries 10 10 a1 b1 Ha1 Hb1).
  cbn [bind].
  rewrite (matrix_matrix_entries 10 10 a2 b2 Ha2 Hb2).
  eexists _, _. reflexivity.
Qed.

Lemma cell_23_ok (ext : externals) (s : state) :
  ext_spec ext →
  succeeds (cell_23 ext) s
    (fun _ s' => frame ["x_sharded"; "y_sharded"; "result"] s s').
Proof.
  intros Hext. pose proof (frame_start ["x_sharded"; "y_sharded"; "result"] s) as Fr.
  destruct (slices_pair ext 123 Hext) as (a1 & a2 & Ea & (_ & Ha1) & (_ & Ha2)).
  destruct (slices_pair ext 456 Hext) as (b1 & b2 & Eb & (Hb1 & _) & (Hb2 & _)).
  destruct (pmap_multiply_ok a1 a2 b1 b2 Ha1 Ha2 Hb1 Hb2) as (r1 & r2 & Hr).
  unfold cell_23. rewrite Ea, Eb. cbn [map].
  do 7 step. cbn [length seq for_indices lookup list_lookup as_array].
  repeat step. exact Fr.
Qed.

Lemma expand_last_column (x : list Qc) (n : nat) :
  length x = n →
  ∃ x_col, expand_last (T1 x) = Ok x_col
           ∧ wf_tensor x_col = true ∧ shape x_col = [n; 1]%nat.
Proof.
  intros Hn. eexists. split; [reflexivity|]. split.
  - apply wf_tensor_T2, Forall_forall. intros row Hin.
    apply list_elem_of_In, in_map_iff in Hin as (q & <- & _). reflexivity.
  - simpl. rewrite length_map, Hn. reflexivity.
Qed.

Lemma first_update_ok (normal : nat → list nat → tensor Qc) (x y : tensor Qc) :
  normal_spec normal →
  wf_tensor x = true → shape x = [1000; 1]%nat →
  wf_tensor y = true → shape y = [1000; 1]%nat →
  ∃ g u,
    grad_fn (init_network normal 1 10 1) x y = Ok g
    ∧ tree_map2 (fun p g => let* lg := tmul (T0 default_learning_rate) g in tsub p lg)
        (init_network normal 1 10 1) g = Ok u
    ∧ print_leaf_shapes u [] = Ok cell29_output.
Proof.
  intros Hn Hwx Hsx Hwy Hsy.
  pose proof (init_network_loss_ok normal x y Hn Hwx Hsx Hwy Hsy) as Hok.
  destruct (gradient_descent_step_skeleton (init_network normal 1 10 1) x y
              default_learning_rate (init_network_keys_unique normal) Hok)
    as (u & Hstep & Hsk).
  destruct (grad_fn_total _ x y Hok) as (g & Hg & _).
  unfold gradient_descent_step in Hstep. rewrite Hg in Hstep. cbn [bind] in Hstep.
  exists g, u. split; [exact Hg|]. split; [exact Hstep|].
  rewrite print_leaf_shapes_skeleton, Hsk, (init_network_skeleton normal Hn).
  reflexivity.
Qed.

Lemma cell_29_ok (ext : externals) (s : state) :
  ext_spec ext → data_ready s →
  succeeds (cell_29 ext) s (fun _ s' => frame ["update"] s s').
Proof.
  intros Hext (y & Hx & Hy & Hly). pose proof (frame_start ["update"] s) as Fr.
  destruct (expand_last_column x_values 1000 length_x_values)
    as (x_col & Ex & Hwx & Hsx).
  destruct (expand_last_column y 1000 Hly) as (y_col & Ey & Hwy & Hsy).
  destruct (first_update_ok (ext_normal ext) x_col y_col (normal_ok ext Hext)
              Hwx Hsx Hwy Hsy) as (g & u & Hg & Hu & Hlines).
  unfold cell_29, gradient_descent_step_M.
  repeat step. cbn [cell29_output mapM_M].
  repeat step. exact Fr.
Qed.

(** ** The cells in sequence *)

Lemma run_cells_app (l1 l2 : list (M unit)) (s : state) :
  run_cells (l1 ++ l2) s
  = match run_cells l1 s with
    | (Ok _, s') => run_cells l2 s'
    | (Err e, s') => (Err e, s')
    end.
Proof.
  revert s. induction l1 as [|c l1 IH]; intros s; [reflexivity|].
  cbn [app run_cells]. unfold bindM.
  destruct (c s) as [[[]|e] s1]; [apply IH | reflexivity].
Qed.

Lemma succeeds_run_cells_cons (c : M unit) (rest : list (M unit)) (s : state)
    (Q : unit → state → Prop) :
  succeeds c s (fun _ s' => succeeds (run_cells rest) s' Q) →
  succeeds (run_cells (c :: rest)) s Q.
Proof. apply succeeds_bind. Qed.

(** The first three cells, from the empty state: they end with
    [jax_array] naming a JAX array with the contents it was created with. *)
Lemma first_cells_run :
  ∃ s, run (run_cells [cell_1; cell_2; cell_3]) initial_state = (Ok tt, s)
       ∧ jax_var s "jax_array" jax_array_value.
Proof.
  exists (snd (run (run_cells [cell_1; cell_2; cell_3]) initial_state)). split.
  - vm_compute. reflexivity.
  - exists 4%nat, Cpu0. split; vm_compute; reflexivity.
Qed.

Lemma cell_8_ok (ext : externals) (s : state) :
  ext_spec ext →
  succeeds (cell_8 ext) s
    (fun _ s' => frame ["true_m"; "true_b"; "x_data"; "y_data"] s s' ∧ data_ready s').
Proof.
  intros Hext.
  destruct (cell_8_spec ext s (normal_ok ext Hext)) as (s' & Hrun & Hready & _ & _ & F).
  exists tt, s'. auto.
Qed.

Lemma cell_11_ok (ext : externals) (s : state) :
  ext_spec ext → data_ready s →
  succeeds (cell_11 ext) s
    (fun _ s' => frame ["learning_rate"; "params"; "grad_params"] s s').
Proof.
  intros Hext Hready.
  destruct (cell_11_spec ext s Hext Hready) as (s' & Hrun & _ & _ & _ & F).
  exists tt, s'. auto.
Qed.

Lemma cell_17_ok (s : state) :
  data_ready s →
  succeeds cell_17 s
    (fun _ s' => frame ["learning_rate"; "params_two_layer_nn";
                        "grad_params_two_layer_nn"] s s').
Proof.
  intros Hready.
  destruct (cell_17_spec s Hready) as (s' & Hrun & _ & _ & _ & F).
  exists tt, s'. auto.
Qed.

Ltac carry_all s s' F :=
  repeat match goal with
    | H : data_ready s |- _ =>
        first [ apply (data_ready_frame _ s s' F ltac:(not_in_names)
                         ltac:(not_in_names)) in H
              | clear H ]
    end;
  carry s s' F.

(** One cell of a sequence: the cell's lemma, then the facts carried over. *)
Ltac next_cell lem :=
  apply succeeds_run_cells_cons;
  eapply succeeds_weaken; [ apply lem; assumption | ];
  cbv beta;
  lazymatch goal with
  | |- ∀ (_ : unit) (s' : state), frame _ ?s s' ∧ _ → _ =>
      let u := fresh in
      let s' := fresh "s" in
      let F := fresh "F" in
      let H := fresh "Hnew" in
      intros u s' [F H]; carry_all s s' F; clear F
  | |- ∀ (_ : unit) (s' : state), frame _ ?s s' → _ =>
      let u := fresh in
      let s' := fresh "s" in
      let F := fresh "F" in
      intros u s' F; carry_all s s' F; clear F
  end.

Lemma later_cells_run (ext : externals) (s : state) :
  ext_spec ext → jax_var s "jax_array" jax_array_value →
  succeeds
    (run_cells [cell_4 ext; cell_5 ext; cell_6 ext; cell_7; cell_8 ext;
                cell_16; cell_11 ext; cell_17; cell_19; cell_20; cell_21; cell_22;
                cell_23 ext; cell_19b; cell_24; cell_29 ext])
    s (fun _ _ => True).
Proof.
  intros Hext Ha.
  next_cell cell_4_ok. next_cell cell_5_ok. next_cell cell_6_ok.
  next_cell cell_7_ok. next_cell cell_8_ok. next_cell cell_16_ok.
  next_cell cell_11_ok. next_cell cell_17_ok. next_cell cell_19_ok.
  next_cell cell_20_ok. next_cell cell_21_ok. next_cell cell_22_ok.
  next_cell cell_23_ok. next_cell cell_19b_ok. next_cell cell_24_ok.
  next_cell cell_29_ok.
  apply succeeds_ret. exact I.
Qed.

(** ** No cell changes a JAX array *)

Ltac stable_prim :=
  lazymatch goal with
  | |- stable (ret _) => apply stable_ret
  | |- stable (raise _) => apply stable_raise
  | |- stable (lift_res _) => apply stable_lift_res
  | |- stable (alloc _ _ _) => apply stable_alloc
  | |- stable (new_jax _) => apply stable_alloc
  | |- stable (new_numpy _) => apply stable_alloc
  | |- stable (get_object _) => apply stable_get_object
  | |- stable (get_var _) => apply stable_get_var
  | |- stable (set_var _ _) => apply stable_set_var
  | |- stable (print _) => apply stable_print
  | |- stable (log_iteration _) => apply stable_log_iteration
  | |- stable (deref _) => apply stable_deref
  | |- stable (setitem _ _ _ _) => apply stable_setitem
  | |- stable (isub _ _) => apply stable_isub
  | |- stable (when _ _) => apply stable_when
  | |- stable (try_except_TypeError _ _) => apply stable_try_except
  | |- stable (for_range _ _) => apply stable_for_range
  | |- stable (for_indices _ _) => apply stable_for_indices
  | |- stable (mapM_M _ _) => apply stable_mapM_M
  | |- stable (tree_mapM _ _) => apply stable_tree_mapM
  | |- stable (bindM _ _) => apply stable_bind
  | |- stable (match ?x with _ => _ end) => destruct x
  | |- Forall _ _ => apply Forall_forall
  | |- ∀ _, _ => intro
  end.

Lemma stable_load (x : string) : stable (load x).
Proof. unfold load. repeat stable_prim. Qed.

Lemma stable_load_array (x : string) : stable (load_array x).
Proof.
  unfold load_array. apply stable_bind; [apply stable_load | intros v].
  apply stable_lift_res.
Qed.

Lemma stable_store_jax (v : pyval Qc) : stable (store_jax v).
Proof. unfold store_jax. repeat stable_prim. Qed.

Lemma stable_assign_jax (x : string) (v : res (pyval Qc)) : stable (assign_jax x v).
Proof.
  unfold assign_jax. apply stable_bind; [apply stable_lift_res | intros val].
  apply stable_bind; [apply stable_store_jax | intros r; apply stable_set_var].
Qed.

Lemma stable_assign_jax_array (x : string) (v : res (tensor Qc)) :
  stable (assign_jax_array x v).
Proof. apply stable_assign_jax. Qed.

Lemma stable_temp_jax (v : res (tensor Qc)) : stable (temp_jax v).
Proof. unfold temp_jax. repeat stable_prim. Qed.

Lemma stable_temp_numpy (v : res (tensor Qc)) : stable (temp_numpy v).
Proof. unfold temp_numpy. repeat stable_prim. Qed.

Lemma stable_the_ref (v : pytree ref) : stable (the_ref v).
Proof. unfold the_ref. repeat stable_prim. Qed.

Lemma stable_device_put (r : ref) (d : device) : stable (device_put r d).
Proof. unfold device_put. repeat stable_prim. Qed.

Lemma stable_device_of (r : ref) : stable (device_of r).
Proof. unfold device_of. repeat stable_prim. Qed.

Lemma stable_jitted_function (jit_enabled : bool) (call : nat) (x : tensor Qc) :
  stable (jitted_function jit_enabled call x).
Proof. unfold jitted_function. repeat stable_prim. Qed.

Ltac stable_step :=
  lazymatch goal with
  | |- stable (load _) => apply stable_load
  | |- stable (load_array _) => apply stable_load_array
  | |- stable (store_jax _) => apply stable_store_jax
  | |- stable (assign_jax _ _) => apply stable_assign_jax
  | |- stable (assign_jax_array _ _) => apply stable_assign_jax_array
  | |- stable (temp_jax _) => apply stable_temp_jax
  | |- stable (temp_numpy _) => apply stable_temp_numpy
  | |- stable (the_ref _) => apply stable_the_ref
  | |- stable (device_put _ _) => apply stable_device_put
  | |- stable (device_of _) => apply stable_device_of
  | |- stable (jitted_function _ _ _) => apply stable_jitted_function
  | |- _ => stable_prim
  end.

Lemma stable_gradient_descent_step_M (params : pytree ref) (x y : tensor Qc) (lr : Qc) :
  stable (gradient_descent_step_M params x y lr).
Proof. unfold gradient_descent_step_M. repeat stable_step. Qed.

Lemma stable_linear_regression_step (i : nat) : stable (linear_regression_step i).
Proof. unfold linear_regression_step. repeat stable_step. Qed.

Lemma stable_two_layer_step (i : nat) : stable (two_layer_step i).
Proof. unfold two_layer_step. repeat stable_step. Qed.

Ltac stable_cell :=
  repeat lazymatch goal with
    | |- stable (linear_regression_step _) => apply stable_linear_regression_step
    | |- stable (two_layer_step _) => apply stable_two_layer_step
    | |- stable (gradient_descent_step_M _ _ _ _) =>
        apply stable_gradient_descent_step_M
    | |- _ => stable_step
    end.

Lemma stable_notebook_cell (ext : externals) (c : M unit) :
  c ∈ notebook_cells ext → stable c.
Proof.
  unfold notebook_cells. intros Hin.
  repeat (apply elem_of_cons in Hin; destruct Hin as [->|Hin]);
    [ unfold cell_1 | unfold cell_2 | unfold cell_3 | unfold cell_4
    | unfold cell_5 | unfold cell_6 | unfold cell_7 | unfold cell_8
    | unfold cell_16
    | unfold cell_11, linear_regression_loop
    | unfold cell_17, two_layer_loop
    | unfold cell_19 | unfold cell_20 | unfold cell_21 | unfold cell_22
    | unfold cell_23 | unfold cell_19b | unfold cell_24
    | unfold cell_29
    | apply elem_of_nil in Hin; destruct Hin ];
    stable_cell.
Qed.

Lemma stable_run_cells (cells : list (M unit)) :
  Forall stable cells → stable (run_cells cells).
Proof.
  induction 1 as [|c rest Hc _ IH]; cbn [run_cells].
  - apply stable_ret.
  - apply stable_bind; [exact Hc | intros _; exact IH].
Qed.

(** ** Updates bind new arrays *)

(** [x -= delta] on a name bound to a JAX array: the result is a new
    object, the name is rebound to it, and the old object is as it was. *)
Lemma isub_rebinds (x : string) (l : nat) (d : device) (t delta t' : tensor Qc)
    (s : state) :
  env s !! x = Some (Leaf (RArr l)) →
  heap s !! l = Some (Object JaxArray d t) →
  tsub t delta = Ok t' →
  ∃ l' s', isub x delta s = (Ok tt, s')
           ∧ heap s !! l' = None
           ∧ env s' !! x = Some (Leaf (RArr l'))
           ∧ heap s' !! l' = Some (Object JaxArray Cuda0 t')
           ∧ heap s' !! l = Some (Object JaxArray d t).
Proof.
  intros Hx Hl Hsub.
  unfold isub, bindM, get_var, get_object, lift_res. rewrite Hx, Hl. simpl.
  rewrite Hsub. pose proof (fresh_loc_None (heap s)) as Hf.
  exists (fresh_loc (heap s)). eexists. split; [reflexivity|]. simpl.
  split; [exact Hf|]. rewrite !lookup_insert_eq. split; [reflexivity|].
  split; [reflexivity|].
  rewrite lookup_insert_ne; [exact Hl|]. intros Heq. rewrite Heq in Hf. congruence.
Qed.

(** [gradient_descent_step] on references: the updated parameters are
    new arrays, and the arrays of [params] still hold their values. *)
Lemma gradient_descent_step_M_fresh (params : pytree ref) (p u : pyval Qc)
    (x y : tensor Qc) (lr : Qc) (s : state) :
  resolve (heap s) params = Ok p →
  gradient_descent_step p x y lr = Ok u →
  ∃ r s', gradient_descent_step_M params x y lr s = (Ok r, s')
          ∧ resolve (heap s') r = Ok u
          ∧ Forall (fresh_ref (heap s)) (leaves r)
          ∧ resolve (heap s') params = Ok p
          ∧ heap s ⊆ heap s'.
Proof.
  intros Hp Hstep. unfold gradient_descent_step in Hstep.
  apply bind_Ok_inv in Hstep as (g & Hg & Hu).
  unfold gradient_descent_step_M.
  rewrite (bindM_ok _ _ _ _ _ (eq_trans (load_tree_resolve params s) (f_equal (fun r => (r, s)) Hp))).
  rewrite Hg, bindM_lift_ok.
  destruct (store_jax_spec g s) as (gr & s1 & Hs1 & Hgr & _ & A1).
  rewrite (bindM_ok _ _ _ _ _ Hs1).
  rewrite (bindM_ok _ _ _ _ _ (eq_trans (load_tree_resolve gr s1) (f_equal (fun r => (r, s1)) Hgr))).
  rewrite Hu, bindM_lift_ok.
  destruct (store_jax_spec u s1) as (r & s2 & Hs2 & Hr & Hfresh & A2).
  exists r, s2. split; [exact Hs2|]. split; [exact Hr|].
  pose proof (proj1 (proj1 A1)) as H01. pose proof (proj1 (proj1 A2)) as H12.
  split; [|split].
  - eapply Forall_impl; [exact Hfresh|]. intros r0. apply fresh_ref_weaken, H01.
  - eapply resolve_mono; [|exact Hp]. etrans; eassumption.
  - etrans; eassumption.
Qed.

(** ** C3: JAX arrays are immutable *)

(** C3.  Immutability invariant.  (1) Whatever cells of the notebook are
    run, in whatever order and from whatever state, every JAX array of
    the store is found afterwards at its location with the same contents,
    whether the cells return or raise.  (2) [x -= delta] on a name bound
    to a JAX array (as in [params -= learning_rate * grad_params]) makes
    a new array, rebinds the name to it, and leaves the old array as it
    was.  (3) [gradient_descent_step] returns arrays that are all new,
    holding the updated values, and the arrays of its [params] argument
    still hold theirs.  (4) Each of the three operations that write to
    the store (array creation, item assignment, [-=]) leaves every JAX
    array as it was, from any state. *)
Theorem jax_arrays_are_immutable :
  (∀ (ext : externals) (cells : list (M unit)) (s : state) (l : nat) (o : object),
      Forall (fun c => c ∈ notebook_cells ext) cells →
      heap s !! l = Some o → obj_kind o = JaxArray →
      heap (snd (run (run_cells cells) s)) !! l = Some o)
  ∧ (∀ (x : string) (l : nat) (d : device) (t delta t' : tensor Qc) (s : state),
        env s !! x = Some (Leaf (RArr l)) →
        heap s !! l = Some (Object JaxArray d t) →
        tsub t delta = Ok t' →
        ∃ l' s', run (isub x delta) s = (Ok tt, s')
                 ∧ heap s !! l' = None
                 ∧ env s' !! x = Some (Leaf (RArr l'))
                 ∧ heap s' !! l' = Some (Object JaxArray Cuda0 t')
                 ∧ heap s' !! l = Some (Object JaxArray d t))
  ∧ (∀ (params : pytree ref) (p u : pyval Qc) (x y : tensor Qc) (lr : Qc) (s : state),
        resolve (heap s) params = Ok p →
        gradient_descent_step p x y lr = Ok u →
        ∃ r s', run (gradient_descent_step_M params x y lr) s = (Ok r, s')
                ∧ resolve (heap s') r = Ok u
                ∧ Forall (fresh_ref (heap s)) (leaves r)
                ∧ resolve (heap s') params = Ok p)
  ∧ ((∀ (k : kind) (d : device) (v : tensor Qc), stable (alloc k d v))
     ∧ (∀ (x : string) (i j : nat) (q : Qc), stable (setitem x i j q))
     ∧ (∀ (x : string) (delta : tensor Qc), stable (isub x delta))).
Proof.
  split; [|split; [|split]].
  - intros ext cells s l o Hcells Hl Hk.
    assert (Hst : stable (run_cells cells)).
    { apply stable_run_cells. eapply Forall_impl; [exact Hcells|].
      intros c. apply stable_notebook_cell. }
    exact (Hst s l o Hl Hk).
  - intros x l d t delta t' s Hx Hl Hsub.
    exact (isub_rebinds x l d t delta t' s Hx Hl Hsub).
  - intros params p u x y lr s Hp Hstep.
    destruct (gradient_descent_step_M_fresh params p u x y lr s Hp Hstep)
      as (r & s' & Hrun & Hr & Hfresh & Hold & _).
    exists r, s'. auto.
  - split; [|split].
    + exact stable_alloc.
    + exact stable_setitem.
    + exact stable_isub.
Qed.

Lemma jax_arrays_are_immutable_witness :
  heap (snd (run (run_cells [cell_2; cell_3; cell_19])
               (snd (run cell_1 initial_state)))) !! 2%nat
  = Some (Object JaxArray Cuda0 jax_array_value)
  ∧ (∃ l' s', run (isub "jax_ones" (T1 (repeat 1%Qc 10)))
                (snd (run cell_1 initial_state)) = (Ok tt, s')
              ∧ heap (snd (run cell_1 initial_state)) !! l' = None
              ∧ env s' !! "jax_ones" = Some (Leaf (RArr l'))
              ∧ heap s' !! l' = Some (Object JaxArray Cuda0 (T1 (repeat 0%Qc 10)))
              ∧ heap s' !! 3%nat = Some (Object JaxArray Cuda0 (T1 (repeat 1%Qc 10))))
  ∧ (∃ r s', run (gradient_descent_step_M
                    (PDict [("layer1", PDict [("weights", Leaf (RFloat 1%Qc));
                                              ("biases", Leaf (RFloat 0%Qc))]);
                            ("layer2", PDict [("weights", Leaf (RFloat 1%Qc));
                                              ("biases", Leaf (RFloat 0%Qc))])])
                    (T0 1%Qc) (T0 0%Qc) 1%Qc) initial_state = (Ok r, s')
             ∧ resolve (heap s') r
               = Ok (PDict [("layer1", PDict [("biases", Leaf (T0 (Qz (-2))));
                                              ("weights", Leaf (T0 (Qz (-1))))]);
                            ("layer2", PDict [("biases", Leaf (T0 (Qz (-2))));
                                              ("weights", Leaf (T0 (Qz (-1))))])])
             ∧ Forall (fresh_ref (heap initial_state)) (leaves r)
             ∧ resolve (heap s') (PDict [("layer1", PDict [("weights", Leaf (RFloat 1%Qc));
                                              ("biases", Leaf (RFloat 0%Qc))]);
                            ("layer2", PDict [("weights", Leaf (RFloat 1%Qc));
                                              ("biases", Leaf (RFloat 0%Qc))])])
               = Ok (PDict [("layer1", PDict [("weights", Leaf (T0 1%Qc));
                                              ("biases", Leaf (T0 0%Qc))]);
                            ("layer2", PDict [("weights", Leaf (T0 1%Qc));
                                              ("biases", Leaf (T0 0%Qc))])])).
Proof.
  destruct jax_arrays_are_immutable as (H1 & H2 & H3 & _).
  split; [|split].
  - apply (H1 zero_externals).
    + repeat constructor.
    + vm_compute. reflexivity.
    + reflexivity.
  - apply (H2 "jax_ones" 3%nat Cuda0 (T1 (repeat 1%Qc 10))).
    + vm_compute. reflexivity.
    + vm_compute. reflexivity.
    + vm_compute. reflexivity.
  - apply H3.
    + vm_compute. reflexivity.
    + vm_compute. reflexivity.
Defined.

(** ** C4: item assignment on a JAX array *)

(** C4.  Item assignment on a name bound to a JAX array raises
    [TypeError] and changes nothing; cell 2, run after cell 1, prints
    the message of that error and returns normally, and afterwards
    [jax_array] still names the array [[1, 2], [3, 4]] while the NumPy
    array has been updated in place; the handler takes a [TypeError]
    and lets every other exception through; and the [try] statement of
    cell 2 is the only one in the notebook's code. *)
Theorem item_assignment_is_caught :
  (∀ (s : state) (x : string) (l : nat) (d : device) (t : tensor Qc)
     (i j : nat) (q : Qc),
      env s !! x = Some (Leaf (RArr l)) →
      heap s !! l = Some (Object JaxArray d t) →
      run (setitem x i j q) s = (Err (TypeError jax_setitem_message), s))
  ∧ (∃ s1 s2,
        run cell_1 initial_state = (Ok tt, s1)
        ∧ run cell_2 s1 = (Ok tt, s2)
        ∧ out s2 = out s1 ++ [[PStr "Exeption raised: "; PStr jax_setitem_message]]
        ∧ env s1 !! "jax_array" = Some (Leaf (RArr 2))
        ∧ env s2 !! "jax_array" = Some (Leaf (RArr 2))
        ∧ heap s1 !! 2%nat = Some (Object JaxArray Cuda0 jax_array_value)
        ∧ heap s2 !! 2%nat = Some (Object JaxArray Cuda0 jax_array_value)
        ∧ bound s1 "numpy_array" (Leaf (T2 2 [[Qz 1; Qz 2]; [Qz 3; Qz 4]]))
        ∧ bound s2 "numpy_array" (Leaf (T2 2 [[Qz 1; Qz 2]; [Qz 3; Qz 0]])))
  ∧ (∀ (body : M unit) (handler : string → M unit) (s s' : state) (msg : string),
        body s = (Err (TypeError msg), s') →
        run (try_except_TypeError body handler) s = run (handler msg) s')
  ∧ (∀ (body : M unit) (handler : string → M unit) (s s' : state) (e : exn),
        body s = (Err e, s') → (∀ msg, e ≠ TypeError msg) →
        run (try_except_TypeError body handler) s = (Err e, s'))
  ∧ filter (fun s => is_try s) (statements notebook_source)
    = [Try [Simple "jax_array[1, 1] = 0" []] "TypeError"
           [Simple "print(f'Exeption raised: {err}')" []]]
  ∧ filter (fun cell => existsb is_try (concat (map subterms cell))) notebook_source
    = [source_cell_2].
Proof.
  split; [|split; [|split; [|split; [|split]]]].
  - intros s x l d t i j q Hx Hl.
    unfold run, setitem, bindM, get_var, get_object. rewrite Hx, Hl. reflexivity.
  - exists (snd (run cell_1 initial_state)),
           (snd (run cell_2 (snd (run cell_1 initial_state)))).
    split; [vm_compute; reflexivity|].
    split; [vm_compute; reflexivity|].
    split; [vm_compute; reflexivity|].
    split; [vm_compute; reflexivity|].
    split; [vm_compute; reflexivity|].
    split; [vm_compute; reflexivity|].
    split; [vm_compute; reflexivity|].
    split; exists (Leaf (RArr 0)); split; vm_compute; reflexivity.
  - intros body handler s s' msg Hbody.
    unfold run, try_except_TypeError. rewrite Hbody. reflexivity.
  - intros body handler s s' e Hbody Hne.
    unfold run, try_except_TypeError. rewrite Hbody.
    destruct e; try reflexivity. destruct (Hne msg). reflexivity.
  - vm_compute. reflexivity.
  - vm_compute. reflexivity.
Qed.

Lemma item_assignment_is_caught_witness :
  run (setitem "jax_array" 1 1 0%Qc) (snd (run cell_1 initial_state))
  = (Err (TypeError jax_setitem_message), snd (run cell_1 initial_state))
  ∧ run (try_except_TypeError (setitem "jax_array" 1 1 0%Qc)
           (fun err => print [PStr "Exeption raised: "; PStr err]))
        (snd (run cell_1 initial_state))
    = run (print [PStr "Exeption raised: "; PStr jax_setitem_message])
        (snd (run cell_1 initial_state))
  ∧ run (try_except_TypeError (raise (ValueError "index out of bounds"))
           (fun err => print [PStr "Exeption raised: "; PStr err]))
        initial_state
    = (Err (ValueError "index out of bounds"), initial_state).
Proof.
  destruct item_assignment_is_caught as (H1 & _ & H3 & H4 & _).
  split; [|split].
  - apply (H1 _ "jax_array" 2%nat Cuda0 jax_array_value).
    + vm_compute. reflexivity.
    + vm_compute. reflexivity.
  - apply (H3 (setitem "jax_array" 1 1 0%Qc)
                (fun err => print [PStr "Exeption raised: "; PStr err])
                _ _ jax_setitem_message).
    vm_compute. reflexivity.
  - apply H4; [reflexivity|]. intros msg. discriminate.
Defined.

(** ** C5: the shapes are compatible *)

Lemma has_shape_skeleton {A} (t : tensor A) (sh : list nat) :
  has_shape t sh → skeleton t = unit_tensor sh.
Proof. intros [Hw Hs]. apply skeleton_of_shape; assumption. Qed.

Lemma ok_of_skeleton {A} (r : res (tensor A)) (u : tensor unit) :
  res_map skeleton r = Ok u → ∃ t, r = Ok t ∧ shape t = shape u.
Proof.
  intros Hr. apply res_map_Ok_inv in Hr as (t & -> & <-).
  exists t. split; [reflexivity|]. symmetry. apply shape_skeleton.
Qed.

Lemma two_layer_model_shapes :
  two_layer_nn_model (unit_tensor [1000; 1]%nat) (unit_tensor [1; 10]%nat)
    (unit_tensor [10]%nat) (unit_tensor [10; 10]%nat) (unit_tensor [10]%nat)
    (unit_tensor [10]%nat) (unit_tensor [])
  = Ok (unit_tensor [1000]%nat).
Proof. vm_compute. reflexivity. Qed.

Lemma forward_shapes :
  forward init_skeleton (unit_tensor [1000; 1]%nat)
  = Ok (unit_tensor [1000; 1]%nat).
Proof. vm_compute. reflexivity. Qed.

(** C5.  The cells of the notebook, run in order from the empty state,
    all return: no operation raises, whatever the random draws and the
    optimizer's result are, as long as the draws have the requested
    shapes and the optimizer returns a pair of scalars.  In particular
    [two_layer_nn_model] on an input of shape (1000, 1) and parameters of
    the shapes of the zero-initialised tuple returns an array of shape
    (1000,), and [forward] with [init_network(1, 10, 1)] on an input of
    shape (1000, 1) returns an array of shape (1000, 1), whose loss
    against a target of shape (1000, 1) is a scalar. *)
Theorem notebook_shapes_are_compatible :
  (∀ ext : externals,
      ext_spec ext →
      ∃ s', run (run_cells (notebook_cells ext)) initial_state = (Ok tt, s'))
  ∧ (∀ x w1 b1 w2 b2 w_out b_out : tensor Qc,
        has_shape x [1000; 1]%nat →
        has_shape w1 [1; 10]%nat → has_shape b1 [10]%nat →
        has_shape w2 [10; 10]%nat → has_shape b2 [10]%nat →
        has_shape w_out [10]%nat → has_shape b_out [] →
        ∃ out, two_layer_nn_model x w1 b1 w2 b2 w_out b_out = Ok out
               ∧ shape out = [1000]%nat)
  ∧ (∀ (normal : nat → list nat → tensor Qc) (x y : tensor Qc),
        normal_spec normal →
        has_shape x [1000; 1]%nat → has_shape y [1000; 1]%nat →
        ∃ out d, forward (init_network normal 1 10 1) x = Ok out
                 ∧ shape out = [1000; 1]%nat
                 ∧ loss (init_network normal 1 10 1) x y = Ok (T0 d)).
Proof.
  split; [|split].
  - intros ext Hext. destruct first_cells_run as (s3 & H13 & Ha).
    destruct (later_cells_run ext s3 Hext Ha) as ([] & s' & Hrest & _).
    exists s'. unfold run in *.
    change (notebook_cells ext)
      with ([cell_1; cell_2; cell_3]
              ++ [cell_4 ext; cell_5 ext; cell_6 ext; cell_7; cell_8 ext;
                  cell_16; cell_11 ext; cell_17; cell_19; cell_20; cell_21;
                  cell_22; cell_23 ext; cell_19b; cell_24; cell_29 ext]).
    rewrite run_cells_app, H13. exact Hrest.
  - intros x w1 b1 w2 b2 w_out b_out Hx Hw1 Hb1 Hw2 Hb2 Hwo Hbo.
    apply (ok_of_skeleton _ (unit_tensor [1000]%nat)).
    rewrite two_layer_nn_model_hom.
    rewrite (has_shape_skeleton _ _ Hx), (has_shape_skeleton _ _ Hw1),
      (has_shape_skeleton _ _ Hb1), (has_shape_skeleton _ _ Hw2),
      (has_shape_skeleton _ _ Hb2), (has_shape_skeleton _ _ Hwo),
      (has_shape_skeleton _ _ Hbo).
    exact two_layer_model_shapes.
  - intros normal x y Hn Hx Hy.
    destruct (ok_of_skeleton (forward (init_network normal 1 10 1) x)
                (unit_tensor [1000; 1]%nat)) as (out & Hout & Hshape).
    { rewrite forward_hom, (init_network_skeleton normal Hn),
        (has_shape_skeleton _ _ Hx). exact forward_shapes. }
    destruct Hx as [Hwx Hsx]. destruct Hy as [Hwy Hsy].
    destruct (is_ok_true _ (init_network_loss_ok normal x y Hn Hwx Hsx Hwy Hsy))
      as (l & Hl).
    destruct (loss_scalar _ _ _ _ Hl) as (d & ->).
    exists out, d. auto.
Qed.

Lemma notebook_shapes_are_compatible_witness :
  (∃ s', run (run_cells (notebook_cells zero_externals)) initial_state = (Ok tt, s'))
  ∧ (∃ out, two_layer_nn_model (zero_normal 0 [1000; 1]%nat) (zero_normal 0 [1; 10]%nat)
              (zero_normal 0 [10]%nat) (zero_normal 0 [10; 10]%nat) (zero_normal 0 [10]%nat)
              (zero_normal 0 [10]%nat) (T0 0%Qc) = Ok out
            ∧ shape out = [1000]%nat)
  ∧ (∃ out d, forward (init_network zero_normal 1 10 1) (zero_normal 0 [1000; 1]%nat) = Ok out
              ∧ shape out = [1000; 1]%nat
              ∧ loss (init_network zero_normal 1 10 1) (zero_normal 0 [1000; 1]%nat)
                  (zero_normal 0 [1000; 1]%nat) = Ok (T0 d)).
Proof.
  destruct notebook_shapes_are_compatible as (H1 & H2 & H3).
  split; [|split].
  - apply H1. exact zero_externals_spec.
  - apply H2; split; vm_compute; reflexivity.
  - apply H3; [exact zero_normal_spec | split; vm_compute; reflexivity
              | split; vm_compute; reflexivity].
Defined.

(** ** C6: the training loops *)

(** C6.  Cell 11 (linear regression) and cell 17 (two-layer network),
    run in any state where [x_data] and [y_data] are the data of cell 8,
    return, and each enters its loop body exactly for the indices
    0, 1, ..., 99, in this order.  Run after cell 8 from any state, the
    two cells add exactly these two runs of 100 iterations to the
    iteration record, and 21 lines to the output.  The notebook's code
    has no [while] statement: its loops are [for] statements and
    comprehensions over [range(3)], [range(100)], or a finite
    collection. *)
Theorem training_loops_run_100_iterations :
  (∀ (ext : externals) (s : state),
      ext_spec ext → data_ready s →
      ∃ s', run (cell_11 ext) s = (Ok tt, s')
            ∧ trace s' = trace s ++ seq 0 100)
  ∧ (∀ s : state,
        data_ready s →
        ∃ s', run cell_17 s = (Ok tt, s')
              ∧ trace s' = trace s ++ seq 0 100)
  ∧ (∀ (ext : externals) (s : state),
        ext_spec ext →
        ∃ s', run (run_cells [cell_8 ext; cell_11 ext; cell_17]) s = (Ok tt, s')
              ∧ trace s' = trace s ++ seq 0 100 ++ seq 0 100
              ∧ length (out s') = (length (out s) + 21)%nat)
  ∧ no_while notebook_source = true
  ∧ loop_iterables notebook_source
    = [Range 3; Range 3; Range 100; Range 100;
       Collection "zip(params_two_layer_nn, grad_params_two_layer_nn)";
       Collection "xs"; Collection "result.device_buffers";
       Collection "d.items()"].
Proof.
  split; [|split; [|split; [|split]]].
  - intros ext s Hext Hready.
    destruct (cell_11_spec ext s Hext Hready) as (s' & Hrun & _ & Htr & _).
    exists s'. split; assumption.
  - intros s Hready.
    destruct (cell_17_spec s Hready) as (s' & Hrun & _ & Htr & _).
    exists s'. split; assumption.
  - intros ext s Hext.
    destruct (cell_8_spec ext s (normal_ok ext Hext))
      as (s1 & Hrun1 & Hready1 & Hout1 & Htr1 & _).
    destruct (cell_11_spec ext s1 Hext Hready1)
      as (s2 & Hrun2 & Hready2 & Htr2 & Hout2 & _).
    destruct (cell_17_spec s2 Hready2) as (s3 & Hrun3 & _ & Htr3 & Hout3 & _).
    exists s3. split; [|split].
    + unfold run. cbn [run_cells].
      rewrite (bindM_ok _ _ _ _ _ Hrun1), (bindM_ok _ _ _ _ _ Hrun2),
        (bindM_ok _ _ _ _ _ Hrun3).
      reflexivity.
    + rewrite Htr3, Htr2, Htr1, <- app_assoc. reflexivity.
    + rewrite Hout3, Hout2, Hout1. lia.
  - vm_compute. reflexivity.
  - vm_compute. reflexivity.
Qed.

Lemma data_ready_after_cell_8 :
  data_ready (snd (run (cell_8 zero_externals) initial_state)).
Proof.
  destruct (cell_8_spec zero_externals initial_state zero_normal_spec)
    as (s' & Hrun & Hready & _).
  unfold run. rewrite Hrun. exact Hready.
Qed.

Lemma training_loops_run_100_iterations_witness :
  (∃ s', run (cell_11 zero_externals)
           (snd (run (cell_8 zero_externals) initial_state)) = (Ok tt, s')
         ∧ trace s'
           = trace (snd (run (cell_8 zero_externals) initial_state)) ++ seq 0 100)
  ∧ (∃ s', run cell_17 (snd (run (cell_8 zero_externals) initial_state)) = (Ok tt, s')
           ∧ trace s'
             = trace (snd (run (cell_8 zero_externals) initial_state)) ++ seq 0 100)
  ∧ (∃ s', run (run_cells [cell_8 zero_externals; cell_11 zero_externals; cell_17])
             initial_state = (Ok tt, s')
           ∧ trace s' = trace initial_state ++ seq 0 100 ++ seq 0 100
           ∧ length (out s') = (length (out initial_state) + 21)%nat).
Proof.
  destruct training_loops_run_100_iterations as (H1 & H2 & H3 & _).
  split; [|split].
  - apply H1; [exact zero_externals_spec | exact data_ready_after_cell_8].
  - apply H2. exact data_ready_after_cell_8.
  - apply H3. exact zero_externals_spec.
Defined.

(** ** C7: the control flow of the code *)

(** C7, as stated: no cell uses recursion, conditional branching or
    exception handling.  The code has all three.  [print_leaf_shapes]
    (cell 29) calls itself, and on the parameter tree of the network it
    prints the four lines of nested paths; the loops of cells 11 and 17
    and [print_leaf_shapes] contain [if] statements, and one step of the
    loop of cell 11 prints nothing at index 90 and one line at index 91,
    from the same state; cell 2 has a [try] statement, and returns
    normally although the assignment inside it raises. *)
Lemma control_flow_counterexample :
  (no_recursion notebook_source = false
   ∧ recursive_functions notebook_source = ["print_leaf_shapes"]
   ∧ print_leaf_shapes (canon init_skeleton) [] = Ok cell29_output)
  ∧ (no_branching notebook_source = false
     ∧ if_conditions notebook_source = ["i > 90"; "i < 10"; "isinstance(v, dict)"]
     ∧ fst (run (linear_regression_step 90) one_point_state) = Ok tt
     ∧ length (out (snd (run (linear_regression_step 90) one_point_state))) = 0%nat
     ∧ fst (run (linear_regression_step 91) one_point_state) = Ok tt
     ∧ length (out (snd (run (linear_regression_step 91) one_point_state))) = 1%nat)
  ∧ (no_exception_handling notebook_source = false
     ∧ handled_exceptions notebook_source = ["TypeError"]
     ∧ fst (run (setitem "jax_array" 1 1 0%Qc) (snd (run cell_1 initial_state)))
       = Err (TypeError jax_setitem_message)
     ∧ fst (run cell_2 (snd (run cell_1 initial_state))) = Ok tt).
Proof.
  split; [|split].
  - split; [|split]; vm_compute; reflexivity.
  - split; [|split; [|split; [|split; [|split]]]]; vm_compute; reflexivity.
  - split; [|split; [|split]]; vm_compute; reflexivity.
Qed.

(** C7, amended.  Besides straight-line statements the code has: six
    [for] statements and two comprehensions, over [range(3)] (twice),
    [range(100)] (twice) and four finite collections; no [while]
    statement; one [with] block; three [if] statements, with conditions
    [i > 90], [i < 10] and [isinstance(v, dict)]; one [try] statement,
    handling [TypeError]; and one recursive function,
    [print_leaf_shapes], every other function naming in its body only
    functions defined before it. *)
Theorem control_flow_of_the_notebook :
  loop_iterables notebook_source
  = [Range 3; Range 3; Range 100; Range 100;
     Collection "zip(params_two_layer_nn, grad_params_two_layer_nn)";
     Collection "xs"; Collection "result.device_buffers";
     Collection "d.items()"]
  ∧ no_while notebook_source = true
  ∧ length (filter (fun s => is_with s) (statements notebook_source)) = 1%nat
  ∧ if_conditions notebook_source = ["i > 90"; "i < 10"; "isinstance(v, dict)"]
  ∧ handled_exceptions notebook_source = ["TypeError"]
  ∧ recursive_functions notebook_source = ["print_leaf_shapes"]
  ∧ calls_defined_before [] (concat notebook_source) = true
  ∧ defined_functions notebook_source
    = ["slow_function"; "decorated_function"; "jitted_function"; "linear_model";
       "mse_loss"; "two_layer_nn_model"; "two_layer_nn_mse_loss"; "square";
       "init_network"; "forward"; "loss"; "gradient_descent_step";
       "print_leaf_shapes"].
Proof.
  repeat split; vm_compute; reflexivity.
Qed.

(** ** Elementwise operations on matrices *)

Lemma zipM_res_Forall2 {X Y Z} (g : X → Y → res Z) (h : X → Y → Z)
    (u : list X) (v : list Y) :
  Forall2 (fun x y => g x y = Ok (h x y)) u v →
  zipM_res g u v = Ok (zip_with h u v).
Proof.
  induction 1 as [|x y u v Hxy _ IH]; simpl; [reflexivity|].
  rewrite Hxy. simpl. rewrite IH. reflexivity.
Qed.

Lemma zip_with_diag {X Z} (f : X → X → Z) (l : list X) :
  zip_with f l l = map (fun x => f x x) l.
Proof. induction l as [|x l IH]; simpl; [reflexivity | rewrite IH; reflexivity]. Qed.

Lemma binop_T2_T2 {A} (f : A → A → A) (c : nat) (r1 r2 : list (list A)) :
  Forall2 (fun u v => length u = length v) r1 r2 →
  binop f (T2 c r1) (T2 c r2) = Ok (T2 c (zip_with (zip_with f) r1 r2)).
Proof.
  intros Hrows. cbn [binop]. unfold binop2d, bc_dim. rewrite Nat.eqb_refl.
  cbn [bind]. unfold bc_zip at 1.
  rewrite (Forall2_length _ _ _ Hrows), Nat.eqb_refl.
  rewrite (zipM_res_Forall2 _ (zip_with f)); [reflexivity|].
  eapply Forall2_impl; [exact Hrows|]. intros u v Huv. apply bc_zip_same, Huv.
Qed.

(** A matrix meets a vector of the row length as a single row. *)
Lemma binop_T2_T1 {A} (f : A → A → A) (c : nat) (rows : list (list A)) (v : list A) :
  Forall (fun row => length row = c) rows → length v = c →
  binop f (T2 c rows) (T1 v) = Ok (T2 c (map (fun row => zip_with f row v) rows)).
Proof.
  intros Hwf Hv. cbn [binop]. unfold binop2d, bc_dim. rewrite Hv, Nat.eqb_refl.
  cbn [bind].
  assert (Hrows : mapM_res (fun row => bc_zip (fun x y => Ok (f x y)) row v) rows
                  = Ok (map (fun row => zip_with f row v) rows)).
  { apply mapM_res_ok. eapply Forall_impl; [exact Hwf|]. intros row Hrow.
    apply bc_zip_same. congruence. }
  unfold bc_zip at 1. cbn [length].
  destruct (length rows =? 1)%nat eqn:E.
  - apply Nat.eqb_eq in E. destruct rows as [|row [|]]; try discriminate E.
    cbn [zipM_res map]. apply Forall_cons in Hwf as [Hrow _].
    rewrite (bc_zip_same f row v) by congruence. reflexivity.
  - destruct rows as [|row [|row' rows']]; [reflexivity | discriminate E |].
    rewrite Hrows. reflexivity.
Qed.

(** ** Dense layers, row by row *)

Section DenseLayers.
Context {A : Type} `{Scalar A}.

Lemma dense_row_length (c : nat) (wrows : list (list A)) (b row : list A) :
  length b = c → length (dense_row c wrows b row) = c.
Proof.
  intros Hb. unfold dense_row.
  rewrite length_zip_with, length_map, length_seq, Hb. lia.
Qed.

Lemma dense_layer (a c : nat) (rows wrows : list (list A)) (b : list A) :
  length wrows = a → length b = c →
  (let* xw := dot (T2 a rows) (T2 c wrows) in tadd xw (T1 b))
  = Ok (T2 c (map (dense_row c wrows b) rows)).
Proof.
  intros Hw Hb. rewrite (dot_T2_T2 a c rows wrows Hw). cbn [bind].
  unfold tadd. rewrite binop_T2_T1.
  - rewrite map_map. reflexivity.
  - apply Forall_forall. intros r Hr.
    apply list_elem_of_In, in_map_iff in Hr as (row & <- & _).
    rewrite length_map, length_seq. reflexivity.
  - exact Hb.
Qed.

End DenseLayers.

(** [forward] row by row: two dense layers, each followed by a relu. *)
Lemma forward_rows {A} `{Scalar A} (params : pyval A) (i h o : nat)
    (xrows w1rows w2rows : list (list A)) (b1 b2 : list A) :
  param params "layer1" "weights" = Ok (T2 h w1rows) →
  param params "layer1" "biases" = Ok (T1 b1) →
  param params "layer2" "weights" = Ok (T2 o w2rows) →
  param params "layer2" "biases" = Ok (T1 b2) →
  length w1rows = i → length b1 = h → length w2rows = h → length b2 = o →
  forward params (T2 i xrows)
  = Ok (T2 o (map (fun row =>
                     map s_relu
                       (dense_row o w2rows b2
                          (map s_relu (dense_row h w1rows b1 row))))
                  xrows)).
Proof.
  intros Pw1 Pb1 Pw2 Pb2 Hw1 Hb1 Hw2 Hb2.
  unfold forward. rewrite Pw1. cbn [bind].
  pose proof (dense_layer i h xrows w1rows b1 Hw1 Hb1) as L1.
  destruct (dot (T2 i xrows) (T2 h w1rows)) as [xw1|e]; [|discriminate L1].
  cbn [bind] in *. rewrite Pb1. cbn [bind]. rewrite L1. cbn [bind relu tmap].
  rewrite Pw2. cbn [bind].
  pose proof (dense_layer h o (map (map s_relu) (map (dense_row h w1rows b1) xrows))
                w2rows b2 Hw2 Hb2) as L2.
  destruct (dot (T2 h (map (map s_relu) (map (dense_row h w1rows b1) xrows)))
              (T2 o w2rows)) as [aw2|e]; [|discriminate L2].
  cbn [bind] in *. rewrite Pb2. cbn [bind]. rewrite L2. cbn [bind relu tmap].
  rewrite !map_map. reflexivity.
Qed.

(** ** C10: the network's output is never negative *)

Lemma ravel_tmap {A B} (f : A → B) (t : tensor A) :
  ravel (tmap f t) = map f (ravel t).
Proof.
  destruct t as [a|v|c rows]; simpl; try reflexivity.
  induction rows as [|row rows IH]; simpl; [reflexivity|].
  rewrite map_app, IH. reflexivity.
Qed.

Lemma forward_ends_in_relu {A} `{Scalar A} (params : pyval A) (x out : tensor A) :
  forward params x = Ok out → ∃ z2, out = relu z2.
Proof.
  unfold forward. intros Hf.
  do 8 (apply bind_Ok_inv in Hf as (? & _ & Hf)).
  injection Hf as <-. eauto.
Qed.

(** A relu returns NaN or a number that is not below zero. *)
Lemma f32_relu_nonnegative (x : f32) :
  f32_relu x = S754_nan ∨ f32_nonnegative (f32_relu x) = true.
Proof. destruct x as [[|]|[|]| |[|] m e]; cbv; auto. Qed.

Lemma f32_nonnegative_not_negative (q : f32) :
  q = S754_nan ∨ f32_nonnegative q = true → f32_negative q = false.
Proof.
  intros [->|Hq]; [reflexivity|].
  destruct q as [[|]|[|]| |[|] m e]; cbv in *; congruence.
Qed.

Lemma f32_nonnegative_ne_negative (q t : f32) :
  q = S754_nan ∨ f32_nonnegative q = true → f32_negative t = true →
  f32_eq q t = false.
Proof.
  intros [->|Hq] Ht; [reflexivity|].
  destruct q as [[|]|[|]| |[|] m e], t as [[|]|[|]| |[|] m' e'];
    cbv in Hq, Ht |- *; congruence.
Qed.

Lemma f32_relu_entries (z : tensor f32) :
  Forall (fun q => q = S754_nan ∨ f32_nonnegative q = true) (ravel (relu z)).
Proof.
  unfold relu. rewrite ravel_tmap. apply List.Forall_forall. intros q Hin.
  apply in_map_iff in Hin as (q0 & <- & _). apply f32_relu_nonnegative.
Qed.

(** C10.  In float32, every entry that [forward] returns is NaN or a
    number that is not below zero, whatever the parameters and the input
    are: no entry is negative, and no entry equals a negative target.  On
    parameters and an input whose shapes fit, [forward] does return, an
    array with one row per input row. *)
Theorem forward_is_never_negative :
  (∀ (params : pyval f32) (x out : tensor f32),
      forward params x = Ok out →
      Forall (fun q => q = S754_nan ∨ f32_nonnegative q = true) (ravel out)
      ∧ Forall (fun q => f32_negative q = false) (ravel out))
  ∧ (∀ (params : pyval f32) (x out : tensor f32) (target : f32),
        forward params x = Ok out → f32_negative target = true →
        Forall (fun q => f32_eq q target = false) (ravel out))
  ∧ (∀ (params : pyval f32) (i h o : nat) (xrows w1rows w2rows : list (list f32))
       (b1 b2 : list f32),
        param params "layer1" "weights" = Ok (T2 h w1rows) →
        param params "layer1" "biases" = Ok (T1 b1) →
        param params "layer2" "weights" = Ok (T2 o w2rows) →
        param params "layer2" "biases" = Ok (T1 b2) →
        length w1rows = i → length b1 = h → length w2rows = h → length b2 = o →
        ∃ out, forward params (T2 i xrows) = Ok out
               ∧ shape out = [length xrows; o]
               ∧ Forall (fun q => f32_negative q = false) (ravel out)).
Proof.
  assert (Hnn : ∀ (params : pyval f32) (x out : tensor f32),
             forward params x = Ok out →
             Forall (fun q => q = S754_nan ∨ f32_nonnegative q = true) (ravel out)).
  { intros params x out Hf.
    destruct (forward_ends_in_relu params x out Hf) as (z2 & ->).
    apply f32_relu_entries. }
  assert (Hneg : ∀ (params : pyval f32) (x out : tensor f32),
             forward params x = Ok out →
             Forall (fun q => f32_negative q = false) (ravel out)).
  { intros params x out Hf. eapply Forall_impl; [exact (Hnn params x out Hf)|].
    intros q Hq. apply f32_nonnegative_not_negative, Hq. }
  split; [|split].
  - intros params x out Hf. split; [eapply Hnn | eapply Hneg]; exact Hf.
  - intros params x out target Hf Ht.
    eapply Forall_impl; [exact (Hnn params x out Hf)|].
    intros q Hq. apply f32_nonnegative_ne_negative; assumption.
  - intros params i h o xrows w1rows w2rows b1 b2 Pw1 Pb1 Pw2 Pb2 Hw1 Hb1 Hw2 Hb2.
    pose proof (forward_rows params i h o xrows w1rows w2rows b1 b2
                  Pw1 Pb1 Pw2 Pb2 Hw1 Hb1 Hw2 Hb2) as Hf.
    eexists. split; [exact Hf|]. split.
    + simpl. rewrite length_map. reflexivity.
    + eapply Hneg. exact Hf.
Qed.

Lemma forward_is_never_negative_witness :
  (Forall (fun q => q = S754_nan ∨ f32_nonnegative q = true)
     (ravel (T2 1 [[f32_zero]]))
   ∧ Forall (fun q => f32_negative q = false) (ravel (T2 1 [[f32_zero]])))
  ∧ Forall (fun q => f32_eq q (f32_of_Z (-26)) = false) (ravel (T2 1 [[f32_zero]]))
  ∧ ∃ out, forward overflow_network (T2 1 [[f32_of_Z 3]]) = Ok out
           ∧ shape out = [1; 1]%nat
           ∧ Forall (fun q => f32_negative q = false) (ravel out).
Proof.
  split; [|split].
  - apply (proj1 forward_is_never_negative overflow_network (T2 1 [[f32_of_Z 3]])).
    reflexivity.
  - apply (proj1 (proj2 forward_is_never_negative) overflow_network
             (T2 1 [[f32_of_Z 3]])); reflexivity.
  - apply (proj2 (proj2 forward_is_never_negative) overflow_network 1%nat 2%nat 1%nat
             [[f32_of_Z 3]] [[f32_of_Z 2; f32_of_Z 2]] [[f32_of_Z 1]; [f32_of_Z (-1)]]
             [f32_zero; f32_zero] [f32_zero]); reflexivity.
Defined.

(** C10, a finite float32 input on which [forward] returns NaN: the first
    layer overflows to two infinities, and the second layer subtracts
    them.  NaN is not [>= 0]. *)
Lemma forward_returns_nan :
  forward overflow_network (T2 1 [[f32_of_Z (3 * 10 ^ 38)]]) = Ok (T2 1 [[S754_nan]])
  ∧ f32_nonnegative S754_nan = false
  ∧ f32_finite (f32_of_Z (3 * 10 ^ 38)) = true
  ∧ f32_of_Z (3 * 10 ^ 38) = S754_finite false 14791142 104.
Proof. repeat split; vm_compute; reflexivity. Qed.

(** * Further properties of the notebook's functions *)

(** ** [square], [batched_square] and the loop, on every rank *)

Section SquareRanks.
Context {A : Type} `{Scalar A}.

Lemma square_T1 (v : list A) : square (T1 v) = Ok (T1 (map (fun x => s_mul x x) v)).
Proof.
  unfold square, tmul. rewrite binop_T1_T1 by reflexivity. f_equal. f_equal.
  induction v as [|x v IH]; simpl; [reflexivity | rewrite IH; reflexivity].
Qed.

Lemma squares_of_rows (rows : list (list A)) :
  mapM_res square (map T1 rows)
  = Ok (map (fun row => T1 (map (fun x => s_mul x x) row)) rows).
Proof.
  rewrite mapM_res_map. apply mapM_res_ok, Forall_forall. intros row _.
  apply square_T1.
Qed.

Lemma rows_of_squares (c : nat) (rows : list (list A)) :
  Forall (fun row => length row = c) rows →
  mapM_res (as_vector c) (map (fun row => T1 (map (fun x => s_mul x x) row)) rows)
  = Ok (map (map (fun x => s_mul x x)) rows).
Proof.
  intros Hwf. rewrite mapM_res_map. apply mapM_res_ok.
  eapply Forall_impl; [exact Hwf|]. intros row Hrow. simpl.
  rewrite length_map, Hrow, Nat.eqb_refl. reflexivity.
Qed.

Lemma batched_square_T2 (c : nat) (rows : list (list A)) :
  Forall (fun row => length row = c) rows →
  batched_square (T2 c rows) = Ok (T2 c (map (map (fun x => s_mul x x)) rows)).
Proof.
  intros Hwf. unfold batched_square, vmap1. cbn [unstack bind].
  rewrite squares_of_rows. cbn [bind].
  assert (Hproto : result_proto
            (map (fun row => T1 (map (fun x => s_mul x x) row)) rows)
            (let* pa := proto_slice (Some 0%nat) (T2 c rows) in square pa) = Ok [c]).
  { destruct rows as [|row rows'].
    - cbn [map result_proto proto_slice shape length drop_axis take drop app zeros bind].
      rewrite square_T1. cbn [bind shape]. rewrite length_map, repeat_length.
      reflexivity.
    - cbn [map result_proto shape]. rewrite length_map.
      apply Forall_cons in Hwf as [-> _]. reflexivity. }
  rewrite Hproto. cbn [bind stack].
  rewrite (rows_of_squares c rows Hwf). reflexivity.
Qed.

Lemma squared_loop_T2 (c : nat) (row : list A) (rows : list (list A)) :
  Forall (fun r => length r = c) (row :: rows) →
  squared_loop (T2 c (row :: rows))
  = Ok (T2 c (map (map (fun x => s_mul x x)) (row :: rows))).
Proof.
  intros Hwf. unfold squared_loop. cbn [iter_array bind].
  rewrite squares_of_rows. cbn [bind].
  pose proof Hwf as Hwf'. apply Forall_cons in Hwf' as [Hrow _].
  cbn [map jnp_array_of shape]. rewrite length_map, Hrow. cbn [stack].
  change (T1 (map (fun x => s_mul x x) row)
            :: map (fun row0 => T1 (map (fun x => s_mul x x) row0)) rows)
    with (map (fun row0 => T1 (map (fun x => s_mul x x) row0)) (row :: rows)).
  rewrite (rows_of_squares c (row :: rows) Hwf). reflexivity.
Qed.
End SquareRanks.

(** X1.  On a vector and on a matrix with at least one row, [jax.vmap(square)],
    the list comprehension and [square] itself return the same array, the
    entries squared.  On a matrix without rows, of shape (0, c), the
    vmapped function keeps the shape and the comprehension returns the
    empty vector.  On a 0-d array [square] returns the square, the
    vmapped function raises [ValueError] and the comprehension raises
    [TypeError]. *)
Theorem square_on_every_rank :
  (∀ v : list Qc,
      batched_square (T1 v) = square (T1 v)
      ∧ squared_loop (T1 v) = square (T1 v)
      ∧ square (T1 v) = Ok (T1 (map (fun x => x * x)%Qc v)))
  ∧ (∀ (c : nat) (row : list Qc) (rows : list (list Qc)),
        wf_tensor (T2 c (row :: rows)) = true →
        batched_square (T2 c (row :: rows)) = square (T2 c (row :: rows))
        ∧ squared_loop (T2 c (row :: rows)) = square (T2 c (row :: rows))
        ∧ square (T2 c (row :: rows))
          = Ok (T2 c (map (map (fun x => x * x)%Qc) (row :: rows))))
  ∧ (∀ c : nat,
        batched_square (T2 c ([] : list (list Qc))) = Ok (T2 c [])
        ∧ squared_loop (T2 c ([] : list (list Qc))) = Ok (T1 []))
  ∧ (∀ q : Qc,
        square (T0 q) = Ok (T0 (q * q)%Qc)
        ∧ (∃ msg, batched_square (T0 q) = Err (ValueError msg))
        ∧ (∃ msg, squared_loop (T0 q) = Err (TypeError msg))).
Proof.
  split; [|split; [|split]].
  - intros v. rewrite batched_square_T1, squared_loop_T1, square_T1. auto.
  - intros c row rows Hwf. apply wf_tensor_T2 in Hwf.
    rewrite (batched_square_T2 c _ Hwf), (squared_loop_T2 c row rows Hwf).
    assert (Hsq : square (T2 c (row :: rows))
                  = Ok (T2 c (map (map (fun x => x * x)%Qc) (row :: rows)))).
    { unfold square, tmul. rewrite binop_T2_T2.
      - rewrite zip_with_diag. f_equal. f_equal. apply map_ext. intros r.
        apply zip_with_diag.
      - apply Forall2_same_length_lookup. split; [reflexivity|].
        intros i u v Hu Hv'. congruence. }
    rewrite Hsq. auto.
  - intros c. split.
    + apply (batched_square_T2 c []). constructor.
    + reflexivity.
  - intros q. split; [reflexivity|]. split; eexists; reflexivity.
Qed.

Lemma square_on_every_rank_witness :
  batched_square jax_array_value = square jax_array_value
  ∧ squared_loop jax_array_value = square jax_array_value
  ∧ square jax_array_value
    = Ok (T2 2 (map (map (fun x => x * x)%Qc) [[Qz 1; Qz 2]; [Qz 3; Qz 4]])).
Proof.
  destruct square_on_every_rank as (_ & H2 & _).
  apply (H2 2%nat [Qz 1; Qz 2] [[Qz 3; Qz 4]]). reflexivity.
Defined.

(** ** The vmapped products when the shapes do not match *)

Section ProductErrors.
Context {A : Type} `{Scalar A}.

Lemma vdot_mismatch (u v : list A) :
  length u ≠ length v → vdot (T1 u) (T1 v) = Err ShapeError.
Proof.
  intros Hne. unfold vdot. cbn [ravel].
  destruct (length u =? length v)%nat eqn:E; [|reflexivity].
  apply Nat.eqb_eq in E. contradiction.
Qed.

Lemma matrix_vector_mismatch (a : nat) (rows : list (list A)) (v : list A) :
  Forall (fun row => length row = a) rows → length v ≠ a →
  matrix_vector (T2 a rows) (T1 v) = Err ShapeError.
Proof.
  intros Hwf Hne. unfold matrix_vector, vmap2.
  cbn [batch_size axis_size shape nth_error bind slices unstack].
  destruct rows as [|row rows'].
  - cbn [length repeat map zipM_res bind result_proto proto_slice shape
           drop_axis take drop app zeros].
    unfold vector_vector. rewrite vdot_mismatch; [reflexivity|].
    rewrite repeat_length. congruence.
  - apply Forall_cons in Hwf as [Hrow _].
    cbn [length repeat map zipM_res]. unfold vector_vector at 1.
    rewrite vdot_mismatch by congruence. reflexivity.
Qed.

Lemma vmapped_mismatch (oa a c : nat) (rowsA rowsB : list (list A)) :
  Forall (fun row => length row = a) rowsA → length rowsB ≠ a →
  vmap2 matrix_vector None (Some 1%nat) oa (T2 a rowsA) (T2 c rowsB)
  = Err ShapeError.
Proof.
  intros Hwf Hne. unfold vmap2.
  cbn [batch_size axis_size shape nth_error bind slices unstack].
  destruct c as [|c'].
  - cbn [seq map repeat zipM_res bind result_proto proto_slice shape
           drop_axis take drop app zeros].
    rewrite (matrix_vector_mismatch a rowsA _ Hwf); [reflexivity|].
    rewrite repeat_length. exact Hne.
  - cbn [seq map repeat zipM_res].
    rewrite (matrix_vector_mismatch a rowsA _ Hwf); [reflexivity|].
    rewrite length_column. exact Hne.
Qed.
End ProductErrors.

(** X2.  [matrix_vector], built from [jnp.vdot] by one [vmap], is the
    matrix-vector product of [jnp.dot]; and when the inner dimensions
    differ, the products built with [vmap] raise as [jnp.dot] does, also
    when the matrices have no rows or no columns. *)
Theorem vmapped_products_and_shape_errors :
  (∀ (A : tensor Qc) (v : list Qc) (b a : nat),
      wf_tensor A = true → shape A = [b; a] → length v = a →
      matrix_vector A (T1 v) = dot A (T1 v)
      ∧ ∃ w, dot A (T1 v) = Ok (T1 w) ∧ length w = b)
  ∧ (∀ (A : tensor Qc) (v : list Qc) (b a : nat),
        wf_tensor A = true → shape A = [b; a] → length v ≠ a →
        matrix_vector A (T1 v) = Err ShapeError
        ∧ dot A (T1 v) = Err ShapeError)
  ∧ (∀ (A B : tensor Qc) (b a a' c : nat),
        wf_tensor A = true → shape A = [b; a] → shape B = [a'; c] → a ≠ a' →
        matrix_matrix A B = Err ShapeError
        ∧ matrix_matrix_transpose A B = Err ShapeError
        ∧ dot A B = Err ShapeError).
Proof.
  split; [|split].
  - intros A v b a Hwf Hs Hv.
    destruct (shape_T2_inv A b a Hs) as (rows & -> & Hb).
    apply wf_tensor_T2 in Hwf.
    rewrite (matrix_vector_rows a rows v Hwf Hv).
    cbn [dot]. rewrite Hv, Nat.eqb_refl. split; [reflexivity|].
    eexists. split; [reflexivity|]. rewrite length_map. exact Hb.
  - intros A v b a Hwf Hs Hv.
    destruct (shape_T2_inv A b a Hs) as (rows & -> & Hb).
    apply wf_tensor_T2 in Hwf.
    rewrite (matrix_vector_mismatch a rows v Hwf Hv). split; [reflexivity|].
    cbn [dot]. destruct (a =? length v)%nat eqn:E; [|reflexivity].
    apply Nat.eqb_eq in E. congruence.
  - intros A B b a a' c Hwf HsA HsB Hne.
    destruct (shape_T2_inv A b a HsA) as (rowsA & -> & Hb).
    destruct (shape_T2_inv B a' c HsB) as (rowsB & -> & Ha').
    apply wf_tensor_T2 in Hwf.
    assert (Hlen : length rowsB ≠ a) by congruence.
    unfold matrix_matrix, matrix_matrix_transpose.
    rewrite !(vmapped_mismatch _ a c rowsA rowsB Hwf Hlen).
    split; [reflexivity|]. split; [reflexivity|].
    cbn [dot]. destruct (a =? length rowsB)%nat eqn:E; [|reflexivity].
    apply Nat.eqb_eq in E. congruence.
Qed.

Lemma vmapped_products_and_shape_errors_witness :
  (matrix_vector jax_array_value (T1 [Qz 1; Qz 1]) = dot jax_array_value (T1 [Qz 1; Qz 1])
   ∧ ∃ w, dot jax_array_value (T1 [Qz 1; Qz 1]) = Ok (T1 w) ∧ length w = 2%nat)
  ∧ (matrix_vector jax_array_value (T1 [Qz 1; Qz 1; Qz 1]) = Err ShapeError
     ∧ dot jax_array_value (T1 [Qz 1; Qz 1; Qz 1]) = Err ShapeError)
  ∧ (matrix_matrix jax_array_value (T2 0 [[]; []; []]) = Err ShapeError
     ∧ matrix_matrix_transpose jax_array_value (T2 0 [[]; []; []]) = Err ShapeError
     ∧ dot jax_array_value (T2 0 [[]; []; []]) = Err ShapeError).
Proof.
  destruct vmapped_products_and_shape_errors as (H1 & H2 & H3).
  split; [|split].
  - apply (H1 jax_array_value [Qz 1; Qz 1] 2%nat 2%nat); reflexivity.
  - apply (H2 jax_array_value [Qz 1; Qz 1; Qz 1] 2%nat 2%nat);
      [reflexivity | reflexivity | discriminate].
  - apply (H3 jax_array_value (T2 0 [[]; []; []]) 2%nat 2%nat 3%nat 0%nat);
      [reflexivity | reflexivity | reflexivity | discriminate].
Defined.

(** ** The transposed product *)

Lemma dot_list_comm (u v : list Qc) : dot_list u v = dot_list v u.
Proof.
  unfold dot_list. revert v. induction u as [|x u IH]; intros [|y v]; simpl;
    try reflexivity.
  rewrite IH. f_equal. apply Qcmult_comm.
Qed.

Lemma nth_nil_zero {A} `{Scalar A} (k : nat) : nth k ([] : list A) s_zero = s_zero.
Proof. destruct k; reflexivity. Qed.

(** The columns of the transposed rows are the rows. *)
Lemma column_of_columns {A} `{Scalar A} (a i : nat) (rows : list (list A)) :
  Forall (fun row => length row = a) rows → (i < length rows)%nat →
  column i (map (fun k => column k rows) (seq 0 a)) = nth i rows [].
Proof.
  intros Hwf Hi. unfold column at 1. rewrite map_map.
  assert (Hrow : length (nth i rows []) = a).
  { rewrite Forall_forall in Hwf. apply Hwf, list_elem_of_In, nth_In, Hi. }
  transitivity (map (fun k => (fun x : A => x) (nth k (nth i rows []) s_zero))
                    (seq 0 (length (nth i rows [])))).
  - rewrite Hrow. apply map_ext. intros k. unfold column.
    rewrite <- (nth_nil_zero k) at 1.
    apply (map_nth (fun row => nth k row s_zero)).
  - rewrite (map_nth_seq (fun x : A => x) s_zero (nth i rows [])). apply map_id.
Qed.

(** X3.  For matrices [A] of shape [b, a] and [B] of shape [a, c],
    [matrix_matrix_transpose(A, B)] is the product of the transposes in
    the opposite order, [matrix_matrix(B.T, A.T)]. *)
Theorem transposed_product_of_transposes (A B : tensor Qc) (b a c : nat) :
  wf_tensor A = true → wf_tensor B = true →
  shape A = [b; a] → shape B = [a; c] →
  matrix_matrix_transpose A B = matrix_matrix (transpose B) (transpose A)
  ∧ ∃ P, matrix_matrix (transpose B) (transpose A) = Ok P ∧ shape P = [c; b].
Proof.
  intros HwA HwB HsA HsB.
  destruct (shape_T2_inv A b a HsA) as (rowsA & -> & HlA).
  destruct (shape_T2_inv B a c HsB) as (rowsB & -> & HlB).
  apply wf_tensor_T2 in HwA.
  rewrite (matrix_matrix_transpose_entries a c rowsA rowsB HwA HlB).
  cbn [transpose]. rewrite HlB.
  rewrite (matrix_matrix_entries a (length rowsA)).
  - assert (Heq : map (fun row => map (entry (map (fun j => column j rowsA) (seq 0 a)) row)
                                      (seq 0 (length rowsA)))
                      (map (fun j => column j rowsB) (seq 0 c))
                  = map (fun j => map (fun row => entry rowsB row j) rowsA) (seq 0 c)).
    { rewrite map_map. apply map_ext. intros j.
      rewrite <- (map_nth_seq (fun row => entry rowsB row j) [] rowsA).
      apply map_ext_in. intros i Hi. apply in_seq in Hi.
      unfold entry. rewrite (column_of_columns a i rowsA HwA) by lia.
      apply dot_list_comm. }
    rewrite Heq. split; [reflexivity|].
    eexists. split; [reflexivity|]. simpl. rewrite length_map, length_seq, HlA.
    reflexivity.
  - apply Forall_forall. intros col Hcol.
    apply list_elem_of_In, in_map_iff in Hcol as (j & <- & _).
    rewrite length_column. exact HlB.
  - rewrite length_map, length_seq. reflexivity.
Qed.

Lemma transposed_product_of_transposes_witness :
  matrix_matrix_transpose jax_array_value jax_array_value
  = matrix_matrix (transpose jax_array_value) (transpose jax_array_value)
  ∧ ∃ P, matrix_matrix (transpose jax_array_value) (transpose jax_array_value) = Ok P
         ∧ shape P = [2; 2]%nat.
Proof.
  apply (transposed_product_of_transposes jax_array_value jax_array_value 2 2 2);
    reflexivity.
Defined.

(** ** The losses in float32 *)

Lemma binary_round_aux_sign (m e : Z) (l : location) :
  f32_sign (binary_round_aux 24 128 false m e l) = false.
Proof.
  unfold binary_round_aux.
  destruct (shr_fexp 24 128 m e l) as [mrs' e'].
  destruct (shr_fexp 24 128 _ e' loc_Exact) as [mrs'' e''].
  destruct (shr_m mrs''); [reflexivity | | reflexivity].
  destruct (Z.leb e'' (Z.sub 128 24)); reflexivity.
Qed.

Lemma binary_round_sign (m : positive) (e : Z) :
  f32_sign (binary_round 24 128 false m e) = false.
Proof.
  unfold binary_round. destruct (shl_align m e _) as [mz ez].
  apply binary_round_aux_sign.
Qed.

(** A square is never negative. *)
Lemma f32_square_sign (x : f32) : f32_sign (f32_mul x x) = false.
Proof.
  destruct x as [[|]|[|]| |[|] m e]; try reflexivity;
    apply binary_round_aux_sign.
Qed.

Lemma f32_add_sign (x y : f32) :
  f32_sign x = false → f32_sign y = false → f32_sign (f32_add x y) = false.
Proof.
  destruct x as [sx|sx| |sx mx ex], y as [sy|sy| |sy my ey];
    intros Hx Hy; cbn [f32_sign] in Hx, Hy; subst; try reflexivity.
  unfold f32_add, SFadd. cbn [cond_Zopp Z.add].
  apply binary_round_sign.
Qed.

Lemma f32_div_sign (x y : f32) :
  f32_sign x = false → f32_sign y = false → f32_sign (f32_div x y) = false.
Proof.
  destruct x as [sx|sx| |sx mx ex], y as [sy|sy| |sy my ey];
    intros Hx Hy; cbn [f32_sign] in Hx, Hy; subst; try reflexivity.
  unfold f32_div, SFdiv.
  destruct (SFdiv_core_binary 24 128 (Zpos mx) ex (Zpos my) ey) as [[mz ez] lz].
  apply binary_round_aux_sign.
Qed.

Lemma f32_of_nat_sign (n : nat) : f32_sign (f32_of_Z (Z.of_nat n)) = false.
Proof.
  unfold f32_of_Z, binary_normalize.
  destruct (Z.of_nat n) eqn:E; [reflexivity | apply binary_round_sign | lia].
Qed.

Lemma f32_sum_sign (l : list f32) :
  Forall (fun q => f32_sign q = false) l → f32_sign (sum_list l) = false.
Proof.
  induction 1 as [|q l Hq _ IH]; [reflexivity|].
  apply f32_add_sign; assumption.
Qed.

Lemma f32_sign_not_negative (q : f32) : f32_sign q = false → f32_negative q = false.
Proof. destruct q as [[|]|[|]| |[|] m e]; cbv; congruence. Qed.

(** The mean of squares is never negative: it is NaN, or its sign bit is
    clear. *)
Lemma f32_mean_square (r t : tensor f32) :
  mean (tpow r 2) = Ok t → ∃ l, t = T0 l ∧ f32_negative l = false.
Proof.
  unfold mean, tpow. rewrite ravel_tmap. intros [= <-].
  eexists. split; [reflexivity|]. apply f32_sign_not_negative.
  apply f32_div_sign; [|apply f32_of_nat_sign].
  apply f32_sum_sign, List.Forall_forall. intros q Hq.
  apply in_map_iff in Hq as (q0 & <- & _). apply f32_square_sign.
Qed.

(** X4.  In float32 the three losses of the notebook never return a
    negative number: whenever [mse_loss], [two_layer_nn_mse_loss] or
    [loss] returns, the result is a scalar [l] for which [l < 0] is false
    (a number that is not below zero, or NaN).  [mse_loss] does return
    for two parameters and data vectors of one length. *)
Theorem losses_are_never_negative :
  (∀ (params : pyval f32) (x y t : tensor f32),
      mse_loss params x y = Ok t → ∃ l, t = T0 l ∧ f32_negative l = false)
  ∧ (∀ (params : pyval f32) (x y t : tensor f32),
        two_layer_nn_mse_loss params x y = Ok t →
        ∃ l, t = T0 l ∧ f32_negative l = false)
  ∧ (∀ (params : pyval f32) (x y t : tensor f32),
        loss params x y = Ok t → ∃ l, t = T0 l ∧ f32_negative l = false)
  ∧ (∀ (m b : f32) (x y : list f32),
        length x = length y →
        ∃ l, mse_loss (Leaf (T1 [m; b])) (T1 x) (T1 y) = Ok (T0 l)
             ∧ f32_negative l = false).
Proof.
  assert (H1 : ∀ (params : pyval f32) (x y t : tensor f32),
             mse_loss params x y = Ok t → ∃ l, t = T0 l ∧ f32_negative l = false).
  { intros params x y t Hl. unfold mse_loss in Hl.
    apply bind_Ok_inv in Hl as (mb & _ & Hl). destruct mb as [m b].
    do 4 (apply bind_Ok_inv in Hl as (? & _ & Hl)).
    eapply f32_mean_square, Hl. }
  split; [exact H1|]. split; [|split].
  - intros params x y t Hl. unfold two_layer_nn_mse_loss in Hl.
    apply bind_Ok_inv in Hl as (ws & _ & Hl).
    destruct ws as [[[[[w1 b1] w2] b2] w_out] b_out].
    do 2 (apply bind_Ok_inv in Hl as (? & _ & Hl)).
    eapply f32_mean_square, Hl.
  - intros params x y t Hl. unfold loss in Hl.
    do 2 (apply bind_Ok_inv in Hl as (? & _ & Hl)).
    eapply f32_mean_square, Hl.
  - intros m b x y Hlen.
    destruct (mse_loss (Leaf (T1 [m; b])) (T1 x) (T1 y)) as [t|e] eqn:Hl.
    + destruct (H1 _ _ _ _ Hl) as (l & -> & Hneg). eauto.
    + exfalso. revert Hl. unfold mse_loss, linear_model, unpack2, py_iter, as_array.
      cbn [bind map fst snd]. unfold tmul, tadd, tsub.
      cbn [binop tmap bind].
      rewrite bc_zip_same by (rewrite !length_map; exact Hlen).
      cbn [bind]. discriminate.
Qed.

Lemma losses_are_never_negative_witness :
  ∃ l, mse_loss (Leaf (T1 [f32_of_Z 2; f32_of_Z 1]))
         (T1 [f32_of_Z 0; f32_of_Z 1]) (T1 [f32_of_Z 3; f32_of_Z (-7)]) = Ok (T0 l)
       ∧ f32_negative l = false.
Proof.
  apply (proj2 (proj2 (proj2 losses_are_never_negative))). reflexivity.
Defined.

(** ** The arguments [mse_loss] rejects, and the ones it broadcasts *)

Section BroadcastFacts.
Context {A : Type}.

Lemma binop_T1_mismatch (f : A → A → A) (u v : list A) :
  length u ≠ length v → length u ≠ 1%nat → length v ≠ 1%nat →
  binop f (T1 u) (T1 v) = Err ShapeError.
Proof.
  intros Hne Hu Hv. cbn [binop]. unfold bc_zip.
  destruct (length u =? length v)%nat eqn:E.
  { apply Nat.eqb_eq in E. contradiction. }
  destruct u as [|x [|x' u']]; destruct v as [|y [|y' v']];
    simpl in *; try reflexivity; congruence.
Qed.

Lemma zip_with_repeat_r {B C} (f : A → B → C) (u : list A) (y : B) :
  zip_with f u (repeat y (length u)) = map (fun x => f x y) u.
Proof. induction u as [|x u IH]; simpl; [reflexivity | rewrite IH; reflexivity]. Qed.

(** A vector of length 1 is stretched to the length of the other operand. *)
Lemma binop_T1_broadcast_r (f : A → A → A) (u : list A) (y : A) :
  binop f (T1 u) (T1 [y]) = binop f (T1 u) (T1 (repeat y (length u))).
Proof.
  rewrite (binop_T1_T1 f u (repeat y (length u))) by (rewrite repeat_length; reflexivity).
  rewrite zip_with_repeat_r. cbn [binop]. unfold bc_zip. cbn [length].
  destruct (length u =? 1)%nat eqn:E.
  - apply Nat.eqb_eq in E. destruct u as [|x [|]]; try discriminate E. reflexivity.
  - destruct u as [|x [|x' u']]; [reflexivity | discriminate E |].
    rewrite (mapM_res_ok _ (fun x0 => f x0 y)); [reflexivity|].
    apply Forall_forall. reflexivity.
Qed.
End BroadcastFacts.

(** X6.  [mse_loss] unpacks [params] into exactly two values: an array or a
    tuple with another number of entries raises [ValueError], whatever
    the data.  With two parameters, data vectors of different lengths
    raise the shape error of the subtraction unless one of the lengths is
    1; a target [y] of length 1 is accepted and compared with every
    prediction. *)
Theorem mse_loss_arguments :
  (∀ (ps : list Qc) (x y : tensor Qc),
      length ps ≠ 2%nat →
      ∃ msg, mse_loss (Leaf (T1 ps)) x y = Err (ValueError msg))
  ∧ (∀ (items : list (pyval Qc)) (x y : tensor Qc),
        length items ≠ 2%nat →
        ∃ msg, mse_loss (PTuple items) x y = Err (ValueError msg))
  ∧ (∀ (m b : Qc) (x y : list Qc),
        length x ≠ length y → length x ≠ 1%nat → length y ≠ 1%nat →
        mse_loss (Leaf (T1 [m; b])) (T1 x) (T1 y) = Err ShapeError)
  ∧ (∀ (m b : Qc) (x : list Qc) (y0 : Qc),
        mse_loss (Leaf (T1 [m; b])) (T1 x) (T1 [y0])
        = mse_loss (Leaf (T1 [m; b])) (T1 x) (T1 (repeat y0 (length x)))).
Proof.
  split; [|split; [|split]].
  - intros ps x y Hlen. unfold mse_loss, unpack2. cbn [py_iter bind].
    destruct ps as [|p1 [|p2 [|p3 ps']]]; simpl in Hlen; try congruence;
      eexists; reflexivity.
  - intros items x y Hlen. unfold mse_loss, unpack2. cbn [py_iter bind].
    destruct items as [|p1 [|p2 [|p3 ps']]]; simpl in Hlen; try congruence;
      eexists; reflexivity.
  - intros m b x y Hne Hx Hy. unfold mse_loss, unpack2, linear_model.
    cbn [py_iter map bind as_array fst snd].
    change (tmul (T0 m) (T1 x)) with (Ok (T1 (map (s_mul m) x))). cbn [bind].
    change (tadd (T1 (map (s_mul m) x)) (T0 b))
      with (Ok (T1 (map (fun q => s_add q b) (map (s_mul m) x)))).
    cbn [bind]. unfold tsub.
    rewrite binop_T1_mismatch; [reflexivity | | |]; rewrite ?length_map; assumption.
  - intros m b x y0. unfold mse_loss, unpack2, linear_model.
    cbn [py_iter map bind as_array fst snd].
    change (tmul (T0 m) (T1 x)) with (Ok (T1 (map (s_mul m) x))). cbn [bind].
    change (tadd (T1 (map (s_mul m) x)) (T0 b))
      with (Ok (T1 (map (fun q => s_add q b) (map (s_mul m) x)))).
    cbn [bind]. unfold tsub. rewrite binop_T1_broadcast_r, !length_map.
    reflexivity.
Qed.

Lemma mse_loss_arguments_witness :
  (∃ msg, mse_loss (Leaf (T1 [Qz 1; Qz 2; Qz 3])) (T1 [Qz 1]) (T1 [Qz 1])
          = Err (ValueError msg))
  ∧ (∃ msg, mse_loss (PTuple [Leaf (T0 (Qz 1))]) (T1 [Qz 1]) (T1 [Qz 1])
            = Err (ValueError msg))
  ∧ mse_loss (Leaf (T1 [Qz 1; Qz 2])) (T1 [Qz 1; Qz 2; Qz 3]) (T1 [Qz 1; Qz 2])
    = Err ShapeError.
Proof.
  destruct mse_loss_arguments as (H1 & H2 & H3 & _).
  split; [|split].
  - apply H1. discriminate.
  - apply H2. discriminate.
  - apply H3; discriminate.
Defined.

(** ** The two-layer model at the initial weights, in float32 *)







(** ** The dict network of cells 25 and 26 *)

Lemma getitem_canon {L} (p : pytree L) (k : string) :
  keys_unique p = true →
  getitem (canon p) k = res_map canon (getitem p k).
Proof.
  destruct p as [x|items|items]; try reflexivity.
  intros [Hnd _]%keys_unique_PDict. cbn [canon getitem].
  rewrite lookup_item_sort.
  - rewrite (lookup_item_map canon). destruct (lookup_item k items); reflexivity.
  - rewrite map_map. simpl. exact Hnd.
Qed.

Lemma lookup_item_Some_In {V} (k : string) (v : V) (l : list (string * V)) :
  lookup_item k l = Some v → In (k, v) l.
Proof.
  induction l as [|[k' v'] l IH]; simpl; [discriminate|].
  destruct (String.eqb k k') eqn:E.
  - apply String.eqb_eq in E. intros [= ->]. left. congruence.
  - intros Hl. right. apply IH, Hl.
Qed.

Lemma getitem_keys_unique {L} (p v : pytree L) (k : string) :
  keys_unique p = true → getitem p k = Ok v → keys_unique v = true.
Proof.
  destruct p as [x|items|items]; try discriminate.
  intros [_ Hall]%keys_unique_PDict. cbn [getitem].
  destruct (lookup_item k items) as [t|] eqn:Hk; [|discriminate].
  intros [= <-]. apply lookup_item_Some_In in Hk.
  exact (proj1 (List.Forall_forall _ _) Hall (k, t) Hk).
Qed.

Lemma as_array_canon {A} (v : pyval A) : as_array (canon v) = as_array v.
Proof. destruct v; reflexivity. Qed.

Lemma param_canon {A} `{Scalar A} (params : pyval A) (layer name : string) :
  keys_unique params = true →
  param (canon params) layer name = param params layer name.
Proof.
  intros Hu. unfold param. rewrite (getitem_canon params layer Hu).
  destruct (getitem params layer) as [l|e] eqn:Hl; [|reflexivity].
  cbn [res_map bind].
  rewrite (getitem_canon l name (getitem_keys_unique _ _ _ Hu Hl)).
  destruct (getitem l name) as [p|e]; [|reflexivity].
  cbn [res_map bind]. apply as_array_canon.
Qed.

(** X9.  [forward] reads its four arrays by key.  On parameters with
    weights of shapes (i, h) and (h, o) and biases of lengths h and o it
    returns, for an input with i columns, the matrix whose rows are
    relu(relu(row W1 + b1) W2 + b2), one per input row; it gives the same
    result when the dict keys come in sorted order, as [jax.tree_map]
    returns them; and on a dict without the key [layer1] it raises
    [KeyError: 'layer1']. *)
Theorem forward_reads_parameters_by_key {A} `{Scalar A} :
  (∀ (params : pyval A) (i h o : nat) (xrows w1rows w2rows : list (list A))
     (b1 b2 : list A),
      param params "layer1" "weights" = Ok (T2 h w1rows) →
      param params "layer1" "biases" = Ok (T1 b1) →
      param params "layer2" "weights" = Ok (T2 o w2rows) →
      param params "layer2" "biases" = Ok (T1 b2) →
      length w1rows = i → length b1 = h → length w2rows = h → length b2 = o →
      forward params (T2 i xrows)
      = Ok (T2 o (map (fun row =>
                         map s_relu
                           (dense_row o w2rows b2
                              (map s_relu (dense_row h w1rows b1 row))))
                      xrows)))
  ∧ (∀ (params : pyval A) (x : tensor A),
        keys_unique params = true →
        forward (canon params) x = forward params x)
  ∧ (∀ (items : list (string * pyval A)) (x : tensor A),
        lookup_item "layer1" items = None →
        forward (PDict items) x = Err (KeyError "layer1")).
Proof.
  split; [|split].
  - intros params i h o xrows w1rows w2rows b1 b2. apply forward_rows.
  - intros params x Hu. unfold forward. rewrite !param_canon by exact Hu.
    reflexivity.
  - intros items x Hk. unfold forward, param. cbn [getitem]. rewrite Hk.
    reflexivity.
Qed.

Lemma forward_reads_parameters_by_key_witness :
  forward
    (PDict [("layer1", PDict [("weights", Leaf (T2 2 [[Qz 1; Qz (-1)]]));
                               ("biases", Leaf (T1 [0%Qc; 0%Qc]))]);
            ("layer2", PDict [("weights", Leaf (T2 1 [[Qz 1]; [Qz 1]]));
                               ("biases", Leaf (T1 [0%Qc]))])])
    (T2 1 [[Qz 3]])
  = Ok (T2 1 (map (fun row =>
                     map s_relu
                       (dense_row 1 [[Qz 1]; [Qz 1]] [0%Qc]
                          (map s_relu (dense_row 2 [[Qz 1; Qz (-1)]] [0%Qc; 0%Qc] row))))
                  [[Qz 3]]))
  ∧ forward (canon unit_network) (T0 (Qz 3)) = forward unit_network (T0 (Qz 3))
  ∧ forward (PDict [("layer2", Leaf (T0 (Qz 1)))]) (T0 (Qz 3))
    = Err (KeyError "layer1").
Proof.
  split; [|split].
  - apply (proj1 forward_reads_parameters_by_key _ 1%nat 2%nat 1%nat); reflexivity.
  - apply (proj1 (proj2 forward_reads_parameters_by_key)). reflexivity.
  - apply (proj2 (proj2 forward_reads_parameters_by_key)). reflexivity.
Defined.

(** ** [print_leaf_shapes] on any tree *)

Section PrintLeafShapesFacts.
Context {A : Type}.

Lemma print_leaf_shapes_dict (items : list (string * pyval A)) :
  Forall (fun kv =>
            ∀ sub, snd kv = PDict sub →
              ∀ path,
                if only_dicts (PDict sub)
                then ∃ lines, print_leaf_shapes (PDict sub) path = Ok lines
                              ∧ length lines = length (leaves (PDict sub))
                else print_leaf_shapes (PDict sub) path
                     = Err (AttributeError "'tuple' object has no attribute 'shape'"))
         items →
  ∀ path,
    if only_dicts (PDict items)
    then ∃ lines, print_leaf_shapes (PDict items) path = Ok lines
                  ∧ length lines = length (leaves (PDict items))
    else print_leaf_shapes (PDict items) path
         = Err (AttributeError "'tuple' object has no attribute 'shape'").
Proof.
  intros IH path. cbn [print_leaf_shapes only_dicts leaves].
  induction IH as [|[k v] items Hkv _ IHitems]; cbn [forallb mapM_res map concat].
  - exists []. split; reflexivity.
  - cbn [fst snd] in *. destruct v as [a|sub|sub].
    + cbn [only_dicts andb bind leaves].
      destruct (forallb (fun kv => only_dicts (snd kv)) items).
      * destruct IHitems as (lines & Hl & Hlen).
        apply bind_Ok_inv in Hl as (ls & Hls & [= <-]). rewrite Hls. cbn [bind].
        eexists. split; [reflexivity|]. simpl. rewrite Hlen. reflexivity.
      * destruct (mapM_res _ items) as [ls|e]; [discriminate IHitems|].
        cbn [bind] in *. exact IHitems.
    + reflexivity.
    + specialize (Hkv sub eq_refl (path ++ [k])).
      change (only_dicts (PDict sub)) with
        (forallb (fun kv => only_dicts (snd kv)) sub) in *.
      cbn [only_dicts].
      destruct (forallb (fun kv => only_dicts (snd kv)) sub); cbn [andb].
      * destruct Hkv as (l0 & Hl0 & Hlen0). rewrite Hl0. cbn [bind].
        destruct (forallb (fun kv => only_dicts (snd kv)) items).
        -- destruct IHitems as (lines & Hl & Hlen).
           apply bind_Ok_inv in Hl as (ls & Hls & [= <-]). rewrite Hls. cbn [bind].
           eexists. split; [reflexivity|]. simpl.
           rewrite !length_app, Hlen, Hlen0. reflexivity.
        -- destruct (mapM_res _ items) as [ls|e]; [discriminate IHitems|].
           cbn [bind] in *. exact IHitems.
      * rewrite Hkv. reflexivity.
Qed.

Lemma print_leaf_shapes_any (d : pyval A) :
  ∀ sub, d = PDict sub →
    ∀ path,
      if only_dicts (PDict sub)
      then ∃ lines, print_leaf_shapes (PDict sub) path = Ok lines
                    ∧ length lines = length (leaves (PDict sub))
      else print_leaf_shapes (PDict sub) path
           = Err (AttributeError "'tuple' object has no attribute 'shape'").
Proof.
  induction d as [a|items IH|items IH] using pytree_nested_ind;
    intros sub Hd; try discriminate.
  injection Hd as <-. apply print_leaf_shapes_dict. exact IH.
Qed.
End PrintLeafShapesFacts.

(** X10.  [print_leaf_shapes] on a dict whose values are arrays or such
    dicts, at any depth, prints exactly one line per array; if some value
    at some depth is a tuple, it raises [AttributeError] (a tuple has no
    [shape]); called on a tuple or on an array instead of a dict, it
    raises [AttributeError] as well (no [items]). *)
Theorem print_leaf_shapes_one_line_per_leaf {A} :
  (∀ (items : list (string * pyval A)) (path : list string),
      only_dicts (PDict items) = true →
      ∃ lines, print_leaf_shapes (PDict items) path = Ok lines
               ∧ length lines = length (leaves (PDict items)))
  ∧ (∀ (items : list (string * pyval A)) (path : list string),
        only_dicts (PDict items) = false →
        print_leaf_shapes (PDict items) path
        = Err (AttributeError "'tuple' object has no attribute 'shape'"))
  ∧ (∀ (d : pyval A) (path : list string),
        (∀ items, d ≠ PDict items) →
        print_leaf_shapes d path
        = Err (AttributeError "object has no attribute 'items'")).
Proof.
  split; [|split].
  - intros items path Ho.
    pose proof (print_leaf_shapes_any (PDict items) items eq_refl path) as Hp.
    rewrite Ho in Hp. exact Hp.
  - intros items path Ho.
    pose proof (print_leaf_shapes_any (PDict items) items eq_refl path) as Hp.
    rewrite Ho in Hp. exact Hp.
  - intros [a|l|items] path Hd; try reflexivity.
    exfalso. exact (Hd items eq_refl).
Qed.

Lemma print_leaf_shapes_one_line_per_leaf_witness :
  (∃ lines, print_leaf_shapes (init_network zero_normal 1 10 1) [] = Ok lines
            ∧ length lines = length (leaves (init_network zero_normal 1 10 1)))
  ∧ print_leaf_shapes
      (PDict [("a", Leaf (T1 [Qz 1; Qz 2]));
              ("b", PTuple [Leaf (T1 [Qz 3; Qz 4]); Leaf (T1 [Qz 5])])]) []
    = Err (AttributeError "'tuple' object has no attribute 'shape'")
  ∧ print_leaf_shapes (zero_weights 0) []
    = Err (AttributeError "object has no attribute 'items'").
Proof.
  split; [|split].
  - apply (proj1 print_leaf_shapes_one_line_per_leaf). reflexivity.
  - apply (proj1 (proj2 print_leaf_shapes_one_line_per_leaf)). reflexivity.
  - apply (proj2 (proj2 print_leaf_shapes_one_line_per_leaf)). discriminate.
Defined.

(** ** The update of cell 17 *)

Lemma mapM_res_length_ok {X Y} (f : X → res Y) (l : list X) (r : list Y) :
  mapM_res f l = Ok r → length r = length l.
Proof.
  revert r. induction l as [|x l IH]; simpl; intros r Hr.
  - injection Hr as <-. reflexivity.
  - apply bind_Ok_inv in Hr as (y & _ & Hr).
    apply bind_Ok_inv in Hr as (ys & Hys & [= <-]).
    simpl. rewrite (IH ys Hys). reflexivity.
Qed.

Lemma combine_app_l {X Y} (u extra : list X) (v : list Y) :
  length u = length v → combine (u ++ extra) v = combine u v.
Proof.
  revert v. induction u as [|x u IH]; intros [|y v] Hlen; simpl in *;
    try discriminate.
  - destruct extra; reflexivity.
  - rewrite IH by congruence. reflexivity.
Qed.

Lemma combine_app_r {X Y} (u : list X) (v extra : list Y) :
  length u = length v → combine u (v ++ extra) = combine u v.
Proof.
  revert v. induction u as [|x u IH]; intros [|y v] Hlen; simpl in *;
    try discriminate; [reflexivity|].
  rewrite IH by congruence. reflexivity.
Qed.

(** X12.  The update expression of cell 17,
    [tuple(param - learning_rate * grad_param for param, grad_param in
    zip(params, grads))], pairs the entries with [zip]: entries of the
    longer tuple beyond the length of the shorter one are dropped without
    an error, and when it returns the result is a tuple with one entry
    per pair. *)
Theorem tuple_update_truncates (lr : tensor Qc) (ps gs extra : list (pyval Qc)) :
  length ps = length gs →
  tuple_update lr (PTuple (ps ++ extra)) (PTuple gs)
  = tuple_update lr (PTuple ps) (PTuple gs)
  ∧ tuple_update lr (PTuple ps) (PTuple (gs ++ extra))
    = tuple_update lr (PTuple ps) (PTuple gs)
  ∧ ∀ r, tuple_update lr (PTuple ps) (PTuple gs) = Ok r →
         ∃ l, r = PTuple l ∧ length l = length ps.
Proof.
  intros Hlen. unfold tuple_update. cbn [py_iter bind].
  rewrite combine_app_l, combine_app_r by exact Hlen.
  split; [reflexivity|]. split; [reflexivity|].
  intros r Hr. apply bind_Ok_inv in Hr as (l & Hl & [= <-]).
  exists l. split; [reflexivity|].
  rewrite (mapM_res_length_ok _ _ _ Hl), length_combine. lia.
Qed.

Lemma tuple_update_truncates_witness :
  tuple_update (T0 (Q2Qc (1 # 10)))
    (PTuple ([Leaf (T0 (Qz 1)); Leaf (T1 [Qz 2; Qz 3])] ++ [Leaf (T0 (Qz 7))]))
    (PTuple [Leaf (T0 (Qz 10)); Leaf (T1 [Qz 10; Qz 20])])
  = tuple_update (T0 (Q2Qc (1 # 10)))
      (PTuple [Leaf (T0 (Qz 1)); Leaf (T1 [Qz 2; Qz 3])])
      (PTuple [Leaf (T0 (Qz 10)); Leaf (T1 [Qz 10; Qz 20])])
  ∧ tuple_update (T0 (Q2Qc (1 # 10)))
      (PTuple [Leaf (T0 (Qz 1)); Leaf (T1 [Qz 2; Qz 3])])
      (PTuple ([Leaf (T0 (Qz 10)); Leaf (T1 [Qz 10; Qz 20])] ++ [Leaf (T0 (Qz 7))]))
    = tuple_update (T0 (Q2Qc (1 # 10)))
        (PTuple [Leaf (T0 (Qz 1)); Leaf (T1 [Qz 2; Qz 3])])
        (PTuple [Leaf (T0 (Qz 10)); Leaf (T1 [Qz 10; Qz 20])])
  ∧ ∀ r, tuple_update (T0 (Q2Qc (1 # 10)))
           (PTuple [Leaf (T0 (Qz 1)); Leaf (T1 [Qz 2; Qz 3])])
           (PTuple [Leaf (T0 (Qz 10)); Leaf (T1 [Qz 10; Qz 20])]) = Ok r →
         ∃ l, r = PTuple l ∧ length l = 2%nat.
Proof.
  apply (tuple_update_truncates (T0 (Q2Qc (1 # 10)))
           [Leaf (T0 (Qz 1)); Leaf (T1 [Qz 2; Qz 3])]
           [Leaf (T0 (Qz 10)); Leaf (T1 [Qz 10; Qz 20])] [Leaf (T0 (Qz 7))]).
  reflexivity.
Defined.

(** ** Operands of one shape, entry by entry *)

Lemma concat_zip_rows {X} (f : X → X → X) (r1 r2 : list (list X)) :
  Forall2 (fun u v => length u = length v) r1 r2 →
  concat (zip_with (zip_with f) r1 r2) = zip_with f (concat r1) (concat r2)
  ∧ length (concat r1) = length (concat r2).
Proof.
  induction 1 as [|u v r1 r2 Huv _ [IH IHlen]]; simpl; [split; reflexivity|].
  rewrite IH, zip_with_app by exact Huv. split; [reflexivity|].
  rewrite !length_app. congruence.
Qed.

Lemma Forall2_same_length_rows {X} (c : nat) (r1 r2 : list (list X)) :
  Forall (fun row => length row = c) r1 → Forall (fun row => length row = c) r2 →
  length r1 = length r2 →
  Forall2 (fun u v => length u = length v) r1 r2.
Proof.
  intros H1. revert r2. induction H1 as [|u r1 Hu _ IH]; intros [|v r2] H2 Hlen;
    simpl in Hlen; try discriminate; constructor.
  - apply Forall_cons in H2 as [Hv _]. congruence.
  - apply IH; [|congruence]. apply Forall_cons in H2 as [_ H2]. exact H2.
Qed.

(** An elementwise operation on two arrays of one shape works entry by
    entry, without broadcasting. *)
Lemma binop_same_shape {X} (f : X → X → X) (a b : tensor X) :
  wf_tensor a = true → wf_tensor b = true → shape a = shape b →
  ∃ r, binop f a b = Ok r ∧ ravel r = zip_with f (ravel a) (ravel b)
       ∧ length (ravel a) = length (ravel b).
Proof.
  intros Ha Hb Hs.
  destruct a as [x|u|c1 r1], b as [y|v|c2 r2]; simpl in Hs; try discriminate.
  - eexists. split; [reflexivity|]. split; reflexivity.
  - injection Hs as Hlen. rewrite binop_T1_T1 by exact Hlen.
    eexists. split; [reflexivity|]. split; [reflexivity | exact Hlen].
  - injection Hs as Hlen <-.
    apply wf_tensor_T2 in Ha. apply wf_tensor_T2 in Hb.
    pose proof (Forall2_same_length_rows c1 r1 r2 Ha Hb Hlen) as Hrows.
    rewrite binop_T2_T2 by exact Hrows.
    eexists. split; [reflexivity|]. apply concat_zip_rows, Hrows.
Qed.

(** ** The dict network at every size *)

Lemma init_network_forward (normal : nat → list nat → tensor Qc) (i h o n : nat)
    (x : tensor Qc) :
  normal_spec normal → has_shape x [n; i] →
  ∃ out, forward (init_network normal i h o) x = Ok out ∧ has_shape out [n; o].
Proof.
  intros Hn [Hwx Hsx].
  destruct (Hn 123%nat [i; h]) as [_ Hs1]; [simpl; lia|].
  destruct (Hn 246%nat [h; o]) as [_ Hs2]; [simpl; lia|].
  destruct (shape_T2_inv _ _ _ Hs1) as (w1rows & E1 & Hl1).
  destruct (shape_T2_inv _ _ _ Hs2) as (w2rows & E2 & Hl2).
  destruct (shape_T2_inv _ _ _ Hsx) as (xrows & -> & Hlx).
  eexists. split.
  - apply (forward_rows _ i h o xrows w1rows w2rows
             (repeat 0%Qc h) (repeat 0%Qc o));
      try (unfold param, init_network; cbn [getitem lookup_item String.eqb
             Ascii.eqb Bool.eqb bind as_array]; rewrite ?E1, ?E2; reflexivity);
      try assumption; apply repeat_length.
  - split.
    + apply wf_tensor_T2, List.Forall_forall. intros row Hrow.
      apply in_map_iff in Hrow as (r0 & <- & _).
      rewrite length_map. apply dense_row_length, repeat_length.
    + simpl. rewrite length_map, Hlx. reflexivity.
Qed.

(** X14.  [init_network], [forward], [loss] and [gradient_descent_step]
    fit together at every size: for all dimensions i, h, o, every batch
    size n > 0 (and o > 0), every input of shape (n, i) and target of shape
    (n, o), [forward(init_network(i, h, o), x)] has shape (n, o), the loss
    is a scalar, and [gradient_descent_step] returns a dict of the same
    structure with leaves of shapes (i, h), (h,), (h, o) and (o,). *)
Theorem init_network_fits_at_every_size (normal : nat → list nat → tensor Qc)
    (i h o n : nat) (x y : tensor Qc) (lr : Qc) :
  normal_spec normal → has_shape x [n; i] → has_shape y [n; o] →
  (0 < n)%nat → (0 < o)%nat →
  (∃ out, forward (init_network normal i h o) x = Ok out ∧ has_shape out [n; o])
  ∧ (∃ l, loss (init_network normal i h o) x y = Ok (T0 l))
  ∧ (∃ u, gradient_descent_step (init_network normal i h o) x y lr = Ok u
          ∧ treedef u = treedef (init_network normal i h o)
          ∧ leaf_shapes u = leaf_shapes (init_network normal i h o))
  ∧ leaf_shapes (init_network normal i h o)
    = PDict [("layer1", PDict [("biases", Leaf [h]); ("weights", Leaf [i; h])]);
             ("layer2", PDict [("biases", Leaf [o]); ("weights", Leaf [h; o])])].
Proof.
  intros Hn Hx Hy Hn0 Ho0.
  destruct (init_network_forward normal i h o n x Hn Hx) as (out & Hf & Hout).
  assert (Hloss : ∃ l, loss (init_network normal i h o) x y = Ok (T0 l)).
  { destruct Hout as [Hwo Hso]. destruct Hy as [Hwy Hsy].
    destruct (binop_same_shape Qcminus out y Hwo Hwy) as (r & Hr & _);
      [congruence|].
    destruct (loss (init_network normal i h o) x y) as [t|e] eqn:Hl.
    - destruct (loss_scalar _ _ _ _ Hl) as (d & ->). eauto.
    - exfalso. unfold loss in Hl. rewrite Hf in Hl. cbn [bind] in Hl.
      unfold tsub in Hl. change (@s_sub Qc Qc_scalar) with Qcminus in Hl.
      rewrite Hr in Hl. cbn [bind] in Hl. unfold mean in Hl. discriminate Hl. }
  split; [eauto|]. split; [exact Hloss|]. split.
  - destruct Hloss as (l & Hl).
    destruct (gradient_descent_step_skeleton (init_network normal i h o) x y lr)
      as (u & Hstep & Hsk); [reflexivity | rewrite Hl; reflexivity |].
    exists u. split; [exact Hstep|].
    rewrite !treedef_skeleton, !leaf_shapes_skeleton, Hsk, canon_idem.
    split; reflexivity.
  - destruct (Hn 123%nat [i; h]) as [_ Hs1]; [simpl; lia|].
    destruct (Hn 246%nat [h; o]) as [_ Hs2]; [simpl; lia|].
    unfold leaf_shapes, init_network. cbn [tree_map1 map fst snd shape].
    rewrite Hs1, Hs2, !repeat_length. reflexivity.
Qed.

Lemma init_network_fits_at_every_size_witness :
  (∃ out, forward (init_network zero_normal 2 3 2) (zero_normal 0 [4; 2]%nat) = Ok out
          ∧ has_shape out [4; 2]%nat)
  ∧ (∃ l, loss (init_network zero_normal 2 3 2) (zero_normal 0 [4; 2]%nat)
            (zero_normal 0 [4; 2]%nat) = Ok (T0 l))
  ∧ (∃ u, gradient_descent_step (init_network zero_normal 2 3 2)
            (zero_normal 0 [4; 2]%nat) (zero_normal 0 [4; 2]%nat)
            default_learning_rate = Ok u
          ∧ treedef u = treedef (init_network zero_normal 2 3 2)
          ∧ leaf_shapes u = leaf_shapes (init_network zero_normal 2 3 2))
  ∧ leaf_shapes (init_network zero_normal 2 3 2)
    = PDict [("layer1", PDict [("biases", Leaf [3]%nat); ("weights", Leaf [2; 3]%nat)]);
             ("layer2", PDict [("biases", Leaf [2]%nat); ("weights", Leaf [3; 2]%nat)])].
Proof.
  apply (init_network_fits_at_every_size zero_normal 2 3 2 4).
  - exact zero_normal_spec.
  - split; reflexivity.
  - split; reflexivity.
  - lia.
  - lia.
Defined.
